(** * oav: schema resolver and example generator

    A shallow embedding of [lib/validators/specResolver.ts] (composition
    flattening and polymorphism expansion) and of
    [lib/generator/swaggerMocker.ts] (the cache-aware example generator),
    followed by the properties established about them.

    Conventions of the embedding:
    - a JavaScript object iterated by the code is an association list that
      keeps insertion order, with at most one entry per key; an object that
      is only probed by key ([Map], [Set], the memo tables) is a [gmap] or a
      [gset];
    - an absent member is [None]; the truthiness tests of the source are
      written out ([truthy_str], [truthy_flag], ...);
    - objects of the document are mutated in place by the source; the
      document is a tree, so an in-place mutation is a functional update at
      the location of the object;
    - a JavaScript exception is the outcome [Throw]; recursion that the
      source does not bound takes a fuel argument and yields [OutOfFuel]
      when the bound is reached. *)

From Stdlib Require Import String Ascii List ZArith Bool Lia DecimalString.
From stdpp Require Import base gmap strings list.

Set Warnings "-register-all".
Open Scope string_scope.
Open Scope list_scope.

(** ** Outcomes *)

Inductive outcome (A : Type) : Type :=
| Ok (a : A)
| Throw (message : string)
| OutOfFuel
| Unmodelled.

Arguments Ok {A} a.
Arguments Throw {A} message.
Arguments OutOfFuel {A}.
Arguments Unmodelled {A}.

#[global] Instance outcome_ret : MRet outcome := fun _ a => Ok a.
#[global] Instance outcome_bind : MBind outcome := fun _ _ f m =>
  match m with
  | Ok a => f a
  | Throw e => Throw e
  | OutOfFuel => OutOfFuel
  | Unmodelled => Unmodelled
  end.

(** A left-to-right loop whose body may throw. *)
Fixpoint forEach {A S : Type} (body : A -> S -> outcome S) (l : list A) (st : S) : outcome S :=
  match l with
  | [] => Ok st
  | x :: l' => st' ← body x st; forEach body l' st'
  end.

(** ** JavaScript objects as ordered association lists *)

Module Js.

Section Obj.
Context {A : Type}.

(** [o[k]] *)
Fixpoint obj_get (k : string) (o : list (string * A)) : option A :=
  match o with
  | [] => None
  | (k', v) :: o' => if String.eqb k k' then Some v else obj_get k o'
  end.

(** [k in o] *)
Definition obj_has (k : string) (o : list (string * A)) : bool :=
  match obj_get k o with Some _ => true | None => false end.

(** [o[k] = v]: an existing key keeps its position. *)
Fixpoint obj_set (k : string) (v : A) (o : list (string * A)) : list (string * A) :=
  match o with
  | [] => [(k, v)]
  | (k', v') :: o' =>
      if String.eqb k k' then (k, v) :: o' else (k', v') :: obj_set k v o'
  end.

(** [Object.keys(o)] *)
Definition obj_keys (o : list (string * A)) : list string := map fst o.

(** [{...a, ...b}] *)
Definition obj_spread (a b : list (string * A)) : list (string * A) :=
  fold_left (fun acc kv => obj_set (fst kv) (snd kv) acc) b a.

(** in-place change of the member [k], when present *)
Fixpoint obj_alter (f : A -> A) (k : string) (o : list (string * A)) : list (string * A) :=
  match o with
  | [] => []
  | (k', v) :: o' =>
      if String.eqb k k' then (k', f v) :: o' else (k', v) :: obj_alter f k o'
  end.
End Obj.

(** in-place change of the element [i] of an array, when in range *)
Fixpoint arr_alter {A : Type} (f : A -> A) (i : nat) (l : list A) : list A :=
  match l, i with
  | [], _ => []
  | x :: l', O => f x :: l'
  | x :: l', S i' => x :: arr_alter f i' l'
  end.

(** [s.indexOf(sub) !== -1] *)
Definition includes (sub s : string) : bool :=
  match String.index 0 sub s with Some _ => true | None => false end.

(** [arr.includes(x)] on an array of strings *)
Definition arr_includes (x : string) (l : list string) : bool :=
  existsb (String.eqb x) l.

(** [[...new Set(l)]]: first occurrences, in order. *)
Fixpoint dedup_str (seen l : list string) : list string :=
  match l with
  | [] => []
  | x :: l' =>
      if arr_includes x seen then dedup_str seen l'
      else x :: dedup_str (x :: seen) l'
  end.

Definition is_space (c : ascii) : bool :=
  let n := nat_of_ascii c in
  (Nat.eqb n 32) || ((Nat.leb 9 n) && (Nat.leb n 13)).

(** [!s.trim().length] *)
Fixpoint blank (s : string) : bool :=
  match s with
  | EmptyString => true
  | String c s' => is_space c && blank s'
  end.

(** [s.slice(1)] *)
Definition slice1 (s : string) : string :=
  match s with
  | EmptyString => EmptyString
  | String _ s' => s'
  end.

(** [s.startsWith("#")] *)
Definition starts_with_hash (s : string) : bool :=
  match s with
  | String c _ => Ascii.eqb c "#"%char
  | EmptyString => false
  end.

(** [s.split(sep)] for a one-character separator *)
Fixpoint split_on (sep : ascii) (s : string) : list string :=
  match s with
  | EmptyString => [EmptyString]
  | String c s' =>
      if Ascii.eqb c sep then EmptyString :: split_on sep s'
      else match split_on sep s' with
           | [] => [String c EmptyString]
           | w :: ws => String c w :: ws
           end
  end.

(** [s.substring(s.lastIndexOf("/") + 1)] *)
Definition after_last_slash (s : string) : string :=
  List.last (split_on "/"%char s) EmptyString.

Definition truthy_str (o : option string) : bool :=
  match o with
  | Some s => negb (String.eqb s EmptyString)
  | None => false
  end.

Definition truthy_flag (o : option bool) : bool :=
  match o with Some b => b | None => false end.

Definition present {A : Type} (o : option A) : bool :=
  match o with Some _ => true | None => false end.

End Js.

Import Js.

(** ** Schema objects

    [SchemaObject] has the members that the two source files read or write.
    Parameter and response objects are schema-like objects of the same
    document and share the type (members [name] and [schema]). *)

Module Schema.

Record XMsEnum : Type := mkXMsEnum {
  enumName : option string;
  modelAsString : option bool;
}.

Inductive SchemaObject : Type := mkSchema {
  ref : option string; (* [$ref] *)
  type : option string; (* [type] *)
  properties : option (list (string * SchemaObject)); (* [properties], in declaration order *)
  allOf : option (list SchemaObject); (* [allOf], the composition list *)
  oneOf : option (list SchemaObject); (* [oneOf], the alternative set *)
  required : option (list string); (* [required] *)
  discriminator : option string; (* [discriminator] *)
  x_ms_discriminator_value : option string; (* [x-ms-discriminator-value] *)
  x_ms_azure_resource : option bool; (* [x-ms-azure-resource] *)
  enum : option (list string); (* [enum] *)
  x_ms_enum : option XMsEnum; (* [x-ms-enum] *)
  items : option SchemaObject; (* [items] *)
  additionalProperties : option (bool + SchemaObject); (* [additionalProperties]: a flag or a schema *)
  discriminatorMap : option (list (string * SchemaObject)); (* [discriminatorMap], attached by the loader *)
  name : option string; (* [name] of a parameter object *)
  schema : option SchemaObject; (* [schema] of a body parameter or a response *)
}.

Definition emptySchema : SchemaObject :=
  mkSchema None None None None None None None None None None None None None None None None.

Definition set_ref (v : option string) (s : SchemaObject) : SchemaObject :=
  let 'mkSchema f0 f1 f2 f3 f4 f5 f6 f7 f8 f9 f10 f11 f12 f13 f14 f15 := s in
  mkSchema v f1 f2 f3 f4 f5 f6 f7 f8 f9 f10 f11 f12 f13 f14 f15.

Definition set_type (v : option string) (s : SchemaObject) : SchemaObject :=
  let 'mkSchema f0 f1 f2 f3 f4 f5 f6 f7 f8 f9 f10 f11 f12 f13 f14 f15 := s in
  mkSchema f0 v f2 f3 f4 f5 f6 f7 f8 f9 f10 f11 f12 f13 f14 f15.

Definition set_properties (v : option (list (string * SchemaObject))) (s : SchemaObject) : SchemaObject :=
  let 'mkSchema f0 f1 f2 f3 f4 f5 f6 f7 f8 f9 f10 f11 f12 f13 f14 f15 := s in
  mkSchema f0 f1 v f3 f4 f5 f6 f7 f8 f9 f10 f11 f12 f13 f14 f15.

Definition set_allOf (v : option (list SchemaObject)) (s : SchemaObject) : SchemaObject :=
  let 'mkSchema f0 f1 f2 f3 f4 f5 f6 f7 f8 f9 f10 f11 f12 f13 f14 f15 := s in
  mkSchema f0 f1 f2 v f4 f5 f6 f7 f8 f9 f10 f11 f12 f13 f14 f15.

Definition set_oneOf (v : option (list SchemaObject)) (s : SchemaObject) : SchemaObject :=
  let 'mkSchema f0 f1 f2 f3 f4 f5 f6 f7 f8 f9 f10 f11 f12 f13 f14 f15 := s in
  mkSchema f0 f1 f2 f3 v f5 f6 f7 f8 f9 f10 f11 f12 f13 f14 f15.

Definition set_required (v : option (list string)) (s : SchemaObject) : SchemaObject :=
  let 'mkSchema f0 f1 f2 f3 f4 f5 f6 f7 f8 f9 f10 f11 f12 f13 f14 f15 := s in
  mkSchema f0 f1 f2 f3 f4 v f6 f7 f8 f9 f10 f11 f12 f13 f14 f15.

Definition set_discriminator (v : option string) (s : SchemaObject) : SchemaObject :=
  let 'mkSchema f0 f1 f2 f3 f4 f5 f6 f7 f8 f9 f10 f11 f12 f13 f14 f15 := s in
  mkSchema f0 f1 f2 f3 f4 f5 v f7 f8 f9 f10 f11 f12 f13 f14 f15.

Definition set_x_ms_discriminator_value (v : option string) (s : SchemaObject) : SchemaObject :=
  let 'mkSchema f0 f1 f2 f3 f4 f5 f6 f7 f8 f9 f10 f11 f12 f13 f14 f15 := s in
  mkSchema f0 f1 f2 f3 f4 f5 f6 v f8 f9 f10 f11 f12 f13 f14 f15.

Definition set_x_ms_azure_resource (v : option bool) (s : SchemaObject) : SchemaObject :=
  let 'mkSchema f0 f1 f2 f3 f4 f5 f6 f7 f8 f9 f10 f11 f12 f13 f14 f15 := s in
  mkSchema f0 f1 f2 f3 f4 f5 f6 f7 v f9 f10 f11 f12 f13 f14 f15.

Definition set_enum (v : option (list string)) (s : SchemaObject) : SchemaObject :=
  let 'mkSchema f0 f1 f2 f3 f4 f5 f6 f7 f8 f9 f10 f11 f12 f13 f14 f15 := s in
  mkSchema f0 f1 f2 f3 f4 f5 f6 f7 f8 v f10 f11 f12 f13 f14 f15.

Definition set_x_ms_enum (v : option XMsEnum) (s : SchemaObject) : SchemaObject :=
  let 'mkSchema f0 f1 f2 f3 f4 f5 f6 f7 f8 f9 f10 f11 f12 f13 f14 f15 := s in
  mkSchema f0 f1 f2 f3 f4 f5 f6 f7 f8 f9 v f11 f12 f13 f14 f15.

Definition set_items (v : option SchemaObject) (s : SchemaObject) : SchemaObject :=
  let 'mkSchema f0 f1 f2 f3 f4 f5 f6 f7 f8 f9 f10 f11 f12 f13 f14 f15 := s in
  mkSchema f0 f1 f2 f3 f4 f5 f6 f7 f8 f9 f10 v f12 f13 f14 f15.

Definition set_additionalProperties (v : option (bool + SchemaObject)) (s : SchemaObject) : SchemaObject :=
  let 'mkSchema f0 f1 f2 f3 f4 f5 f6 f7 f8 f9 f10 f11 f12 f13 f14 f15 := s in
  mkSchema f0 f1 f2 f3 f4 f5 f6 f7 f8 f9 f10 f11 v f13 f14 f15.

Definition set_discriminatorMap (v : option (list (string * SchemaObject))) (s : SchemaObject) : SchemaObject :=
  let 'mkSchema f0 f1 f2 f3 f4 f5 f6 f7 f8 f9 f10 f11 f12 f13 f14 f15 := s in
  mkSchema f0 f1 f2 f3 f4 f5 f6 f7 f8 f9 f10 f11 f12 v f14 f15.

Definition set_name (v : option string) (s : SchemaObject) : SchemaObject :=
  let 'mkSchema f0 f1 f2 f3 f4 f5 f6 f7 f8 f9 f10 f11 f12 f13 f14 f15 := s in
  mkSchema f0 f1 f2 f3 f4 f5 f6 f7 f8 f9 f10 f11 f12 f13 v f15.

Definition set_schema (v : option SchemaObject) (s : SchemaObject) : SchemaObject :=
  let 'mkSchema f0 f1 f2 f3 f4 f5 f6 f7 f8 f9 f10 f11 f12 f13 f14 f15 := s in
  mkSchema f0 f1 f2 f3 f4 f5 f6 f7 f8 f9 f10 f11 f12 f13 f14 v.

Definition propertiesOrEmpty (x : SchemaObject) : list (string * SchemaObject) :=
  match properties x with Some o => o | None => [] end.

Definition requiredOrEmpty (x : SchemaObject) : list string :=
  match required x with Some l => l | None => [] end.

(** [{ $ref: r }] *)
Definition refSchema (r : string) : SchemaObject := set_ref (Some r) emptySchema.

End Schema.

Import Schema.

(** ** The document and JSON pointers *)

Module Document.

Record Operation : Type := mkOperation {
  op_parameters : list SchemaObject;            (* [parameters] *)
  op_responses : list (string * SchemaObject);  (* [responses], by status code *)
}.

(** The members of [SwaggerObject] that can hold a schema. *)
Record SwaggerObject : Type := mkSwagger {
  definitions : list (string * SchemaObject);
  parameters : list (string * SchemaObject);
  paths : list (string * list (string * Operation));
}.

Definition set_definitions (v : list (string * SchemaObject)) (spec : SwaggerObject) : SwaggerObject :=
  mkSwagger v (parameters spec) (paths spec).

Definition string_of_nat (n : nat) : string :=
  NilEmpty.string_of_uint (Nat.to_uint n).

(** An array index token: the decimal numeral of an index, nothing else. *)
Definition parse_index (t : string) : option nat :=
  match NilEmpty.uint_of_string t with
  | Some u =>
      let n := Nat.of_uint u in
      if String.eqb (string_of_nat n) t then Some n else None
  | None => None
  end.

(** JSON-pointer escaping of a token: [~] is [~0] and [/] is [~1]. *)
Fixpoint escape_token (t : string) : string :=
  match t with
  | EmptyString => EmptyString
  | String c t' =>
      if Ascii.eqb c "~"%char then String "~"%char (String "0"%char (escape_token t'))
      else if Ascii.eqb c "/"%char then String "~"%char (String "1"%char (escape_token t'))
      else String c (escape_token t')
  end.

Fixpoint unescape_token (t : string) : string :=
  match t with
  | EmptyString => EmptyString
  | String c t' =>
      match t' with
      | String d t'' =>
          if Ascii.eqb c "~"%char && Ascii.eqb d "1"%char then String "/"%char (unescape_token t'')
          else if Ascii.eqb c "~"%char && Ascii.eqb d "0"%char then String "~"%char (unescape_token t'')
          else String c (unescape_token t')
      | EmptyString => String c EmptyString
      end
  end.

(** The pointer string of a location, as [findRefs] reports it:
    ["#/definitions/Pet/properties/owner"]. *)
Definition pointer_string (loc : list string) : string :=
  "#" +:+ String.concat EmptyString (map (fun t => "/" +:+ escape_token t) loc).

(** Tokens of a pointer without its leading [#]; a pointer that is not
    empty and does not start with [/] is invalid. *)
Definition parse_pointer (p : string) : option (list string) :=
  match p with
  | EmptyString => Some []
  | _ =>
      match split_on "/"%char p with
      | EmptyString :: ts => Some (map unescape_token ts)
      | _ => None
      end
  end.

(** The schema object at a location below a schema object. *)
Fixpoint schema_get (p : list string) (s : SchemaObject) : option SchemaObject :=
  match p with
  | [] => Some s
  | t :: p' =>
      if String.eqb t "items" then c ← items s; schema_get p' c
      else if String.eqb t "schema" then c ← schema s; schema_get p' c
      else if String.eqb t "additionalProperties" then
        match additionalProperties s with
        | Some (inr c) => schema_get p' c
        | _ => None
        end
      else
        match p' with
        | [] => None
        | k :: p'' =>
            if String.eqb t "properties" then
              o ← properties s; c ← obj_get k o; schema_get p'' c
            else if String.eqb t "discriminatorMap" then
              o ← discriminatorMap s; c ← obj_get k o; schema_get p'' c
            else if String.eqb t "allOf" then
              l ← allOf s; i ← parse_index k; c ← nth_error l i; schema_get p'' c
            else if String.eqb t "oneOf" then
              l ← oneOf s; i ← parse_index k; c ← nth_error l i; schema_get p'' c
            else None
        end
  end.

(** In-place mutation [f] of the schema object at a location; nothing
    changes when the location does not exist. *)
Fixpoint schema_upd (p : list string) (f : SchemaObject -> SchemaObject)
    (s : SchemaObject) : SchemaObject :=
  match p with
  | [] => f s
  | t :: p' =>
      if String.eqb t "items" then
        set_items (schema_upd p' f <$> items s) s
      else if String.eqb t "schema" then
        set_schema (schema_upd p' f <$> schema s) s
      else if String.eqb t "additionalProperties" then
        match additionalProperties s with
        | Some (inr c) => set_additionalProperties (Some (inr (schema_upd p' f c))) s
        | _ => s
        end
      else
        match p' with
        | [] => s
        | k :: p'' =>
            if String.eqb t "properties" then
              set_properties (obj_alter (schema_upd p'' f) k <$> properties s) s
            else if String.eqb t "discriminatorMap" then
              set_discriminatorMap (obj_alter (schema_upd p'' f) k <$> discriminatorMap s) s
            else if String.eqb t "allOf" then
              match parse_index k with
              | Some i => set_allOf (arr_alter (schema_upd p'' f) i <$> allOf s) s
              | None => s
              end
            else if String.eqb t "oneOf" then
              match parse_index k with
              | Some i => set_oneOf (arr_alter (schema_upd p'' f) i <$> oneOf s) s
              | None => s
              end
            else s
        end
  end.

(** [utils.getObject(spec, pointer)], on the tokens of the pointer; a
    location that holds no schema object reads as [undefined]. *)
Definition getObject (spec : SwaggerObject) (p : list string) : option SchemaObject :=
  match p with
  | root :: k :: p' =>
      if String.eqb root "definitions" then
        d ← obj_get k (definitions spec); schema_get p' d
      else if String.eqb root "parameters" then
        d ← obj_get k (parameters spec); schema_get p' d
      else if String.eqb root "paths" then
        match p' with
        | verb :: sect :: i :: p'' =>
            ops ← obj_get k (paths spec);
            op ← obj_get verb ops;
            if String.eqb sect "parameters" then
              n ← parse_index i; d ← nth_error (op_parameters op) n; schema_get p'' d
            else if String.eqb sect "responses" then
              d ← obj_get i (op_responses op); schema_get p'' d
            else None
        | _ => None
        end
      else None
  | _ => None
  end.

Definition op_upd (sect i : string) (g : SchemaObject -> SchemaObject) (op : Operation) : Operation :=
  if String.eqb sect "parameters" then
    match parse_index i with
    | Some n => mkOperation (arr_alter g n (op_parameters op)) (op_responses op)
    | None => op
    end
  else if String.eqb sect "responses" then
    mkOperation (op_parameters op) (obj_alter g i (op_responses op))
  else op.

(** The object at a location mutated in place by [f]
    (read with [utils.getObject], written back with [utils.setObject]). *)
Definition updObject (spec : SwaggerObject) (p : list string)
    (f : SchemaObject -> SchemaObject) : SwaggerObject :=
  match p with
  | root :: k :: p' =>
      if String.eqb root "definitions" then
        mkSwagger (obj_alter (schema_upd p' f) k (definitions spec)) (parameters spec) (paths spec)
      else if String.eqb root "parameters" then
        mkSwagger (definitions spec) (obj_alter (schema_upd p' f) k (parameters spec)) (paths spec)
      else if String.eqb root "paths" then
        match p' with
        | verb :: sect :: i :: p'' =>
            mkSwagger (definitions spec) (parameters spec)
              (obj_alter (obj_alter (op_upd sect i (schema_upd p'' f)) verb) k (paths spec))
        | _ => spec
        end
      else spec
  | _ => spec
  end.

(** An entry of the table returned by [jsonRefs.findRefs]: the location of
    an object that has a [$ref] member, and the value of that member. *)
Record RefEntry : Type := mkRefEntry {
  location : list string;
  uri : string;
}.

(** The key of the entry in the table of [findRefs]. *)
Definition key (r : RefEntry) : string := pointer_string (location r).

(** Modelled from the spec: [jsonRefs.findRefs] (lib/util/jsonRefs.ts, a
    wrapper of the json-refs package) is not among the files embedded here;
    it lists every object of the document that has a [$ref] member, keyed
    by the pointer of the object. *)
Fixpoint findRefs_schema (s : SchemaObject) (pre : list string) {struct s} : list RefEntry :=
  match s with
  | mkSchema r _ ps ao oo _ _ _ _ _ _ it ap dm _ sc =>
      (match r with Some u => [mkRefEntry pre u] | None => [] end)
      ++ (match ps with
          | Some o =>
              (fix go (o : list (string * SchemaObject)) : list RefEntry :=
                 match o with
                 | [] => []
                 | (k, c) :: o' => findRefs_schema c (pre ++ ["properties"; k]) ++ go o'
                 end) o
          | None => []
          end)
      ++ (match ao with
          | Some l =>
              (fix go (l : list SchemaObject) (i : nat) : list RefEntry :=
                 match l with
                 | [] => []
                 | c :: l' => findRefs_schema c (pre ++ ["allOf"; string_of_nat i]) ++ go l' (S i)
                 end) l 0
          | None => []
          end)
      ++ (match oo with
          | Some l =>
              (fix go (l : list SchemaObject) (i : nat) : list RefEntry :=
                 match l with
                 | [] => []
                 | c :: l' => findRefs_schema c (pre ++ ["oneOf"; string_of_nat i]) ++ go l' (S i)
                 end) l 0
          | None => []
          end)
      ++ (match it with Some c => findRefs_schema c (pre ++ ["items"]) | None => [] end)
      ++ (match ap with
          | Some (inr c) => findRefs_schema c (pre ++ ["additionalProperties"])
          | _ => []
          end)
      ++ (match dm with
          | Some o =>
              (fix go (o : list (string * SchemaObject)) : list RefEntry :=
                 match o with
                 | [] => []
                 | (k, c) :: o' => findRefs_schema c (pre ++ ["discriminatorMap"; k]) ++ go o'
                 end) o
          | None => []
          end)
      ++ (match sc with Some c => findRefs_schema c (pre ++ ["schema"]) | None => [] end)
  end.

Definition findRefs_obj (root : list string) (o : list (string * SchemaObject)) : list RefEntry :=
  flat_map (fun kv => findRefs_schema (snd kv) (root ++ [fst kv])) o.

Fixpoint findRefs_arr (root : list string) (i : nat) (l : list SchemaObject) : list RefEntry :=
  match l with
  | [] => []
  | c :: l' => findRefs_schema c (root ++ [string_of_nat i]) ++ findRefs_arr root (S i) l'
  end.

Definition findRefs_operation (root : list string) (op : Operation) : list RefEntry :=
  findRefs_arr (root ++ ["parameters"]) 0 (op_parameters op)
  ++ findRefs_obj (root ++ ["responses"]) (op_responses op).

Definition findRefs (spec : SwaggerObject) : list RefEntry :=
  flat_map (fun pv =>
      flat_map (fun vo => findRefs_operation ["paths"; fst pv; fst vo] (snd vo)) (snd pv))
    (paths spec)
  ++ findRefs_obj ["parameters"] (parameters spec)
  ++ findRefs_obj ["definitions"] (definitions spec).

End Document.

Import Document.

(** ** The resolver: [SpecResolver] *)

Module Resolver.

(** *** Composition flattening *)

(** Modelled from the spec: [utils.mergeObjects(source, target)]
    (lib/util/utils.ts) is not among the files embedded here. It merges the
    parent's properties into the child's property map; the child's entry
    wins on a name collision. *)
Definition mergeObjects (source target : list (string * SchemaObject))
    : list (string * SchemaObject) :=
  fold_left
    (fun acc kv => if obj_has (fst kv) acc then acc else obj_set (fst kv) (snd kv) acc)
    source target.

(** [if (!x.properties) { x.properties = {} }] *)
Definition ensureProperties (x : SchemaObject) : SchemaObject :=
  match properties x with
  | Some _ => x
  | None => set_properties (Some []) x
  end.

(** [mergeParentAllOfInChild(parent, child)]: the child after the merge.
    Both arguments are objects, so neither guard of the source throws. The
    source also gives the parent an empty [properties] member when it has
    none; [resolveAllOfInModel] below writes that back. *)
Definition mergeParentAllOfInChild (parent child : SchemaObject) : SchemaObject :=
  let parent := ensureProperties parent in
  let child := ensureProperties child in
  let child :=
    set_properties
      (Some (mergeObjects (propertiesOrEmpty parent) (propertiesOrEmpty child))) child in
  let child :=
    match required parent with
    | Some parentRequired =>
        set_required (Some (dedup_str [] (parentRequired ++ requiredOrEmpty child))) child
    | None => child
    end in
  if truthy_flag (x_ms_azure_resource parent)
  then set_x_ms_azure_resource (x_ms_azure_resource parent) child
  else child.

Record AllOfState : Type := mkAllOfState {
  a_spec : SwaggerObject;               (* [this.specInJson] *)
  a_resolved : gset string;             (* keys of [this.resolvedAllOfModels] *)
}.

(** The key under which [resolvedAllOfModels[slicedRef as string]] stores. *)
Definition memoKey (slicedRef : option string) : string :=
  match slicedRef with Some r => r | None => "undefined" end.

(** [resolveAllOfInModel(model, modelRef)]. [model] is an object of the
    document, given by its location [loc]; the value returned by the source
    is not used by any caller and is left out. Item [i] of [model.allOf]:
    the body of the [forEach]. *)
Fixpoint resolveAllOfInModel (fuel : nat) (loc : list string) (modelRef : option string)
    (st : AllOfState) : outcome AllOfState :=
  match fuel with
  | O => OutOfFuel
  | S fuel' =>
      match getObject (a_spec st) loc with
      | None => Throw "model cannot be null or undefined and must of type object."
      | Some model =>
          match modelRef with
          | None => Throw "model cannot be null or undefined and must of type string."
          | Some r =>
              if String.eqb r EmptyString then
                Throw "model cannot be null or undefined and must of type string."
              else
                let modelRef := if starts_with_hash r then slice1 r else r in
                if bool_decide (modelRef ∈ a_resolved st) then Ok st
                else
                  match allOf model with
                  | Some allOfItems =>
                      forEach
                        (fun i st =>
                           match getObject (a_spec st) (loc ++ ["allOf"; string_of_nat i]) with
                           | None => Ok st
                           | Some item =>
                               let slicedRef :=
                                 if truthy_str (ref item) then slice1 <$> ref item else None in
                               let refLoc :=
                                 match slicedRef with
                                 | None => Some (loc ++ ["allOf"; string_of_nat i])
                                 | Some sr => parse_pointer sr
                                 end in
                               match refLoc ≫= getObject (a_spec st), refLoc with
                               | Some referencedModel, Some refLoc =>
                                   st ← (if present (allOf referencedModel)
                                         then resolveAllOfInModel fuel' refLoc slicedRef st
                                         else Ok st);
                                   let spec := updObject (a_spec st) refLoc ensureProperties in
                                   match getObject spec refLoc with
                                   | Some parent =>
                                       Ok (mkAllOfState
                                             (updObject spec loc (mergeParentAllOfInChild parent))
                                             ({[ memoKey slicedRef ]} ∪ a_resolved st))
                                   | None => Throw "parent must be of type object."
                                   end
                               | _, _ =>
                                   Throw "TypeError: Cannot read properties of undefined (reading 'allOf')"
                               end
                           end)
                        (seq 0 (length allOfItems)) st
                  | None =>
                      Ok (mkAllOfState (a_spec st) ({[ modelRef ]} ∪ a_resolved st))
                  end
          end
      end
  end.

(** [resolveAllOfInDefinitions()] *)
Definition resolveAllOfInDefinitions (fuel : nat) (st : AllOfState) : outcome AllOfState :=
  forEach
    (fun modelName st =>
       resolveAllOfInModel fuel ["definitions"; modelName]
         (Some ("/definitions/" +:+ modelName)) st)
    (obj_keys (definitions (a_spec st))) st.

(** [deleteReferencesToAllOf()] *)
Definition deleteReferencesToAllOf (spec : SwaggerObject) : SwaggerObject :=
  set_definitions (map (fun kv => (fst kv, set_allOf None (snd kv))) (definitions spec)) spec.

(** *** Polymorphism expansion *)

(** Modelled from the spec: the class [PolymorphicTree]
    (lib/validators/polymorphicTree.ts) is not among the files embedded here:
    a node has a name and an ordered set of children, keyed by name. *)
Inductive PolymorphicTree : Type := mkTree {
  t_name : string;
  children : list PolymorphicTree;
}.

(** [node.addChildByObject(childObj)] *)
Definition addChildByObject (childObj node : PolymorphicTree) : PolymorphicTree :=
  if existsb (fun c => String.eqb (t_name c) (t_name childObj)) (children node)
  then node
  else mkTree (t_name node) (children node ++ [childObj]).

(** What the pass does with trees, recorded for the properties below: the
    constructor calls [new PolymorphicTree(name)] and the insertions
    [subTreeMap.set(name, node)], in the order in which they happen. *)
Inductive event : Type :=
| Constructed (name : string)
| Memoized (name : string).

Record TreeState : Type := mkTreeState {
  t_spec : SwaggerObject;                              (* [this.specInJson] *)
  t_subTreeMap : list (string * PolymorphicTree);      (* [subTreeMap], a [Map] *)
  t_trace : list event;
}.

(** [findChildren(name)]: the definitions whose [allOf] has an item that
    refers to [name], in the order of the definitions. *)
Definition refersTo (reference : string) (item : SchemaObject) : bool :=
  truthy_str (ref item) && bool_decide (ref item = Some reference).

Definition findChildren (defs : list (string * SchemaObject)) (name : string) : list string :=
  let reference := "#/definitions/" +:+ name in
  dedup_str []
    (map fst
       (List.filter
          (fun kv =>
             match allOf (snd kv) with
             | Some allOfItems => existsb (refersTo reference) allOfItems
             | None => false
             end)
          defs)).

(** Lines 924 to 979 of [createPolymorphicTree], for the definition
    [definition] named [name]: the discriminator is made a required
    property and gets an enum constraint. *)

(** [definition["x-ms-discriminator-value"] || name] *)
Definition wireName (name : string) (definition : SchemaObject) : string :=
  match x_ms_discriminator_value definition with
  | Some v => if String.eqb v EmptyString then name else v
  | None => name
  end.

(** Lines 932 to 937: [definition.required] *)
Definition requireDiscriminator (discriminator0 : string) (definition : SchemaObject)
    : SchemaObject :=
  match required definition with
  | None => set_required (Some [discriminator0]) definition
  | Some req =>
      if arr_includes discriminator0 req then definition
      else set_required (Some (req ++ [discriminator0])) definition
  end.

(** Lines 944 to 954: a property given by reference takes the enum of the
    referenced definition when it has none, and loses its [$ref]. *)
Definition inlineReferencedEnum (defs : list (string * SchemaObject)) (d : SchemaObject)
    : SchemaObject :=
  match ref d with
  | Some r =>
      if String.eqb r EmptyString then d
      else
        let d :=
          match enum d with
          | Some _ => d
          | None =>
              match obj_get (after_last_slash r) defs with
              | Some refDefinition => set_enum (enum refDefinition) d
              | None => d
              end
          end in
        set_ref None d
  | None => d
  end.

(** Lines 955 to 960: [xMsEnum.modelAsString = false] *)
Definition disableModelAsString (d : SchemaObject) : SchemaObject :=
  match x_ms_enum d with
  | Some xMsEnum => set_x_ms_enum (Some (mkXMsEnum (enumName xMsEnum) (Some false))) d
  | None => d
  end.

(** Lines 966 to 968: [if (!d.type) { d.type = "string" }] *)
Definition defaultStringType (d : SchemaObject) : SchemaObject :=
  if truthy_str (type d) then d else set_type (Some "string") d.

(** Lines 970 to 977: the enum constraint for the value [val]; [isBase] is
    the truthiness of [definition.discriminator]. *)
Definition constrainEnum (val : string) (isBase : bool) (d : SchemaObject) : SchemaObject :=
  match enum d with
  | Some baseClassDiscriminatorValue =>
      if isBase then
        if arr_includes val baseClassDiscriminatorValue then d
        else set_enum (Some (val :: baseClassDiscriminatorValue)) d
      else set_enum (Some [val]) d
  | None => set_enum (Some [val]) d
  end.

(** Lines 944 to 977: the property [d] marked as discriminator. *)
Definition pinProperty (defs : list (string * SchemaObject)) (val : string) (isBase : bool)
    (d : SchemaObject) : SchemaObject :=
  constrainEnum val isBase
    (defaultStringType (disableModelAsString (inlineReferencedEnum defs d))).

Definition pinDiscriminator (defs : list (string * SchemaObject))
    (name discriminator0 : string) (definition : SchemaObject) : SchemaObject :=
  match properties definition with
  | None => definition
  | Some props =>
      let definition := set_type (Some "object") definition in
      match obj_get discriminator0 props with
      | None => definition
      | Some d =>
          let definition := requireDiscriminator discriminator0 definition in
          let val := wireName name definition in
          let d := pinProperty defs val (truthy_str (discriminator definition)) d in
          set_properties (Some (obj_alter (fun _ => d) discriminator0 props)) definition
      end
  end.

(** [createPolymorphicTree(name, discriminator, subTreeMap)] *)
Fixpoint createPolymorphicTree (fuel : nat) (name discriminator0 : string)
    (st : TreeState) : outcome (PolymorphicTree * TreeState) :=
  match fuel with
  | O => OutOfFuel
  | S fuel' =>
      if blank name then
        Throw "name is a required property of type string and it cannot be an empty string."
      else if blank discriminator0 then
        Throw "discriminator is a required property of type string and it cannot be an empty string."
      else
        let rootNode := mkTree name [] in
        let defs := definitions (t_spec st) in
        let defs := obj_alter (pinDiscriminator defs name discriminator0) name defs in
        let st := mkTreeState (set_definitions defs (t_spec st)) (t_subTreeMap st)
                    (t_trace st ++ [Constructed name]) in
        '(rootNode, st) ←
          forEach
            (fun childName '(rootNode, st) =>
               '(childObj, st) ← createPolymorphicTree fuel' childName discriminator0 st;
               Ok (addChildByObject childObj rootNode, st))
            (findChildren defs name) (rootNode, st);
        Ok (rootNode,
            mkTreeState (t_spec st) (obj_set (t_name rootNode) rootNode (t_subTreeMap st))
              (t_trace st ++ [Memoized (t_name rootNode)]))
  end.

(** [buildOneOfReferences(rootNode)]. The source collects the reference
    objects in a [Set]; every [{ $ref: ... }] literal is a new object, so
    the set keeps them all, in insertion order. *)
Fixpoint buildOneOfReferences (rootNode : PolymorphicTree) : list SchemaObject :=
  match rootNode with
  | mkTree name children =>
      refSchema ("#/definitions/" +:+ name) :: flat_map buildOneOfReferences children
  end.

(** The mutation of a reference site, lines 867 to 870. *)
Definition rewriteSite (node : PolymorphicTree) (obj : SchemaObject) : SchemaObject :=
  let obj := if truthy_str (ref obj) then set_ref None obj else obj in
  set_oneOf (Some (buildOneOfReferences node)) obj.

Definition toBeUpdated (modelReference : string) (r : RefEntry) : bool :=
  String.eqb (uri r) modelReference
  && negb (includes "allOf" (key r))
  && negb (includes "oneOf" (key r)).

(** [updateReferencesWithOneOf(subTreeMap, references)] *)
Definition updateReferencesWithOneOf (subTreeMap : list (string * PolymorphicTree))
    (references : list RefEntry) (spec : SwaggerObject) : SwaggerObject :=
  fold_left
    (fun spec node =>
       match children node with
       | [] => spec
       | _ :: _ =>
           let modelReference := "#/definitions/" +:+ t_name node in
           let locationsToBeUpdated := List.filter (toBeUpdated modelReference) references in
           fold_left
             (fun spec r => updObject spec (location r) (rewriteSite node))
             locationsToBeUpdated spec
       end)
    (map snd subTreeMap) spec.

(** [resolveDiscriminator()] *)
Definition resolveDiscriminator (fuel : nat) (spec : SwaggerObject) : outcome TreeState :=
  let references := findRefs spec in
  forEach
    (fun modelEntry st =>
       let modelName := fst modelEntry in
       match discriminator (snd modelEntry) with
       | Some discriminator0 =>
           if String.eqb discriminator0 EmptyString then Ok st
           else
             st ← match obj_get modelName (t_subTreeMap st) with
                  | Some _ => Ok st
                  | None => r ← createPolymorphicTree fuel modelName discriminator0 st; Ok (snd r)
                  end;
             Ok (mkTreeState
                   (updateReferencesWithOneOf (t_subTreeMap st) references (t_spec st))
                   (t_subTreeMap st) (t_trace st))
       | None => Ok st
       end)
    (definitions spec) (mkTreeState spec [] []).

(** The passes of [resolve()] embedded here, in their order, with the
    options that enable them set: composition flattening, polymorphism
    expansion, composition cleanup. *)
Definition resolve (fuel : nat) (spec : SwaggerObject) : outcome SwaggerObject :=
  st ← resolveAllOfInDefinitions fuel (mkAllOfState spec ∅);
  st ← resolveDiscriminator fuel (a_spec st);
  Ok (deleteReferencesToAllOf (t_spec st)).

End Resolver.

(** ** The passes of [resolve()] over the definitions *)

Module Passes.
Import Resolver.

(** [!model.additionalProperties] *)
Definition additionalPropertiesFalsy (model : SchemaObject) : bool :=
  match additionalProperties model with
  | None | Some (inl false) => true
  | Some (inl true) | Some (inr _) => false
  end.

(** [!model.properties || (model.properties && keys(model.properties).length === 0)] *)
Definition noProperties (model : SchemaObject) : bool :=
  match properties model with
  | None => true
  | Some o => Nat.eqb (length (obj_keys o)) 0
  end.

(** The body of the loop of [setAdditionalPropertiesFalse()], lines 601 to 610. *)
Definition closeModel (model : SchemaObject) : SchemaObject :=
  if additionalPropertiesFalsy model && negb (noProperties model)
  then set_additionalProperties (Some (inl false)) model
  else model.

(** [setAdditionalPropertiesFalse()] *)
Definition setAdditionalPropertiesFalse (spec : SwaggerObject) : SwaggerObject :=
  set_definitions (map (fun kv => (fst kv, closeModel (snd kv))) (definitions spec)) spec.

(** The options that lines 197 to 208 of [resolve()] test, by their
    truthiness. *)
Record Options : Type := mkOptions {
  shouldResolveAllOf : bool;
  shouldResolveDiscriminator : bool;
  shouldSetAdditionalPropertiesFalse : bool;
}.

(** Lines 197 to 208 of [resolve()]: the four passes over the definitions,
    each under its option. *)
Definition resolvePasses (options : Options) (fuel : nat) (spec : SwaggerObject)
    : outcome SwaggerObject :=
  spec ← (if shouldResolveAllOf options
          then st ← resolveAllOfInDefinitions fuel (mkAllOfState spec ∅); Ok (a_spec st)
          else Ok spec);
  spec ← (if shouldResolveDiscriminator options
          then st ← resolveDiscriminator fuel spec; Ok (t_spec st)
          else Ok spec);
  let spec := if shouldResolveAllOf options then deleteReferencesToAllOf spec else spec in
  let spec :=
    if shouldSetAdditionalPropertiesFalse options then setAdditionalPropertiesFalse spec
    else spec in
  Ok spec.

End Passes.

(** ** The example generator: [SwaggerMocker] *)

Module Mocker.

(** Metadata of a cache item. [optionsFrom] is the schema that
    [buildItemOption] was applied to: the options are a function of it. *)
Record ItemMeta : Type := mkItemMeta {
  isMocked : bool;
  itemRequired : option (list string);
  optionsFrom : SchemaObject;
}.

(** Example values. Seeds are plain JSON values; generated fragments are
    cache items ([VLeaf], [VTrunk]). The source stores both in the same
    objects, so they share one type. *)
Inductive value : Type :=
| VUndefined
| VNull
| VBool (b : bool)
| VNum (n : Z)
| VStr (s : string)
| VArr (elements : list value)
| VObj (members : list (string * value))
| VLeaf (v : value) (meta : ItemMeta)
| VTrunk (child : value) (meta : ItemMeta).

(** Truthiness of a value, as [if (v)] and [v || w] test it. *)
Definition truthy (v : value) : bool :=
  match v with
  | VUndefined | VNull => false
  | VBool b => b
  | VNum n => negb (Z.eqb n 0)
  | VStr s => negb (String.eqb s EmptyString)
  | _ => true
  end.

(** [v || w] *)
Definition orElse (v w : value) : value := if truthy v then v else w.

(** Modelled from the spec: [createLeafItem], [createTrunkItem] and
    [buildItemOption] (lib/generator/exampleCache.ts) are not among the
    files embedded here. A cache item is a leaf (scalar and metadata) or a
    trunk (collection of children and metadata); it is not mocked until the
    generator marks it. *)
Definition createLeafItem (v : value) (optionSchema : SchemaObject) : value :=
  VLeaf v (mkItemMeta false None optionSchema).

Definition createTrunkItem (child : value) (optionSchema : SchemaObject) : value :=
  VTrunk child (mkItemMeta false None optionSchema).

(** [cacheItem.isMocked = true] and [cacheItem.required = requiredProperties] *)
Definition markMocked (requiredProperties : list string) (item : value) : value :=
  let mark m :=
    mkItemMeta true
      (match requiredProperties with [] => itemRequired m | _ :: _ => Some requiredProperties end)
      (optionsFrom m) in
  match item with
  | VLeaf v m => VLeaf v (mark m)
  | VTrunk c m => VTrunk c (mark m)
  | other => other
  end.

(** The collaborators and the read-only members of a [SwaggerMocker]
    instance. The value synthesizer and the key generator are random in
    the source: here they are functions of the number of calls made so far. *)
Record SwaggerMocker : Type := mkSwaggerMocker {
  resolveRefObj : SchemaObject -> option SchemaObject;  (* [this.jsonLoader.resolveRefObj] *)
  mock : nat -> SchemaObject -> string -> value -> value; (* [this.mocker.mock] *)
  exampleCache : gmap (option string) value;              (* [this.exampleCache], the payload cache *)
  isObject : SchemaObject -> bool;                        (* [util.isObject] *)
  randomKey : nat -> string;                              (* [util.randomKey] *)
  reBuildExample : value -> bool -> option SchemaObject -> value;
                                                          (* [reBuildExample], with the rule's [onSchema] *)
  onParameter : option (SchemaObject -> bool);            (* [getRuleValidator(rule).onParameter] *)
  infoVersion : value;                                    (* [this.spec.info.version] *)
}.

(** The mutable part: the mock cache, what was logged, and the number of
    calls made to the random collaborators. *)
Record GenState : Type := mkGenState {
  mockCache : gmap (option string) value;
  logged : list string;
  tick : nat;
}.

Definition logMessage (msg : string) (st : GenState) : GenState :=
  mkGenState (mockCache st) (logged st ++ [msg]) (tick st).

Definition nextTick (st : GenState) : GenState :=
  mkGenState (mockCache st) (logged st) (S (tick st)).

(** [ref.split("#")[1]], the key of both caches *)
Definition cacheKey (r : string) : option string :=
  nth_error (split_on "#"%char r) 1.

(** Modelled from the spec: [MockerCache.checkAndCache]
    (lib/generator/exampleCache.ts) is not among the files embedded here. The
    mock cache is write-once per key: the item is inserted under the
    reference of the schema unless the key is already there. *)
Definition checkAndCache (schema0 : SchemaObject) (item : value) (st : GenState) : GenState :=
  match ref schema0 with
  | Some r =>
      match mockCache st !! cacheKey r with
      | Some _ => st
      | None => mkGenState (<[cacheKey r := item]> (mockCache st)) (logged st) (tick st)
      end
  | None => st
  end.

Section Generator.
Variable self : SwaggerMocker.

(** [removeFromSet(schema, visited)] *)
Definition removeFromSet (schema0 : SchemaObject) (visited : gset string) : gset string :=
  match ref schema0 with
  | Some r => if bool_decide (r ∈ visited) then visited ∖ {[ r ]} else visited
  | None => visited
  end.

(** [getCache(schema)]: the payload cache first, then the mock cache. *)
Definition getCache (schema0 : SchemaObject) (st : GenState) : value :=
  match ref schema0 with
  | Some r =>
      match exampleCache self !! cacheKey r with
      | Some item => item
      | None =>
          match mockCache st !! cacheKey r with
          | Some item => item
          | None => VUndefined
          end
      end
  | None => VUndefined
  end.

(** [getDefSpec(schema, visited)] *)
Definition getDefSpec (schema0 : SchemaObject) (visited : gset string)
    : option SchemaObject * gset string :=
  (resolveRefObj self schema0,
   match ref schema0 with Some r => {[ r ]} ∪ visited | None => visited end).

Definition allOfOrEmpty (s : SchemaObject) : list SchemaObject :=
  match allOf s with Some l => l | None => [] end.

Definition undefinedSpec {A : Type} : outcome A :=
  Throw "TypeError: Cannot read properties of undefined".

(** [getProperties(definitionSpec, visited)] *)
Fixpoint getProperties (fuel : nat) (definitionSpec : SchemaObject) (visited : gset string)
    : outcome (list (string * SchemaObject) * gset string) :=
  match fuel with
  | O => OutOfFuel
  | S fuel' =>
      '(props, visited) ←
        forEach
          (fun item '(props, visited) =>
             let '(content, visited) := getDefSpec item visited in
             match content with
             | None => undefinedSpec
             | Some content =>
                 '(inherited, visited) ← getProperties fuel' content visited;
                 Ok (obj_spread props inherited, removeFromSet item visited)
             end)
          (allOfOrEmpty definitionSpec) ([], visited);
      Ok (obj_spread props (propertiesOrEmpty definitionSpec), visited)
  end.

(** [getDiscriminator(definitionSpec, visited)]; a falsy result is
    [None], callers only test it. [some] stops at the first item that
    gives a discriminator. *)
Fixpoint getDiscriminator (fuel : nat) (definitionSpec : SchemaObject) (visited : gset string)
    : outcome (option string * gset string) :=
  match fuel with
  | O => OutOfFuel
  | S fuel' =>
      if truthy_str (discriminator definitionSpec) then
        Ok (discriminator definitionSpec, visited)
      else
        (fix some (l : list SchemaObject) (visited : gset string) :=
           match l with
           | [] => Ok (None, visited)
           | item :: l' =>
               let '(content, visited) := getDefSpec item visited in
               match content with
               | None => undefinedSpec
               | Some content =>
                   '(found, visited) ← getDiscriminator fuel' content visited;
                   let visited := removeFromSet item visited in
                   match found with
                   | Some _ => Ok (found, visited)
                   | None => some l' visited
                   end
               end
           end) (allOfOrEmpty definitionSpec) visited
  end.

(** [getRequiredProperties(definitionSpec)] *)
Fixpoint getRequiredProperties (fuel : nat) (definitionSpec : SchemaObject)
    : outcome (list string) :=
  match fuel with
  | O => OutOfFuel
  | S fuel' =>
      forEach
        (fun item requiredProperties =>
           match fst (getDefSpec item ∅) with
           | None => undefinedSpec
           | Some content =>
               inherited ← getRequiredProperties fuel' content;
               Ok (requiredProperties ++ inherited)
           end)
        (allOfOrEmpty definitionSpec) (requiredOrEmpty definitionSpec)
  end.

(** [example[key]] and [example[key] = v] on the object under
    construction. A seed that is truthy and not a plain object is outside
    the embedding. *)
Definition readMember (example : value) (k : string) : outcome value :=
  match example with
  | VObj members => Ok (match obj_get k members with Some v => v | None => VUndefined end)
  | _ => Unmodelled
  end.

Definition writeMember (example : value) (k : string) (v : value) : outcome value :=
  match example with
  | VObj members => Ok (VObj (obj_set k v members))
  | _ => Unmodelled
  end.

(** [example[0]] of the seed of an array *)
Definition firstElement (example : value) : value :=
  match example with
  | VArr (x :: _) => x
  | VObj members => match obj_get "0" members with Some v => v | None => VUndefined end
  | VStr (String c _) => VStr (String c EmptyString)
  | _ => VUndefined
  end.

(** Lines 276 to 291: the cache item wrapped around the result. *)
Definition wrapItem (example : value) (definitionSpec : SchemaObject) : outcome value :=
  match example with
  | VArr _ | VObj _ => Ok (createTrunkItem example definitionSpec)
  | VNull => Throw "TypeError: Cannot convert undefined or null to object"
  | VLeaf _ _ | VTrunk _ _ => Unmodelled
  | _ => Ok (createLeafItem example definitionSpec)
  end.

(** How the branch of [mockCachedObj] for the kind of definition ends:
    with a [return], or with the example to wrap. *)
Inductive flow : Type :=
| Return (result : value)
| Continue (example : value).

(** The schema passed for [additionalProperties]: [true] is not an object. *)
Definition additionalSchema (definitionSpec : SchemaObject) : option (option SchemaObject) :=
  match additionalProperties definitionSpec with
  | Some (inl true) => Some None
  | Some (inr s) => Some (Some s)
  | _ => None
  end.

(** [mockCachedObj(objName, schema, example, visited, isRequest, discriminatorValue)]
    and [mockForDiscriminator(schema, example, discriminator, isRequest, visited)].
    A schema that is absent or not an object is [None]. The result is the
    returned value, the set [visited] as the call leaves it, and the state. *)
Fixpoint mockCachedObj (fuel : nat) (objName : string) (schema0 : option SchemaObject)
    (example : value) (visited : gset string) (isRequest : bool)
    (discriminatorValue : option string) (st : GenState)
    : outcome (value * gset string * GenState) :=
  match fuel with
  | O => OutOfFuel
  | S fuel' =>
      match schema0 with
      | None => Ok (VUndefined, visited, logMessage "invalid schema." st)
      | Some schema0 =>
          if match ref schema0 with Some r => bool_decide (r ∈ visited) | None => false end
          then Ok (VUndefined, visited, st)
          else if truthy (getCache schema0 st) then Ok (getCache schema0 st, visited, st)
          else
            let '(definitionSpec, visited) := getDefSpec schema0 visited in
            match definitionSpec with
            | None => undefinedSpec
            | Some definitionSpec =>
                '(branch, visited, st) ←
                  (if isObject self definitionSpec then
                     '(props, visited) ← getProperties fuel' definitionSpec visited;
                     let example := orElse example (VObj []) in
                     '(discriminator0, visited) ← getDiscriminator fuel' definitionSpec visited;
                     match discriminator0, truthy_str discriminatorValue,
                           arr_includes (default EmptyString discriminator0) (obj_keys props) with
                     | Some discriminator0, false, true =>
                         '(result, visited, st) ←
                           mockForDiscriminator fuel' definitionSpec example discriminator0
                             isRequest visited st;
                         Ok (Return (orElse result VUndefined), visited, st)
                     | _, _, _ =>
                         '(example, visited, st) ←
                           forEach
                             (fun kv '(example, visited, st) =>
                                let k := fst kv in
                                if String.eqb k objName && truthy_str discriminatorValue then
                                  example ← writeMember example k
                                    (createLeafItem (VStr (default EmptyString discriminatorValue)) (snd kv));
                                  Ok (example, visited, st)
                                else
                                  seed ← readMember example k;
                                  '(item, visited, st) ←
                                    mockCachedObj fuel' k (Some (snd kv)) seed visited isRequest
                                      discriminatorValue st;
                                  example ← writeMember example k item;
                                  Ok (example, visited, st))
                             props (example, visited, st);
                         match additionalSchema definitionSpec with
                         | Some additional =>
                             let newKey := randomKey self (tick st) in
                             let st := nextTick st in
                             if obj_has newKey props then
                               Ok (Continue example, visited,
                                   logMessage ("generate additionalProperties for " +:+ objName +:+ " fail") st)
                             else
                               '(item, visited, st) ←
                                 mockCachedObj fuel' newKey additional VUndefined visited isRequest
                                   discriminatorValue st;
                               example ← writeMember example newKey item;
                               Ok (Continue example, visited, st)
                         | None => Ok (Continue example, visited, st)
                         end
                     end
                   else if bool_decide (type definitionSpec = Some "array") then
                     let example := orElse example (VArr []) in
                     '(arrItem, visited, st) ←
                       mockCachedObj fuel' (objName +:+ "'s item") (items definitionSpec)
                         (firstElement example) visited isRequest None st;
                     Ok (Continue (mock self (tick st) definitionSpec objName arrItem),
                         visited, nextTick st)
                   else if truthy example then Ok (Continue example, visited, st)
                   else Ok (Continue (mock self (tick st) definitionSpec objName VUndefined),
                            visited, nextTick st));
                match branch with
                | Return result => Ok (result, visited, st)
                | Continue example =>
                    let visited := removeFromSet schema0 visited in
                    cacheItem ← wrapItem example definitionSpec;
                    requiredProperties ← getRequiredProperties fuel' definitionSpec;
                    let cacheItem := markMocked requiredProperties cacheItem in
                    Ok (cacheItem, visited, checkAndCache schema0 cacheItem st)
                end
            end
      end
  end
with mockForDiscriminator (fuel : nat) (schema0 : SchemaObject) (example : value)
    (discriminator0 : string) (isRequest : bool) (visited : gset string) (st : GenState)
    : outcome (value * gset string * GenState) :=
  match fuel with
  | O => OutOfFuel
  | S fuel' =>
      let '(disDetail, visited) := getDefSpec schema0 visited in
      match disDetail with
      | None => undefinedSpec
      | Some disDetail =>
          match discriminatorMap disDetail with
          | Some (((firstKey, _) :: _) as discriminatorMap0) =>
              '(props, _) ← getProperties fuel' disDetail ∅;
              let discriminatorValue :=
                match obj_get discriminator0 props ≫= enum with
                | Some enumValues => head enumValues
                | None => Some firstKey
                end in
              match obj_get (default "undefined" discriminatorValue) discriminatorMap0 with
              | None => Ok (example, removeFromSet schema0 visited, st)
              | Some discriminatorSpec =>
                  '(cacheItem, _, st) ←
                    mockCachedObj fuel' discriminator0 (Some discriminatorSpec) (VObj []) ∅
                      isRequest discriminatorValue st;
                  Ok (orElse cacheItem VUndefined, removeFromSet schema0 visited, st)
              end
          | _ => Ok (VUndefined, removeFromSet schema0 visited, st)
          end
      end
  end.

(** [mockObj(objName, schema, example, visited, isRequest)] *)
Definition mockObj (fuel : nat) (objName : string) (schema0 : option SchemaObject)
    (example : value) (visited : gset string) (isRequest : bool) (st : GenState)
    : outcome (value * GenState) :=
  '(cache, _, st) ← mockCachedObj fuel objName schema0 example visited isRequest None st;
  Ok (reBuildExample self cache isRequest schema0, st).

(** [getMockCachedObj(objName, schema, isRequest)] *)
Definition getMockCachedObj (fuel : nat) (objName : string) (schema0 : option SchemaObject)
    (isRequest : bool) (st : GenState) : outcome (value * GenState) :=
  '(cache, _, st) ← mockCachedObj fuel objName schema0 VUndefined ∅ isRequest None st;
  Ok (cache, st).

Definition allowed (validator : option (SchemaObject -> bool)) (s : SchemaObject) : bool :=
  match validator with Some v => v s | None => true end.

Definition memberOrUndefined (o : list (string * value)) (k : string) : value :=
  match obj_get k o with Some v => v | None => VUndefined end.

(** The body of the loop of [mockRequest], for the entry [element] of
    [paramSpec]. *)
Definition mockParameter (fuel : nat) (rp : string) (element : SchemaObject)
    (acc : list (string * value) * GenState) : outcome (list (string * value) * GenState) :=
  let '(paramExample, st) := acc in
  let '(paramEle, visited) := getDefSpec element ∅ in
  match paramEle with
  | None => undefinedSpec
  | Some paramEle =>
      let paramName := default "undefined" (name paramEle) in
      if bool_decide (name paramEle = Some "resourceGroupName") then
        Ok (obj_set "resourceGroupName" (VStr ("rg" +:+ rp)) paramExample, st)
      else if bool_decide (name paramEle = Some "api-version") then
        Ok (obj_set "api-version" (infoVersion self) paramExample, st)
      else
        match schema paramEle with
        | Some bodySchema =>
            if allowed (onParameter self) paramEle then
              '(v, st) ←
                mockObj fuel paramName (Some bodySchema)
                  (orElse (memberOrUndefined paramExample paramName) (VObj []))
                  visited true st;
              Ok (obj_set paramName v paramExample, st)
            else Ok (paramExample, st)
        | None =>
            if obj_has paramName paramExample then Ok (paramExample, st)
            else if allowed (onParameter self) paramEle then
              '(v, st) ←
                mockObj fuel paramName (Some element)
                  (memberOrUndefined paramExample paramName) ∅ true st;
              Ok (obj_set paramName v paramExample, st)
            else Ok (paramExample, st)
        end
  end.

(** [mockRequest(paramExample, paramSpec, rp)] *)
Definition mockRequest (fuel : nat) (paramExample : list (string * value))
    (paramSpec : list (string * SchemaObject)) (rp : string) (st : GenState)
    : outcome (list (string * value) * GenState) :=
  forEach (fun entry acc => mockParameter fuel rp (snd entry) acc) paramSpec (paramExample, st).

End Generator.

(** Lines 36 to 50 of [mockForExample]: the empty slots put into
    [example.responses] for the status codes of the operation. *)
Definition preHandledStatusCode : list string := ["200"; "201"; "202"; "204"].

Definition backfillResponses (responses : list (string * value))
    (specResponses : list (string * SchemaObject)) : list (string * value) :=
  match obj_keys responses with
  | [] =>
      fold_left
        (fun responses statusCode =>
           if negb (String.eqb statusCode "default")
           then obj_set statusCode (VObj []) responses else responses)
        (obj_keys specResponses) responses
  | _ :: _ =>
      fold_left
        (fun responses statusCode =>
           if negb (String.eqb statusCode "default")
              && negb (arr_includes statusCode preHandledStatusCode)
           then obj_set statusCode (VObj []) responses else responses)
        (obj_keys specResponses) responses
  end.

End Mocker.

(** ** The responses of an example: [mockForExample] and [mockResponse] *)

Module Responses.
Import Mocker.

(** A key that is an array index, and the index: the language lists such
    keys of an object first, in ascending order. *)
Definition array_index (k : string) : option N :=
  match parse_index k with
  | Some n => if (N.of_nat n <? 4294967295)%N then Some (N.of_nat n) else None
  | None => None
  end.

Fixpoint insert_index (k : string) (i : N) (l : list (string * N)) : list (string * N) :=
  match l with
  | [] => [(k, i)]
  | (k', i') :: l' =>
      if (i <? i')%N then (k, i) :: (k', i') :: l' else (k', i') :: insert_index k i l'
  end.

(** [Object.keys(o)] in the order of the language: the array indices in
    ascending order, then the other keys in insertion order. *)
Definition own_keys {A : Type} (o : list (string * A)) : list string :=
  map fst
    (fold_right
       (fun k acc => match array_index k with Some i => insert_index k i acc | None => acc end)
       [] (obj_keys o))
  ++ List.filter (fun k => negb (present (array_index k))) (obj_keys o).

(** [v.k] for a member name [k] that no prototype defines ([hearders],
    [body]): reading it from [undefined] or [null] throws; a primitive, a
    string or an array has no such member. *)
Definition slotMember (v : value) (k : string) : outcome value :=
  match v with
  | VObj members => Ok (memberOrUndefined members k)
  | VUndefined =>
      Throw ("TypeError: Cannot read properties of undefined (reading '" +:+ k +:+ "')")
  | VNull => Throw ("TypeError: Cannot read properties of null (reading '" +:+ k +:+ "')")
  | VBool _ | VNum _ | VStr _ | VArr _ => Ok VUndefined
  | VLeaf _ _ | VTrunk _ _ => Unmodelled
  end.

(** [specItem]: the members of [specItem.content] that the generator reads. *)
Record SpecItem : Type := mkSpecItem {
  content_parameters : list (string * SchemaObject);  (* [specItem.content.parameters] *)
  content_responses : list (string * SchemaObject);   (* [specItem.content.responses] *)
}.

(** The collaborators of the response part: the validators of the rule in
    force and the lookup of the polling attribute. The validator of a
    response body is applied to [{ schema: responseSpec }], where
    [responseSpec] is undefined for a status code that the operation does
    not declare. *)
Record ResponseRules : Type := mkResponseRules {
  onResponseBody : option (option SchemaObject -> bool);  (* [getRuleValidator(rule).onResponseBody] *)
  onResponseHeader : option (SpecItem -> bool);           (* [getRuleValidator(rule).onResponseHeader] *)
  getPollingAttr : SpecItem -> option string;             (* [util.getPollingAttr] *)
}.

(** [example]: the members that [mockForExample] reads and writes. *)
Record ExampleObject : Type := mkExample {
  ex_parameters : list (string * value);  (* [example.parameters] *)
  ex_responses : list (string * value);   (* [example.responses] *)
}.

Section ResponseGenerator.
Variable self : SwaggerMocker.
Variable rules : ResponseRules.

(** [mockHeaders(statusCode, specItem)] *)
Definition mockHeaders (statusCode : string) (specItem : SpecItem) : value :=
  if negb (String.eqb statusCode "201") && negb (String.eqb statusCode "202") then VUndefined
  else if match onResponseHeader rules with
          | Some validator => negb (validator specItem)
          | None => false
          end then VUndefined
  else
    let headerAttr := getPollingAttr rules specItem in
    if negb (truthy_str headerAttr) then VUndefined
    else VObj [(default EmptyString headerAttr, VStr "https://foo.com/operationstatus")].

(** [mockEachResponse(statusCode, responseExample, specItem)] *)
Definition mockEachResponse (fuel : nat) (statusCode : string) (responseExample : value)
    (specItem : SpecItem) (st : GenState) : outcome (value * GenState) :=
  let responseSpec := obj_get statusCode (content_responses specItem) in
  if match onResponseBody rules with
     | Some validator => negb (validator responseSpec)
     | None => false
     end
  then Ok (VUndefined, st)
  else
    hearders ← slotMember responseExample "hearders";
    let headers := orElse hearders (mockHeaders statusCode specItem) in
    match responseSpec with
    | None => Throw "TypeError: Cannot use 'in' operator to search for 'schema' in undefined"
    | Some responseSpec =>
        match schema responseSpec with
        | Some bodySchema =>
            seed ← slotMember responseExample "body";
            '(body, st) ←
              mockObj self fuel "response body" (Some bodySchema) (orElse seed (VObj [])) ∅
                false st;
            Ok (VObj [("headers", headers); ("body", orElse body (VObj []))], st)
        | None => Ok (VObj [("headers", headers); ("body", VUndefined)], st)
        end
    end.

(** [mockResponse(responseExample, specItem)] *)
Definition mockResponse (fuel : nat) (responseExample : list (string * value))
    (specItem : SpecItem) (st : GenState) : outcome (list (string * value) * GenState) :=
  forEach
    (fun statusCode '(responseExample, st) =>
       '(mockedResp, st) ←
         mockEachResponse fuel statusCode (memberOrUndefined responseExample statusCode)
           specItem st;
       Ok (obj_set statusCode mockedResp responseExample, st))
    (own_keys responseExample) (responseExample, st).

(** [mockForExample(example, specItem, spec, rp)]. The assignment
    [this.spec = spec] is what makes [spec.info.version] the member
    [infoVersion] of [self]. *)
Definition mockForExample (fuel : nat) (example : ExampleObject) (specItem : SpecItem)
    (rp : string) (st : GenState) : outcome (ExampleObject * GenState) :=
  let responses := backfillResponses (ex_responses example) (content_responses specItem) in
  '(parameters, st) ←
    mockRequest self fuel (ex_parameters example) (content_parameters specItem) rp st;
  '(responses, st) ← mockResponse fuel responses specItem st;
  Ok (mkExample parameters responses, st).

End ResponseGenerator.

End Responses.

(** ** Concrete documents and collaborators *)

Module Examples.
Import Resolver Mocker.

Definition stringSchema : SchemaObject := set_type (Some "string") emptySchema.

Definition objectSchema (props : list (string * SchemaObject)) : SchemaObject :=
  set_type (Some "object") (set_properties (Some props) emptySchema).

Definition composing (parent : string) (s : SchemaObject) : SchemaObject :=
  set_allOf (Some [refSchema ("#/definitions/" +:+ parent)]) s.

(** Composition merge: [P{properties:{id}, required:[id]}] and the child
    [C], which composes [P] and adds [properties:{name}, required:[name]]. *)
Definition parentP : SchemaObject :=
  set_required (Some ["id"]) (set_properties (Some [("id", stringSchema)]) emptySchema).

Definition childC : SchemaObject :=
  composing "P"
    (set_required (Some ["name"]) (set_properties (Some [("name", stringSchema)]) emptySchema)).

Definition specPC : SwaggerObject := mkSwagger [("P", parentP); ("C", childC)] [] [].

(** Discriminator expansion: [Animal{discriminator:"kind"}] with the
    subtypes [Cat] and [Dog], flattened; [Dog] declares its own enum on
    [kind]. [Owner] and [SmallOffice] each have a property that refers to
    [Animal]. *)
Definition animal : SchemaObject :=
  set_discriminator (Some "kind") (set_properties (Some [("kind", stringSchema)]) emptySchema).

Definition cat : SchemaObject :=
  composing "Animal"
    (set_properties (Some [("meow", stringSchema); ("kind", stringSchema)]) emptySchema).

Definition dog : SchemaObject :=
  composing "Animal"
    (set_properties (Some [("kind", set_enum (Some ["canine"]) stringSchema)]) emptySchema).

Definition petHolder : SchemaObject :=
  set_properties (Some [("pet", refSchema "#/definitions/Animal")]) emptySchema.

Definition specAnimals : SwaggerObject :=
  mkSwagger
    [("Animal", animal); ("Cat", cat); ("Dog", dog);
     ("Owner", petHolder); ("SmallOffice", petHolder)]
    [] [].

(** The tree built for [Animal], and the definitions as the construction
    leaves them. *)
Definition animalsBuilt : outcome (PolymorphicTree * TreeState) :=
  createPolymorphicTree 2 "Animal" "kind" (mkTreeState specAnimals [] []).

Definition animalsTree : PolymorphicTree :=
  match animalsBuilt with Ok (t, _) => t | _ => mkTree "Animal" [] end.

Definition animalsState : TreeState :=
  match animalsBuilt with Ok (_, st) => st | _ => mkTreeState specAnimals [] [] end.

Definition definitionAfter (name : string) : SchemaObject :=
  default emptySchema (obj_get name (definitions (t_spec animalsState))).

Definition kindAfter (name : string) : SchemaObject :=
  default emptySchema (properties (definitionAfter name) ≫= obj_get "kind").

(** A shared descendant: [Cat] composes both [Pet] and [Mammal], which
    compose [Animal]. *)
Definition specDiamond : SwaggerObject :=
  mkSwagger
    [("Animal", animal);
     ("Pet", composing "Animal" (objectSchema [("kind", stringSchema)]));
     ("Mammal", composing "Animal" (objectSchema [("kind", stringSchema)]));
     ("Cat",
      set_allOf (Some [refSchema "#/definitions/Pet"; refSchema "#/definitions/Mammal"])
        (objectSchema [("kind", stringSchema)]))]
    [] [].

(** A composition cycle: [A] composes [B] and [B] composes [A]. *)
Definition specCycle : SwaggerObject :=
  mkSwagger
    [("A", composing "B" animal); ("B", composing "A" (objectSchema [("kind", stringSchema)]))]
    [] [].

Definition rankDiamond (n : string) : nat :=
  if String.eqb n "Animal" then 2
  else if String.eqb n "Pet" then 1
  else if String.eqb n "Mammal" then 1
  else 0.

(** Modelled from the spec: the Document Loader, [resolvePointer(ref) ->
    Definition | NotFound], over a table of definitions keyed by
    reference; a schema without [$ref] resolves to itself. *)
Definition loaderOf (defs : list (string * SchemaObject)) (s : SchemaObject)
    : option SchemaObject :=
  match ref s with
  | Some r => obj_get r defs
  | None => Some s
  end.

(** A value synthesizer: a one-element array of the item template for an
    array, a fixed string otherwise. *)
Definition simpleMock (n : nat) (definitionSpec : SchemaObject) (objName : string)
    (arrItem : value) : value :=
  if bool_decide (type definitionSpec = Some "array") then VArr [arrItem] else VStr "mocked".

Definition simpleIsObject (definitionSpec : SchemaObject) : bool :=
  bool_decide (type definitionSpec = Some "object") || present (properties definitionSpec).

Definition mockerOf (defs : list (string * SchemaObject)) : SwaggerMocker :=
  mkSwaggerMocker (loaderOf defs) simpleMock ∅ simpleIsObject (fun _ => "key")
    (fun cache _ _ => cache) None (VStr "2020-01-01").

Definition freshState : GenState := mkGenState ∅ [] 0.

(** Mock cycle: [Node{properties:{next: ref Node}}]. *)
Definition nodeDef : SchemaObject := objectSchema [("next", refSchema "#/definitions/Node")].

Definition nodeDefs : list (string * SchemaObject) :=
  [("#/definitions/Node", nodeDef)].

(** Two sibling properties of [Owner] refer to the polymorphic base
    [Animal], whose discriminator map names the subtype [Cat]. *)
Definition animalDef : SchemaObject :=
  set_discriminatorMap (Some [("Cat", refSchema "#/definitions/Cat")])
    (set_discriminator (Some "kind") (objectSchema [("kind", stringSchema)])).

Definition catDef : SchemaObject :=
  objectSchema [("kind", stringSchema); ("name", stringSchema)].

(** The item generated for [Cat] when the discriminator value is pinned. *)
Definition catItem : value :=
  VTrunk
    (VObj [("kind", VLeaf (VStr "Cat") (mkItemMeta false None stringSchema));
           ("name", VLeaf (VStr "mocked") (mkItemMeta true None stringSchema))])
    (mkItemMeta true None catDef).

Definition petDefs : list (string * SchemaObject) :=
  [("#/definitions/Animal", animalDef);
   ("#/definitions/Cat", catDef);
   ("#/definitions/Owner",
    objectSchema
      [("pet1", refSchema "#/definitions/Animal"); ("pet2", refSchema "#/definitions/Animal")])].

(** A supplied example that already has a slot for the status 404, which
    the operation declares. *)
Definition supplied404 : list (string * value) :=
  [("404", VObj [("body", VStr "not found")])].

Definition declared404 : list (string * SchemaObject) :=
  [("404", emptySchema); ("default", emptySchema)].

(** Parameters of an operation: the resource group, a plain query
    parameter, and a body parameter. *)
Definition resourceGroupParameter : SchemaObject :=
  set_name (Some "resourceGroupName") stringSchema.

Definition topParameter : SchemaObject :=
  set_name (Some "$top") (set_type (Some "integer") emptySchema).

Definition memberOf (k : string) (item : value) : option value :=
  match item with
  | VTrunk (VObj members) _ => obj_get k members
  | _ => None
  end.

(** *** Passes, requests and responses *)

Import Passes Responses.

(** The parameter that carries the version of the API. *)
Definition apiVersionParameter : SchemaObject :=
  set_name (Some "api-version") stringSchema.

(** A response whose body is a string. *)
Definition okResponse : SchemaObject := set_schema (Some stringSchema) emptySchema.

(** An operation with one parameter, which declares the responses 200
    (with a body) and 404, and a default response. *)
Definition getItem : SpecItem :=
  mkSpecItem
    [("0", apiVersionParameter)]
    [("200", okResponse); ("404", emptySchema); ("default", emptySchema)].

(** The document of the animals after the four passes. *)
Definition animalsResolved : SwaggerObject :=
  match resolvePasses (mkOptions true true true) 3 specAnimals with
  | Ok s => s
  | _ => specAnimals
  end.

(** A definition that composes [Cat] and declares [kind] itself, and its
    merged property map, computed with a reference already marked. *)
Definition tabby : SchemaObject :=
  set_allOf (Some [refSchema "#/definitions/Cat"])
    (objectSchema [("kind", set_enum (Some ["tabby"]) stringSchema)]).

Definition tabbyProperties : list (string * SchemaObject) * gset string :=
  match getProperties (mockerOf petDefs) 2 tabby {[ "#/definitions/Owner" ]} with
  | Ok r => r
  | _ => ([], ∅)
  end.

(** The item generated for [Cat] from a seed with one member that the
    definition does not declare. *)
Definition catGenerated : value * gset string * GenState :=
  match mockCachedObj (mockerOf petDefs) 3 "body" (Some (refSchema "#/definitions/Cat"))
          (VObj [("extra", VNum 1)]) ∅ false None freshState with
  | Ok r => r
  | _ => (VUndefined, ∅, freshState)
  end.

(** A polymorphic base whose enum names a subtype that the discriminator
    map does not have. *)
Definition lionDef : SchemaObject :=
  set_discriminatorMap (Some [("Cat", refSchema "#/definitions/Cat")])
    (set_discriminator (Some "kind")
       (objectSchema [("kind", set_enum (Some ["Lion"]) stringSchema)])).

(** No rule in force, and no polling attribute on any operation. *)
Definition noRules : ResponseRules := mkResponseRules None None (fun _ => None).

(** The response generated for the status 200 of [getItem], from an empty
    slot. *)
Definition okGenerated : value * GenState :=
  match mockEachResponse (mockerOf []) noRules 3 "200" (VObj []) getItem freshState with
  | Ok r => r
  | _ => (VUndefined, freshState)
  end.

(** The responses generated for [getItem] from two empty slots. *)
Definition slotsGenerated : list (string * value) * GenState :=
  match mockResponse (mockerOf []) noRules 3 [("404", VObj []); ("200", VObj [])] getItem
          freshState with
  | Ok r => r
  | _ => ([], freshState)
  end.

(** The example produced for [getItem] from an example without
    parameters and responses. *)
Definition exampleGenerated : ExampleObject * GenState :=
  match mockForExample (mockerOf []) noRules 3 (mkExample [] []) getItem "foo" freshState with
  | Ok r => r
  | _ => (mkExample [] [], freshState)
  end.

End Examples.

(** ** Vocabulary of the statements *)

Module Vocabulary.
Import Resolver Mocker.

(** A name that is a JSON-pointer token as it stands: no [/] and no [~]. *)
Fixpoint plainToken (s : string) : bool :=
  match s with
  | EmptyString => true
  | String c s' => negb (Ascii.eqb c "/"%char) && negb (Ascii.eqb c "~"%char) && plainToken s'
  end.

(** The slots that [backfillResponses] assigns. *)
Definition assigned (responses : list (string * value))
    (specResponses : list (string * SchemaObject)) (code : string) : bool :=
  obj_has code specResponses
  && negb (String.eqb code "default")
  && match responses with
     | [] => true
     | _ :: _ => negb (arr_includes code preHandledStatusCode)
     end.

(** The item generated for a definition [defA] whose only property [p]
    refers back to the definition. *)
Definition selfReferentialItem (p : string) (defA : SchemaObject) : value :=
  VTrunk (VObj [(p, VUndefined)])
    (mkItemMeta true
       (match requiredOrEmpty defA with [] => None | _ :: _ => Some (requiredOrEmpty defA) end)
       defA).

(** The discriminator value chosen by [mockForDiscriminator]: the first
    value of the enum declared on the discriminator property, else the
    first key of the discriminator map. *)
Definition chosenValue (discriminator0 : string) (props : list (string * SchemaObject))
    (firstKey : string) : option string :=
  match obj_get discriminator0 props ≫= enum with
  | Some enumValues => head enumValues
  | None => Some firstKey
  end.

(** The names of the nodes of a tree. *)
Fixpoint treeNames (t : PolymorphicTree) : list string :=
  match t with
  | mkTree name children => name :: flat_map treeNames children
  end.

(** The property that a definition declares under the name of the
    discriminator. *)
Definition declared (discriminator0 : string) (definition : SchemaObject)
    : option SchemaObject :=
  properties definition ≫= obj_get discriminator0.

(** The enum of the property that the definition [name] declares under
    the name of the discriminator. *)
Definition enumOf (discriminator0 name : string) (spec : SwaggerObject)
    : option (list string) :=
  (obj_get name (definitions spec) ≫= declared discriminator0) ≫= enum.

(** What a definition composes: its [allOf] member. *)
Definition compositionLinks (defs : list (string * SchemaObject))
    : list (string * option (list SchemaObject)) :=
  map (fun kv => (fst kv, allOf (snd kv))) defs.

(** How many times the tree of [name] was constructed. *)
Definition constructions (name : string) (trace : list event) : nat :=
  length
    (List.filter
       (fun e => match e with Constructed n => String.eqb n name | Memoized _ => false end)
       trace).

(** The state in which [resolveDiscriminator] starts to build trees. *)
Definition initialTreeState (spec : SwaggerObject) : TreeState :=
  mkTreeState spec [] [].

(** The reference site and what it holds: [$ref] and [oneOf]. *)
Definition siteOf (loc : list string) (spec : SwaggerObject)
    : option (option string * option (list SchemaObject)) :=
  (fun obj => (ref obj, oneOf obj)) <$> getObject spec loc.

Definition defsOf (st : TreeState) : list (string * SchemaObject) :=
  definitions (t_spec st).

(** The enum that the property [d] brings to the constraint: its own, or
    the enum of the definition it refers to when it has none. *)
Definition sourceEnum (defs : list (string * SchemaObject)) (d : SchemaObject)
    : option (list string) :=
  enum (inlineReferencedEnum defs d).

(** The wire name merged into an enum: put in front unless already there. *)
Definition mergedEnum (val : string) (source : option (list string)) : list string :=
  match source with
  | Some e => if arr_includes val e then e else val :: e
  | None => [val]
  end.

(** The enum constraint that the pass leaves on the discriminator property
    [d] of the definition [def] named [n]. *)
Definition expectedEnum (defs : list (string * SchemaObject)) (n : string)
    (def d : SchemaObject) : list string :=
  if truthy_str (discriminator def)
  then mergedEnum (wireName n def) (sourceEnum defs d)
  else [wireName n def].

(** The definitions [defs] have the enums that the definitions [defs0] have. *)
Definition SameEnums (defs0 defs : list (string * SchemaObject)) : Prop :=
  forall k, obj_get k defs ≫= enum = obj_get k defs0 ≫= enum.

(** The definition [n] of [defs] is the definition [n] of [defs0] with the
    enum constraint on its discriminator property. *)
Definition Done (disc : string) (defs0 defs : list (string * SchemaObject)) (n : string)
    : Prop :=
  forall def, obj_get n defs = Some def ->
    exists def0, obj_get n defs0 = Some def0
      /\ discriminator def = discriminator def0
      /\ x_ms_discriminator_value def = x_ms_discriminator_value def0
      /\ forall d, declared disc def = Some d ->
           exists d0, declared disc def0 = Some d0
                      /\ enum d = Some (expectedEnum defs0 n def0 d0).

(** Every definition of [defs] is as in [defs0], or is done. *)
Definition Progress (disc : string) (defs0 defs : list (string * SchemaObject)) : Prop :=
  SameEnums defs0 defs
  /\ forall n, obj_get n defs = obj_get n defs0 \/ Done disc defs0 defs n.

(** What a call of [createPolymorphicTree] with the given fuel does to the
    definitions, when it returns. *)
Definition PinsExactly (disc : string) (defs0 : list (string * SchemaObject)) (fuel : nat)
    : Prop :=
  forall name st t st',
    createPolymorphicTree fuel name disc st = Ok (t, st') ->
    Progress disc defs0 (defsOf st) ->
    Progress disc defs0 (defsOf st')
    /\ (forall m, Done disc defs0 (defsOf st) m -> Done disc defs0 (defsOf st') m)
    /\ (forall m, In m (treeNames t) -> Done disc defs0 (defsOf st') m).

(** A call of [createPolymorphicTree] with the given fuel returns, for
    every name of rank below the fuel: the tree of the name, stored in the
    map under the name by the last step of the call, after the trees of
    the children were constructed. *)
Definition Returns (disc : string) (defs0 : list (string * SchemaObject))
    (rank : string -> nat) (fuel : nat) : Prop :=
  forall name st,
    compositionLinks (defsOf st) = compositionLinks defs0 ->
    blank name = false -> rank name < fuel ->
    (forall c, In c (findChildren defs0 name) -> rank c < rank name) ->
    exists t st' mid,
      createPolymorphicTree fuel name disc st = Ok (t, st')
      /\ compositionLinks (defsOf st') = compositionLinks defs0
      /\ t_name t = name
      /\ obj_get name (t_subTreeMap st') = Some t
      /\ t_trace st' = t_trace st ++ Constructed name :: mid ++ [Memoized name]
      /\ forall c, In c (findChildren defs0 name) -> In (Constructed c) mid.

(** *** Passes, seeds and items *)

(** The names under which the document holds its definitions, its
    parameters and its paths, in their order. *)
Definition documentNames (spec : SwaggerObject) : list string * list string * list string :=
  (obj_keys (definitions spec), obj_keys (parameters spec), obj_keys (paths spec)).

(** A definition without composition list and without discriminator. *)
Definition plainDefinition (def : SchemaObject) : bool :=
  negb (present (allOf def)) && negb (truthy_str (discriminator def)).

(** The definition [n] of [defs], if it declares properties, is an object
    type, and requires the discriminator when it declares it. *)
Definition Shaped (disc : string) (defs : list (string * SchemaObject)) (n : string) : Prop :=
  forall def props,
    obj_get n defs = Some def -> properties def = Some props ->
    type def = Some "object"
    /\ (obj_has disc props = true -> In disc (requiredOrEmpty def)).

(** A seed that is a plain value: a boolean, a number, a string, an array
    or an object. *)
Definition plainSeed (v : value) : bool :=
  match v with
  | VBool _ | VNum _ | VStr _ | VArr _ | VObj _ => true
  | _ => false
  end.

(** The cache item made of a plain value for a definition without
    composition list: a trunk for an array or an object, a leaf for a
    scalar, marked as mocked, with the names that the definition requires. *)
Definition seedItem (v : value) (definitionSpec : SchemaObject) : value :=
  let meta :=
    mkItemMeta true
      (match requiredOrEmpty definitionSpec with
       | [] => None
       | _ :: _ => Some (requiredOrEmpty definitionSpec)
       end)
      definitionSpec in
  match v with
  | VArr _ | VObj _ => VTrunk v meta
  | _ => VLeaf v meta
  end.

End Vocabulary.

(** ** Locations as lists of links

    A second reading of the tokens of a pointer, used to reason about
    [getObject] and [updObject]: the member of the document under which the
    location starts, and the links that lead from there to the object. *)

Module Links.

Inductive link : Type :=
| LItems
| LSchema
| LAdditional
| LProperty (k : string)
| LMap (k : string)
| LAllOf (i : nat)
| LOneOf (i : nat).

Inductive root : Type :=
| RDefinition (k : string)
| RParameter (k : string)
| ROpParameter (path verb : string) (i : nat)
| ROpResponse (path verb code : string).

Definition get_link (l : link) (s : SchemaObject) : option SchemaObject :=
  match l with
  | LItems => items s
  | LSchema => schema s
  | LAdditional =>
      match additionalProperties s with
      | Some (inr c) => Some c
      | _ => None
      end
  | LProperty k => o ← properties s; obj_get k o
  | LMap k => o ← discriminatorMap s; obj_get k o
  | LAllOf i => l ← allOf s; nth_error l i
  | LOneOf i => l ← oneOf s; nth_error l i
  end.

Definition upd_link (l : link) (g : SchemaObject -> SchemaObject) (s : SchemaObject)
    : SchemaObject :=
  match l with
  | LItems => set_items (g <$> items s) s
  | LSchema => set_schema (g <$> schema s) s
  | LAdditional =>
      match additionalProperties s with
      | Some (inr c) => set_additionalProperties (Some (inr (g c))) s
      | _ => s
      end
  | LProperty k => set_properties (obj_alter g k <$> properties s) s
  | LMap k => set_discriminatorMap (obj_alter g k <$> discriminatorMap s) s
  | LAllOf i => set_allOf (arr_alter g i <$> allOf s) s
  | LOneOf i => set_oneOf (arr_alter g i <$> oneOf s) s
  end.

Fixpoint get_links (ls : list link) (s : SchemaObject) : option SchemaObject :=
  match ls with
  | [] => Some s
  | l :: ls' => c ← get_link l s; get_links ls' c
  end.

Fixpoint upd_links (ls : list link) (f : SchemaObject -> SchemaObject) (s : SchemaObject)
    : SchemaObject :=
  match ls with
  | [] => f s
  | l :: ls' => upd_link l (upd_links ls' f) s
  end.

(** The links that the tokens below a schema object spell; [None] for
    tokens that lead to no schema object. *)
Fixpoint links (p : list string) : option (list link) :=
  match p with
  | [] => Some []
  | t :: p' =>
      if String.eqb t "items" then cons LItems <$> links p'
      else if String.eqb t "schema" then cons LSchema <$> links p'
      else if String.eqb t "additionalProperties" then cons LAdditional <$> links p'
      else
        match p' with
        | [] => None
        | k :: p'' =>
            if String.eqb t "properties" then cons (LProperty k) <$> links p''
            else if String.eqb t "discriminatorMap" then cons (LMap k) <$> links p''
            else if String.eqb t "allOf" then
              i ← parse_index k; cons (LAllOf i) <$> links p''
            else if String.eqb t "oneOf" then
              i ← parse_index k; cons (LOneOf i) <$> links p''
            else None
        end
  end.

Definition get_root (r : root) (spec : SwaggerObject) : option SchemaObject :=
  match r with
  | RDefinition k => obj_get k (definitions spec)
  | RParameter k => obj_get k (parameters spec)
  | ROpParameter path verb i =>
      ops ← obj_get path (paths spec); op ← obj_get verb ops; nth_error (op_parameters op) i
  | ROpResponse path verb code =>
      ops ← obj_get path (paths spec); op ← obj_get verb ops; obj_get code (op_responses op)
  end.

Definition upd_root (r : root) (g : SchemaObject -> SchemaObject) (spec : SwaggerObject)
    : SwaggerObject :=
  match r with
  | RDefinition k => mkSwagger (obj_alter g k (definitions spec)) (parameters spec) (paths spec)
  | RParameter k => mkSwagger (definitions spec) (obj_alter g k (parameters spec)) (paths spec)
  | ROpParameter path verb i =>
      mkSwagger (definitions spec) (parameters spec)
        (obj_alter
           (obj_alter
              (fun op => mkOperation (arr_alter g i (op_parameters op)) (op_responses op))
              verb)
           path (paths spec))
  | ROpResponse path verb code =>
      mkSwagger (definitions spec) (parameters spec)
        (obj_alter
           (obj_alter
              (fun op => mkOperation (op_parameters op) (obj_alter g code (op_responses op)))
              verb)
           path (paths spec))
  end.

(** The member of the document that the first tokens of a location name,
    and the tokens that remain. *)
Definition roots (p : list string) : option (root * list string) :=
  match p with
  | r :: k :: p' =>
      if String.eqb r "definitions" then Some (RDefinition k, p')
      else if String.eqb r "parameters" then Some (RParameter k, p')
      else if String.eqb r "paths" then
        match p' with
        | verb :: sect :: i :: p'' =>
            if String.eqb sect "parameters" then
              n ← parse_index i; Some (ROpParameter k verb n, p'')
            else if String.eqb sect "responses" then Some (ROpResponse k verb i, p'')
            else None
        | _ => None
        end
      else None
  | _ => None
  end.

(** A location, read: the root and the links. *)
Definition site_of_location (p : list string) : option (root * list link) :=
  match roots p with
  | Some (r, rest) => pair r <$> links rest
  | None => None
  end.

Definition get_site (x : root * list link) (spec : SwaggerObject) : option SchemaObject :=
  d ← get_root (fst x) spec; get_links (snd x) d.

Definition upd_site (x : root * list link) (f : SchemaObject -> SchemaObject)
    (spec : SwaggerObject) : SwaggerObject :=
  upd_root (fst x) (upd_links (snd x) f) spec.

(** The tokens that spell a link, a list of links, a root. *)
Definition unlink (l : link) : list string :=
  match l with
  | LItems => ["items"]
  | LSchema => ["schema"]
  | LAdditional => ["additionalProperties"]
  | LProperty k => ["properties"; k]
  | LMap k => ["discriminatorMap"; k]
  | LAllOf i => ["allOf"; string_of_nat i]
  | LOneOf i => ["oneOf"; string_of_nat i]
  end.

Definition unlinks (ls : list link) : list string := flat_map unlink ls.

Definition unroot (r : root) : list string :=
  match r with
  | RDefinition k => ["definitions"; k]
  | RParameter k => ["parameters"; k]
  | ROpParameter path verb i => ["paths"; path; verb; "parameters"; string_of_nat i]
  | ROpResponse path verb code => ["paths"; path; verb; "responses"; code]
  end.

(** The update that the links of a location spell, or none. *)
Definition upd_or_keep (o : option (list link)) (f : SchemaObject -> SchemaObject)
    (s : SchemaObject) : SchemaObject :=
  match o with Some ls => upd_links ls f s | None => s end.

#[global] Instance link_eq_dec : EqDecision link.
Proof. solve_decision. Defined.

#[global] Instance root_eq_dec : EqDecision root.
Proof. solve_decision. Defined.

Definition is_oneOf (l : link) : bool :=
  match l with LOneOf _ => true | _ => false end.

(** A function that changes nothing of an object but [$ref] and [oneOf]. *)
Definition keeps_links (f : SchemaObject -> SchemaObject) : Prop :=
  forall l s, is_oneOf l = false -> get_link l (f s) = get_link l s.

(** What [rewriteSite] may change of an object: [$ref] and [oneOf]. *)
Definition siteFields (obj : SchemaObject) : option string * option (list SchemaObject) :=
  (ref obj, oneOf obj).

End Links.

(** * Properties *)

(** ** Facts about the object helpers *)

Module JsFacts.

Lemma obj_get_set {A : Type} (k k' : string) (v : A) (o : list (string * A)) :
  obj_get k (obj_set k' v o) = if String.eqb k k' then Some v else obj_get k o.
Proof.
  induction o as [|[k0 v0] o IH]; simpl.
  - reflexivity.
  - destruct (String.eqb_spec k' k0) as [->|Hne]; simpl.
    + destruct (String.eqb k k0); reflexivity.
    + rewrite IH. destruct (String.eqb_spec k k0) as [->|Hne'].
      * destruct (String.eqb_spec k0 k'); [congruence | reflexivity].
      * reflexivity.
Qed.

Lemma obj_get_alter {A : Type} (f : A -> A) (k k' : string) (o : list (string * A)) :
  obj_get k (obj_alter f k' o) = if String.eqb k k' then f <$> obj_get k o else obj_get k o.
Proof.
  induction o as [|[k0 v0] o IH]; simpl.
  - destruct (String.eqb k k'); reflexivity.
  - destruct (String.eqb_spec k' k0) as [->|Hne]; simpl.
    + destruct (String.eqb k k0); reflexivity.
    + rewrite IH. destruct (String.eqb_spec k k0) as [->|Hne'].
      * destruct (String.eqb_spec k0 k'); [congruence | reflexivity].
      * reflexivity.
Qed.

Lemma arr_includes_In (x : string) (l : list string) :
  arr_includes x l = true <-> In x l.
Proof.
  unfold arr_includes. rewrite existsb_exists. split.
  - intros [y [Hy Heq]]. apply String.eqb_eq in Heq. congruence.
  - intros H. exists x. split; [exact H | apply String.eqb_refl].
Qed.

Lemma In_dedup_str (x : string) (l seen : list string) :
  In x (dedup_str seen l) <-> In x l /\ ~ In x seen.
Proof.
  revert seen. induction l as [|y l IH]; intros seen; simpl.
  - tauto.
  - destruct (arr_includes y seen) eqn:Hy.
    + apply arr_includes_In in Hy. rewrite IH. split.
      * intros [H1 H2]. auto.
      * intros [[->|H1] H2]; [contradiction | auto].
    + assert (~ In y seen) as Hn.
      { intros H. apply arr_includes_In in H. congruence. }
      simpl. rewrite IH. simpl. split.
      * intros [->|[H1 H2]]; [auto | split; [auto | tauto]].
      * intros [[->|H1] H2]; [auto|].
        destruct (String.eqb_spec y x) as [->|Hne]; [auto | right; split; [auto | tauto]].
Qed.

End JsFacts.

(** ** Composition flattening *)

Module FlatteningFacts.
Import Resolver Examples Vocabulary JsFacts.

Lemma obj_get_mergeObjects (k : string) (source target : list (string * SchemaObject)) :
  obj_get k (mergeObjects source target) =
  match obj_get k target with
  | Some v => Some v
  | None => obj_get k source
  end.
Proof.
  unfold mergeObjects. revert target.
  induction source as [|[k' v'] source IH]; intros target; simpl.
  - destruct (obj_get k target); reflexivity.
  - rewrite IH. unfold obj_has.
    destruct (obj_get k' target) as [w|] eqn:Hk'.
    + destruct (String.eqb_spec k k') as [->|Hne]; [rewrite Hk'|]; reflexivity.
    + rewrite obj_get_set.
      destruct (String.eqb_spec k k') as [->|Hne]; [rewrite Hk'|]; reflexivity.
Qed.

Lemma merged_properties (parent child : SchemaObject) :
  propertiesOrEmpty (mergeParentAllOfInChild parent child) =
  mergeObjects (propertiesOrEmpty parent) (propertiesOrEmpty child).
Proof.
  unfold mergeParentAllOfInChild.
  destruct parent as [? ? [pp|] ? ? [pr|] ? ? [[|]|]]; destruct child as [? ? [cp|]]; reflexivity.
Qed.

Lemma merged_required (parent child : SchemaObject) :
  requiredOrEmpty (mergeParentAllOfInChild parent child) =
  match required parent with
  | Some parentRequired => dedup_str [] (parentRequired ++ requiredOrEmpty child)
  | None => requiredOrEmpty child
  end.
Proof.
  unfold mergeParentAllOfInChild.
  destruct parent as [? ? [pp|] ? ? [pr|] ? ? [[|]|]]; destruct child as [? ? [cp|]]; reflexivity.
Qed.

Lemma merged_marker (parent child : SchemaObject) :
  x_ms_azure_resource (mergeParentAllOfInChild parent child) =
  if truthy_flag (x_ms_azure_resource parent)
  then x_ms_azure_resource parent else x_ms_azure_resource child.
Proof.
  unfold mergeParentAllOfInChild.
  destruct parent as [? ? [pp|] ? ? [pr|] ? ? [[|]|]]; destruct child as [? ? [cp|]]; reflexivity.
Qed.

Lemma split_on_plain (s : string) : plainToken s = true -> split_on "/"%char s = [s].
Proof.
  induction s as [|c s IH]; cbn; [reflexivity|].
  intros H. apply andb_prop in H. destruct H as [H Hs]. apply andb_prop in H. destruct H as [H1 _].
  apply negb_true_iff in H1. rewrite H1, (IH Hs). reflexivity.
Qed.

Lemma unescape_plain (s : string) : plainToken s = true -> unescape_token s = s.
Proof.
  induction s as [|c s IH]; cbn; [reflexivity|].
  intros H. apply andb_prop in H. destruct H as [H Hs]. apply andb_prop in H. destruct H as [_ H2].
  apply negb_true_iff in H2. destruct s as [|d s']; [reflexivity|].
  rewrite H2. cbn [andb]. rewrite (IH Hs). reflexivity.
Qed.

Lemma append_cons (c : ascii) (s t : string) : String c s +:+ t = String c (s +:+ t).
Proof. reflexivity. Qed.

Lemma append_empty (t : string) : EmptyString +:+ t = t.
Proof. reflexivity. Qed.

Lemma parse_pointer_definition (p : string) :
  plainToken p = true -> parse_pointer ("/definitions/" +:+ p) = Some ["definitions"; p].
Proof.
  intros Hp. unfold parse_pointer. rewrite !append_cons, append_empty.
  cbn. rewrite (split_on_plain p Hp). cbn.
  rewrite (unescape_plain p Hp). reflexivity.
Qed.

Lemma mergeParent_ensured (parent child : SchemaObject) :
  mergeParentAllOfInChild (ensureProperties parent) child = mergeParentAllOfInChild parent child.
Proof. destruct parent as [? ? [pp|]]; reflexivity. Qed.

(** A child that composes one parent, itself without composition list:
    flattening the child leaves it merged with the parent. *)
Lemma flatten_single_parent (spec : SwaggerObject) (c p : string) (C P : SchemaObject) :
  obj_get c (definitions spec) = Some C ->
  obj_get p (definitions spec) = Some P ->
  allOf C = Some [refSchema ("#/definitions/" +:+ p)] ->
  allOf P = None ->
  c <> p ->
  plainToken p = true ->
  exists st,
    resolveAllOfInModel 1 ["definitions"; c] (Some ("/definitions/" +:+ c)) (mkAllOfState spec ∅)
    = Ok st
    /\ obj_get c (definitions (a_spec st)) = Some (mergeParentAllOfInChild P C).
Proof.
  intros HC HP HallC HallP Hne Hplain.
  assert (getObject spec ["definitions"; c] = Some C) as HgetC.
  { cbn. rewrite HC. reflexivity. }
  assert (getObject spec ["definitions"; c; "allOf"; "0"]
          = Some (refSchema ("#/definitions/" +:+ p))) as HgetItem.
  { cbn. rewrite HC. cbn. rewrite HallC. reflexivity. }
  assert (getObject spec ["definitions"; p] = Some P) as HgetP.
  { cbn. rewrite HP. reflexivity. }
  cbn [resolveAllOfInModel a_spec a_resolved]. rewrite HgetC.
  change (("/definitions/" +:+ c) =? EmptyString) with false.
  change (starts_with_hash ("/definitions/" +:+ c)) with false. cbv iota.
  rewrite bool_decide_eq_false_2 by apply not_elem_of_empty.
  rewrite HallC. cbn [length seq forEach app a_spec].
  change (string_of_nat 0) with "0".
  rewrite HgetItem.
  change (ref (refSchema ("#/definitions/" +:+ p))) with (Some ("#/definitions/" +:+ p)).
  change (truthy_str (Some ("#/definitions/" +:+ p))) with true. cbv iota.
  change (slice1 <$> Some ("#/definitions/" +:+ p)) with (Some ("/definitions/" +:+ p)).
  cbv iota. rewrite (parse_pointer_definition p Hplain).
  cbn [mbind option_bind]. rewrite HgetP, HallP. cbn [present mbind outcome_bind a_spec].
  assert (getObject (updObject spec ["definitions"; p] ensureProperties) ["definitions"; p]
          = Some (ensureProperties P)) as ->.
  { cbn. rewrite obj_get_alter, String.eqb_refl, HP. reflexivity. }
  eexists. split; [reflexivity|]. cbn.
  rewrite !obj_get_alter, String.eqb_refl.
  apply String.eqb_neq in Hne. rewrite Hne, HC. cbn.
  rewrite mergeParent_ensured. reflexivity.
Qed.



End FlatteningFacts.

(** ** Back-filling the response slots *)

Module BackfillFacts.
Import Mocker Examples Vocabulary JsFacts.

Lemma obj_get_fill (P : string -> bool) (code : string) (codes : list string)
    (responses : list (string * value)) :
  obj_get code
    (fold_left (fun responses c => if P c then obj_set c (VObj []) responses else responses)
       codes responses) =
  if existsb (fun c => String.eqb code c && P c) codes
  then Some (VObj []) else obj_get code responses.
Proof.
  revert responses. induction codes as [|c codes IH]; intros responses; simpl.
  - reflexivity.
  - rewrite IH. destruct (P c) eqn:HP.
    + rewrite obj_get_set.
      destruct (String.eqb code c); simpl.
      * destruct (existsb _ codes); reflexivity.
      * reflexivity.
    + rewrite andb_false_r. reflexivity.
Qed.

Lemma existsb_keys {A : Type} (P : string -> bool) (code : string) (o : list (string * A)) :
  existsb (fun c => String.eqb code c && P c) (obj_keys o) = obj_has code o && P code.
Proof.
  unfold obj_has, obj_keys. induction o as [|[k v] o IH]; simpl.
  - reflexivity.
  - rewrite IH. destruct (String.eqb_spec code k) as [->|Hne]; simpl.
    + destruct (P k); simpl; [reflexivity|]. rewrite andb_false_r. reflexivity.
    + reflexivity.
Qed.

(** C8, as the code has it. Every status code that the operation declares
    gets an empty slot, whether or not the supplied example already has
    one, except "default" and, when the supplied example has at least one
    slot, except 200, 201, 202 and 204; every other slot of the supplied
    example keeps its content. *)
Theorem backfill_assigns_declared_slots :
  forall (responses : list (string * value)) (specResponses : list (string * SchemaObject))
         (code : string),
    obj_get code (backfillResponses responses specResponses) =
    if assigned responses specResponses code then Some (VObj []) else obj_get code responses.
Proof.
  intros responses specResponses code. unfold backfillResponses, assigned.
  destruct responses as [|[k v] responses]; simpl obj_keys; cbv iota.
  - rewrite (obj_get_fill (fun c => negb (String.eqb c "default"))).
    rewrite existsb_keys, andb_true_r. reflexivity.
  - rewrite (obj_get_fill
               (fun c => negb (String.eqb c "default")
                         && negb (arr_includes c preHandledStatusCode))).
    rewrite existsb_keys, andb_assoc. reflexivity.
Qed.

(** C8 fails as stated: a slot that the supplied example already has for a
    declared status code (here 404) does not keep its content. *)
Lemma backfill_overwrites_present_slot :
  obj_get "404" supplied404 = Some (VObj [("body", VStr "not found")])
  /\ obj_get "404" (backfillResponses supplied404 declared404) = Some (VObj []).
Proof. split; reflexivity. Qed.

End BackfillFacts.

(** ** The example generator *)

Module GeneratorFacts.
Import Mocker Examples Vocabulary JsFacts.

Lemma mockCachedObj_invalid (self : SwaggerMocker) (fuel : nat) (objName : string)
    (example : value) (visited : gset string) (isRequest : bool) (dv : option string)
    (st : GenState) :
  mockCachedObj self (S fuel) objName None example visited isRequest dv st
  = Ok (VUndefined, visited, logMessage "invalid schema." st).
Proof. reflexivity. Qed.

Lemma mockCachedObj_visited (self : SwaggerMocker) (fuel : nat) (objName : string)
    (schema0 : SchemaObject) (r : string) (example : value) (visited : gset string)
    (isRequest : bool) (dv : option string) (st : GenState) :
  ref schema0 = Some r -> r ∈ visited ->
  mockCachedObj self (S fuel) objName (Some schema0) example visited isRequest dv st
  = Ok (VUndefined, visited, st).
Proof.
  intros Href Hin. simpl. rewrite Href.
  rewrite bool_decide_eq_true_2 by exact Hin. reflexivity.
Qed.

Lemma getCache_payload_first (self : SwaggerMocker) (schema0 : SchemaObject) (r : string)
    (item : value) (st : GenState) :
  ref schema0 = Some r -> exampleCache self !! cacheKey r = Some item ->
  getCache self schema0 st = item.
Proof. intros Href Hpayload. unfold getCache. rewrite Href, Hpayload. reflexivity. Qed.

Lemma getCache_mock_second (self : SwaggerMocker) (schema0 : SchemaObject) (r : string)
    (item : value) (st : GenState) :
  ref schema0 = Some r -> exampleCache self !! cacheKey r = None ->
  mockCache st !! cacheKey r = Some item ->
  getCache self schema0 st = item.
Proof.
  intros Href Hpayload Hmock. unfold getCache. rewrite Href, Hpayload, Hmock. reflexivity.
Qed.

Lemma mockCachedObj_cached (self : SwaggerMocker) (fuel : nat) (objName : string)
    (schema0 : SchemaObject) (r : string) (example : value) (visited : gset string)
    (isRequest : bool) (dv : option string) (st : GenState) :
  ref schema0 = Some r -> r ∉ visited -> truthy (getCache self schema0 st) = true ->
  mockCachedObj self (S fuel) objName (Some schema0) example visited isRequest dv st
  = Ok (getCache self schema0 st, visited, st).
Proof.
  intros Href Hin Hcache. simpl. rewrite Href.
  rewrite bool_decide_eq_false_2 by exact Hin. rewrite Hcache. reflexivity.
Qed.

Lemma mockCachedObj_unresolved (self : SwaggerMocker) (fuel : nat) (objName : string)
    (schema0 : SchemaObject) (r : string) (example : value) (visited : gset string)
    (isRequest : bool) (dv : option string) (st : GenState) :
  ref schema0 = Some r -> r ∉ visited -> truthy (getCache self schema0 st) = false ->
  resolveRefObj self schema0 = None ->
  mockCachedObj self (S fuel) objName (Some schema0) example visited isRequest dv st
  = Throw "TypeError: Cannot read properties of undefined".
Proof.
  intros Href Hin Hcache Hres. simpl. rewrite Href.
  rewrite bool_decide_eq_false_2 by exact Hin. rewrite Hcache.
  unfold getDefSpec. rewrite Hres. reflexivity.
Qed.

Lemma getProperties_flat (self : SwaggerMocker) (fuel : nat) (d : SchemaObject)
    (visited : gset string) :
  allOf d = None ->
  getProperties self (S fuel) d visited = Ok (obj_spread [] (propertiesOrEmpty d), visited).
Proof. intros H. simpl. unfold allOfOrEmpty. rewrite H. reflexivity. Qed.

Lemma getDiscriminator_flat (self : SwaggerMocker) (fuel : nat) (d : SchemaObject)
    (visited : gset string) :
  allOf d = None ->
  getDiscriminator self (S fuel) d visited =
  Ok (if truthy_str (discriminator d) then discriminator d else None, visited).
Proof.
  intros H. simpl. unfold allOfOrEmpty. rewrite H.
  destruct (truthy_str (discriminator d)); reflexivity.
Qed.

Lemma getRequiredProperties_flat (self : SwaggerMocker) (fuel : nat) (d : SchemaObject) :
  allOf d = None ->
  getRequiredProperties self (S fuel) d = Ok (requiredOrEmpty d).
Proof. intros H. simpl. unfold allOfOrEmpty. rewrite H. reflexivity. Qed.

Lemma mockCachedObj_self_reference (self : SwaggerMocker) (fuel : nat) (objName a p : string)
    (defA : SchemaObject) (isRequest : bool) (st : GenState) :
  resolveRefObj self (refSchema a) = Some defA ->
  isObject self defA = true ->
  properties defA = Some [(p, refSchema a)] ->
  allOf defA = None ->
  discriminator defA = None ->
  additionalProperties defA = None ->
  exampleCache self !! cacheKey a = None ->
  mockCache st !! cacheKey a = None ->
  mockCachedObj self (S (S fuel)) objName (Some (refSchema a)) VUndefined ∅ isRequest None st
  = Ok (selfReferentialItem p defA, ∅,
        mkGenState (<[cacheKey a := selfReferentialItem p defA]> (mockCache st))
          (logged st) (tick st)).
Proof.
  intros Hres Hobj Hprops HallOf Hdisc Hadd Hpayload Hmock.
  remember (S fuel) as f1 eqn:Hf1.
  cbn [mockCachedObj]. subst f1.
  change (ref (refSchema a)) with (Some a). cbv beta iota.
  rewrite bool_decide_eq_false_2 by set_solver.
  unfold getCache. change (ref (refSchema a)) with (Some a). cbv beta iota.
  rewrite Hpayload, Hmock.
  cbn [truthy]. unfold getDefSpec. change (ref (refSchema a)) with (Some a). cbv beta iota.
  rewrite Hres, Hobj.
  rewrite getProperties_flat by exact HallOf. cbn [mbind outcome_bind].
  rewrite getDiscriminator_flat by exact HallOf. rewrite Hdisc.
  cbn [truthy_str mbind outcome_bind].
  unfold propertiesOrEmpty. rewrite Hprops.
  cbn [obj_spread fold_left obj_set fst snd forEach orElse truthy].
  cbn [truthy_str andb]. rewrite andb_false_r.
  cbn [readMember obj_get mbind outcome_bind].
  rewrite (mockCachedObj_visited self fuel p (refSchema a) a) by (reflexivity || set_solver).
  cbn [mbind outcome_bind writeMember obj_set].
  unfold additionalSchema. rewrite Hadd.
  cbn [mbind outcome_bind wrapItem createTrunkItem].
  rewrite getRequiredProperties_flat by exact HallOf.
  cbn [mbind outcome_bind].
  assert (markMocked (requiredOrEmpty defA) (createTrunkItem (VObj [(p, VUndefined)]) defA)
          = selfReferentialItem p defA) as ->.
  { unfold markMocked, createTrunkItem, selfReferentialItem. cbn [itemRequired optionsFrom].
    destruct (requiredOrEmpty defA); reflexivity. }
  unfold removeFromSet, checkAndCache. change (ref (refSchema a)) with (Some a). cbv beta iota.
  rewrite Hmock, bool_decide_eq_true_2 by set_solver.
  repeat f_equal. set_solver.
Qed.



(** C4, at the input where the code departs from it. [Owner] has two
    sibling properties that refer to the polymorphic base [Animal]. The
    first occurrence yields the item of the subtype [Cat]; the second
    yields undefined, because the reference of [Animal] is still in the
    visited set when the first occurrence returns, and nothing was cached
    for [Animal]. *)
Theorem sibling_occurrence_of_polymorphic_base :
  exists (item : value) (visited : gset string) (st : GenState),
    mockCachedObj (mockerOf petDefs) 6 "body" (Some (refSchema "#/definitions/Owner"))
      (VObj []) ∅ false None freshState = Ok (item, visited, st)
    /\ memberOf "pet1" item = Some catItem
    /\ memberOf "pet2" item = Some VUndefined
    /\ "#/definitions/Animal" ∈ visited
    /\ mockCache st !! Some "/definitions/Animal" = None
    /\ mockCache st !! Some "/definitions/Cat" = Some catItem.
Proof.
  eexists _, _, _. split; [vm_compute; reflexivity|].
  repeat split; vm_compute; reflexivity.
Qed.

(** C7, as the code has it. A schema that is absent or not an object gives
    undefined and a logged warning, whatever the seed; nothing is thrown
    and the caches do not change. A reference that the loader does not
    resolve is not such a case: the exception raised on it reaches the
    caller. *)
Theorem malformed_schema_is_skipped :
  (forall (self : SwaggerMocker) (fuel : nat) (objName : string) (example : value)
          (visited : gset string) (isRequest : bool) (dv : option string) (st : GenState),
      mockCachedObj self (S fuel) objName None example visited isRequest dv st
      = Ok (VUndefined, visited, logMessage "invalid schema." st))
  /\ (forall (self : SwaggerMocker) (fuel : nat) (objName : string) (schema0 : SchemaObject)
             (r : string) (example : value) (visited : gset string) (isRequest : bool)
             (dv : option string) (st : GenState),
      ref schema0 = Some r -> r ∉ visited -> truthy (getCache self schema0 st) = false ->
      resolveRefObj self schema0 = None ->
      mockCachedObj self (S fuel) objName (Some schema0) example visited isRequest dv st
      = Throw "TypeError: Cannot read properties of undefined").
Proof.
  split.
  - intros. apply mockCachedObj_invalid.
  - intros. eapply mockCachedObj_unresolved; eassumption.
Qed.

Lemma malformed_schema_is_skipped_witness :
  mockCachedObj (mockerOf petDefs) 1 "body" None (VObj []) ∅ false None freshState
  = Ok (VUndefined, ∅, logMessage "invalid schema." freshState)
  /\ mockCachedObj (mockerOf petDefs) 1 "body" (Some (refSchema "#/definitions/Missing"))
       (VObj []) ∅ false None freshState
     = Throw "TypeError: Cannot read properties of undefined".
Proof.
  split.
  - apply (proj1 malformed_schema_is_skipped).
  - apply (proj2 malformed_schema_is_skipped (mockerOf petDefs) 0 "body"
             (refSchema "#/definitions/Missing") "#/definitions/Missing").
    + reflexivity.
    + apply not_elem_of_empty.
    + reflexivity.
    + reflexivity.
Defined.

(** C7 fails as stated: generation for a reference that the loader does not
    resolve throws. *)
Lemma unresolved_reference_throws :
  mockCachedObj (mockerOf petDefs) 4 "body" (Some (refSchema "#/definitions/Missing"))
    (VObj []) ∅ false None freshState
  = Throw "TypeError: Cannot read properties of undefined".
Proof. reflexivity. Qed.

Lemma mockParameter_present (self : SwaggerMocker) (fuel : nat) (rp : string)
    (element paramEle : SchemaObject) (paramExample : list (string * value)) (st : GenState) :
  resolveRefObj self element = Some paramEle ->
  name paramEle <> Some "resourceGroupName" ->
  name paramEle <> Some "api-version" ->
  schema paramEle = None ->
  obj_has (default "undefined" (name paramEle)) paramExample = true ->
  mockParameter self fuel rp element (paramExample, st) = Ok (paramExample, st).
Proof.
  intros Hres Hrg Hver Hschema Hhas. unfold mockParameter, getDefSpec.
  rewrite Hres. rewrite !bool_decide_eq_false_2 by assumption.
  rewrite Hschema, Hhas. reflexivity.
Qed.

Lemma mockParameter_frame (self : SwaggerMocker) (fuel : nat) (rp k : string)
    (element : SchemaObject) (paramExample result : list (string * value))
    (st st' : GenState) :
  k <> "resourceGroupName" -> k <> "api-version" ->
  (forall paramEle, resolveRefObj self element = Some paramEle ->
                    default "undefined" (name paramEle) = k -> schema paramEle = None) ->
  obj_has k paramExample = true ->
  mockParameter self fuel rp element (paramExample, st) = Ok (result, st') ->
  obj_get k result = obj_get k paramExample.
Proof.
  intros Hrg Hver Hplain Hhas. unfold mockParameter, getDefSpec.
  destruct (resolveRefObj self element) as [paramEle|] eqn:Hres; [|discriminate].
  specialize (Hplain paramEle eq_refl).
  case_bool_decide as Hn1.
  { intros [= <- <-]. rewrite obj_get_set.
    destruct (String.eqb_spec k "resourceGroupName"); [contradiction | reflexivity]. }
  case_bool_decide as Hn2.
  { intros [= <- <-]. rewrite obj_get_set.
    destruct (String.eqb_spec k "api-version"); [contradiction | reflexivity]. }
  destruct (schema paramEle) as [bodySchema|] eqn:Hschema.
  - assert (default "undefined" (name paramEle) <> k) as Hne.
    { intros Heq. specialize (Hplain Heq). discriminate. }
    destruct (allowed (onParameter self) paramEle); [|intros [= <- <-]; reflexivity].
    destruct (mockObj _ _ _ _ _ _ _ _) as [[v st1]| | |]; try discriminate.
    cbn [mbind outcome_bind]. intros [= <- <-]. rewrite obj_get_set.
    destruct (String.eqb_spec k (default "undefined" (name paramEle))); [congruence | reflexivity].
  - destruct (obj_has (default "undefined" (name paramEle)) paramExample) eqn:Hp.
    { intros [= <- <-]. reflexivity. }
    assert (default "undefined" (name paramEle) <> k) as Hne by congruence.
    destruct (allowed (onParameter self) paramEle); [|intros [= <- <-]; reflexivity].
    destruct (mockObj _ _ _ _ _ _ _ _) as [[v st1]| | |]; try discriminate.
    cbn [mbind outcome_bind]. intros [= <- <-]. rewrite obj_get_set.
    destruct (String.eqb_spec k (default "undefined" (name paramEle))); [congruence | reflexivity].
Qed.

Lemma mockRequest_frame (self : SwaggerMocker) (fuel : nat) (rp k : string)
    (paramSpec : list (string * SchemaObject)) (paramExample result : list (string * value))
    (st st' : GenState) :
  k <> "resourceGroupName" -> k <> "api-version" ->
  (forall entry paramEle, In entry paramSpec -> resolveRefObj self (snd entry) = Some paramEle ->
                          default "undefined" (name paramEle) = k -> schema paramEle = None) ->
  obj_has k paramExample = true ->
  mockRequest self fuel paramExample paramSpec rp st = Ok (result, st') ->
  obj_get k result = obj_get k paramExample.
Proof.
  intros Hrg Hver. unfold mockRequest.
  revert paramExample st. induction paramSpec as [|entry paramSpec IH];
    intros paramExample st Hplain Hhas; cbn [forEach].
  - intros [= <- <-]. reflexivity.
  - destruct (mockParameter self fuel rp (snd entry) (paramExample, st)) as [[mid st1]| | |] eqn:Hstep;
      cbn [mbind outcome_bind]; try discriminate.
    intros Hrest.
    assert (obj_get k mid = obj_get k paramExample) as Hmid.
    { eapply mockParameter_frame; try eassumption.
      intros paramEle. apply Hplain. left. reflexivity. }
    rewrite <- Hmid. eapply IH; [| |exact Hrest].
    + intros e pe Hin. apply Hplain. right. exact Hin.
    + unfold obj_has in *. rewrite Hmid. exact Hhas.
Qed.




Lemma mockForDiscriminator_subtype (self : SwaggerMocker) (fuel : nat)
    (schema0 disDetail : SchemaObject) (example : value) (discriminator0 : string)
    (isRequest : bool) (visited visited' : gset string) (st : GenState)
    (firstKey : string) (firstSpec : SchemaObject) (rest props : list (string * SchemaObject))
    (discriminatorSpec : SchemaObject) :
  resolveRefObj self schema0 = Some disDetail ->
  discriminatorMap disDetail = Some ((firstKey, firstSpec) :: rest) ->
  getProperties self fuel disDetail ∅ = Ok (props, visited') ->
  obj_get (default "undefined" (chosenValue discriminator0 props firstKey))
    ((firstKey, firstSpec) :: rest) = Some discriminatorSpec ->
  mockForDiscriminator self (S fuel) schema0 example discriminator0 isRequest visited st =
  '(cacheItem, _, st') ←
    mockCachedObj self fuel discriminator0 (Some discriminatorSpec) (VObj []) ∅ isRequest
      (chosenValue discriminator0 props firstKey) st;
  Ok (orElse cacheItem VUndefined,
      removeFromSet schema0 (snd (getDefSpec self schema0 visited)), st').
Proof.
  intros Hres Hmap Hprops Hspec.
  cbn [mockForDiscriminator]. unfold getDefSpec at 1. rewrite Hres, Hmap, Hprops.
  cbn [mbind outcome_bind]. fold (chosenValue discriminator0 props firstKey).
  rewrite Hspec. unfold getDefSpec. cbn [snd]. reflexivity.
Qed.



(** The seed is lost in the scenario: the subtype is generated as it is
    without any seed. *)
Lemma discriminator_branch_result :
  (fun r => fst <$> (fst <$> r))
    (match mockForDiscriminator (mockerOf petDefs) 5 animalDef (VObj [("name", VStr "Tom")])
             "kind" false ∅ freshState with
     | Ok r => Some r
     | _ => None
     end)
  = Some catItem.
Proof. vm_compute. reflexivity. Qed.

End GeneratorFacts.

(** ** Polymorphism expansion *)

Module ExpansionFacts.
Import Resolver Examples Vocabulary JsFacts.

(** C1, at the input where the code departs from it. [Owner.pet] and
    [SmallOffice.pet] both refer to the base [Animal], whose subtypes are
    [Cat] and [Dog], and neither site is inside an [allOf] or a [oneOf]
    list. The first is rewritten into the alternative set; the second is
    left as it was, because the text of its pointer contains "allOf". *)
Theorem site_under_SmallOffice_is_not_rewritten :
  exists spec' : SwaggerObject,
    resolve 3 specAnimals = Ok spec'
    /\ In (mkRefEntry ["definitions"; "Owner"; "properties"; "pet"] "#/definitions/Animal")
          (findRefs specAnimals)
    /\ In (mkRefEntry ["definitions"; "SmallOffice"; "properties"; "pet"] "#/definitions/Animal")
          (findRefs specAnimals)
    /\ siteOf ["definitions"; "Owner"; "properties"; "pet"] spec'
       = Some (None,
               Some [refSchema "#/definitions/Animal"; refSchema "#/definitions/Cat";
                     refSchema "#/definitions/Dog"])
    /\ siteOf ["definitions"; "SmallOffice"; "properties"; "pet"] spec'
       = Some (Some "#/definitions/Animal", None)
    /\ includes "allOf" (pointer_string ["definitions"; "SmallOffice"; "properties"; "pet"])
       = true.
Proof.
  eexists. split; [vm_compute; reflexivity|].
  split; [vm_compute; tauto|]. split; [vm_compute; tauto|].
  repeat split; vm_compute; reflexivity.
Qed.


(** C6 fails as stated: [Animal] enters the memo map after its children
    were built, not before, and the tree of the shared descendant [Cat] is
    built twice in one pass, once below [Pet] and once below [Mammal]. *)
Lemma shared_descendant_is_rebuilt :
  exists st : TreeState,
    resolveDiscriminator 3 specDiamond = Ok st
    /\ t_trace st =
       [Constructed "Animal"; Constructed "Pet"; Constructed "Cat"; Memoized "Cat";
        Memoized "Pet"; Constructed "Mammal"; Constructed "Cat"; Memoized "Cat";
        Memoized "Mammal"; Memoized "Animal"]
    /\ constructions "Cat" (t_trace st) = 2.
Proof.
  eexists. split; [vm_compute; reflexivity|]. split; vm_compute; reflexivity.
Qed.

(** *** What [pinDiscriminator] changes *)

Lemma enum_set_enum (v : option (list string)) (s : SchemaObject) : enum (set_enum v s) = v.
Proof. destruct s; reflexivity. Qed.

Lemma pinDiscriminator_kept (defs : list (string * SchemaObject)) (n disc : string)
    (def : SchemaObject) :
  allOf (pinDiscriminator defs n disc def) = allOf def
  /\ discriminator (pinDiscriminator defs n disc def) = discriminator def
  /\ x_ms_discriminator_value (pinDiscriminator defs n disc def) = x_ms_discriminator_value def.
Proof.
  unfold pinDiscriminator, requireDiscriminator. destruct def as [? ? [props|] ? ? [req|]]; cbn;
    repeat case_match; cbn; auto.
Qed.

Lemma enum_pinDiscriminator (defs : list (string * SchemaObject)) (n disc : string)
    (def : SchemaObject) :
  enum (pinDiscriminator defs n disc def) = enum def.
Proof.
  unfold pinDiscriminator, requireDiscriminator. destruct def as [? ? [props|] ? ? [req|]]; cbn;
    repeat case_match; cbn; auto.
Qed.

Lemma declared_pinDiscriminator (defs : list (string * SchemaObject)) (n disc : string)
    (def d : SchemaObject) :
  declared disc def = Some d ->
  declared disc (pinDiscriminator defs n disc def) =
  Some (pinProperty defs (wireName n def) (truthy_str (discriminator def)) d).
Proof.
  unfold declared, pinDiscriminator, requireDiscriminator, wireName.
  destruct def as [? ? [props|] ? ? req ? dv]; cbn; [|discriminate].
  intros Hd. rewrite Hd.
  destruct req as [req|]; [destruct (arr_includes disc req)|]; cbn;
    rewrite obj_get_alter, String.eqb_refl, Hd; reflexivity.
Qed.

Lemma declared_pinDiscriminator_None (defs : list (string * SchemaObject)) (n disc : string)
    (def : SchemaObject) :
  declared disc def = None ->
  declared disc (pinDiscriminator defs n disc def) = None.
Proof.
  unfold declared, pinDiscriminator.
  destruct def as [? ? [props|] ? ? [req|]]; cbn; intros Hd; try rewrite Hd; cbn; auto.
Qed.

Lemma declared_pinDiscriminator_inv (defs : list (string * SchemaObject)) (n disc : string)
    (def d : SchemaObject) :
  declared disc (pinDiscriminator defs n disc def) = Some d ->
  exists d0, declared disc def = Some d0
             /\ d = pinProperty defs (wireName n def) (truthy_str (discriminator def)) d0.
Proof.
  intros Hd. destruct (declared disc def) as [d0|] eqn:Hd0.
  - rewrite (declared_pinDiscriminator defs n disc def d0 Hd0) in Hd. injection Hd as <-.
    exists d0. auto.
  - rewrite declared_pinDiscriminator_None in Hd by exact Hd0. discriminate.
Qed.

Lemma enum_prepare (d : SchemaObject) :
  enum (defaultStringType (disableModelAsString d)) = enum d.
Proof.
  unfold defaultStringType, disableModelAsString.
  destruct d as [? ty ? ? ? ? ? ? ? en [x|]]; cbn; destruct (truthy_str ty); reflexivity.
Qed.

Lemma enum_pinProperty (defs : list (string * SchemaObject)) (val : string) (isBase : bool)
    (d : SchemaObject) :
  enum (pinProperty defs val isBase d) =
  Some (if isBase then mergedEnum val (sourceEnum defs d) else [val]).
Proof.
  unfold pinProperty, constrainEnum, mergedEnum, sourceEnum. rewrite enum_prepare.
  destruct (enum (inlineReferencedEnum defs d)) as [e|] eqn:He;
    [|destruct isBase; apply enum_set_enum].
  destruct isBase; [|apply enum_set_enum].
  destruct (arr_includes val e) eqn:Hin; [|apply enum_set_enum].
  rewrite enum_prepare. exact He.
Qed.

Lemma sourceEnum_SameEnums (defs0 defs : list (string * SchemaObject)) (d : SchemaObject) :
  SameEnums defs0 defs -> sourceEnum defs d = sourceEnum defs0 d.
Proof.
  intros Hsame. unfold sourceEnum, inlineReferencedEnum.
  destruct (ref d) as [r|]; [|reflexivity].
  destruct (String.eqb r EmptyString); [reflexivity|].
  destruct (enum d) as [e|] eqn:He; [reflexivity|].
  specialize (Hsame (after_last_slash r)).
  destruct (obj_get (after_last_slash r) defs) as [rd|],
           (obj_get (after_last_slash r) defs0) as [rd0|]; cbn in Hsame.
  - destruct d; cbn in *. exact Hsame.
  - destruct d; cbn in *. subst. exact Hsame.
  - destruct d; cbn in *. subst. exact Hsame.
  - reflexivity.
Qed.

Lemma sourceEnum_present (defs : list (string * SchemaObject)) (d : SchemaObject) (e : list string) :
  enum d = Some e -> sourceEnum defs d = Some e.
Proof.
  intros He. unfold sourceEnum, inlineReferencedEnum.
  destruct (ref d) as [r|]; [|exact He].
  destruct (String.eqb r EmptyString); [exact He|].
  rewrite He. destruct d; cbn in *. exact He.
Qed.

Lemma mergedEnum_has (val : string) (source : option (list string)) :
  arr_includes val (mergedEnum val source) = true.
Proof.
  unfold mergedEnum. destruct source as [e|].
  - destruct (arr_includes val e) eqn:H; [exact H|]. cbn. rewrite String.eqb_refl. reflexivity.
  - cbn. rewrite String.eqb_refl. reflexivity.
Qed.

Lemma mergedEnum_idem (val : string) (source : option (list string)) :
  mergedEnum val (Some (mergedEnum val source)) = mergedEnum val source.
Proof. unfold mergedEnum at 1. rewrite mergedEnum_has. reflexivity. Qed.

Section PinExact.
Variables (disc name : string) (defs0 defs : list (string * SchemaObject)).
Hypothesis Hprogress : Progress disc defs0 defs.

Lemma pin_SameEnums :
  SameEnums defs0 (obj_alter (pinDiscriminator defs name disc) name defs).
Proof.
  destruct Hprogress as [Hsame _]. intros k. rewrite obj_get_alter, <- Hsame.
  destruct (String.eqb k name); [|reflexivity].
  destruct (obj_get k defs) as [def|]; cbn; [apply enum_pinDiscriminator | reflexivity].
Qed.

Lemma pin_Done_self :
  Done disc defs0 (obj_alter (pinDiscriminator defs name disc) name defs) name.
Proof.
  destruct Hprogress as [Hsame Hall].
  intros def. rewrite obj_get_alter, String.eqb_refl.
  destruct (obj_get name defs) as [defc|] eqn:Hdefc; cbn; [|discriminate].
  intros [= <-].
  destruct (pinDiscriminator_kept defs name disc defc) as [_ [Hdisc Hval]].
  destruct (Hall name) as [Huntouched | Hdone].
  - exists defc. split; [rewrite <- Huntouched; exact Hdefc|].
    split; [exact Hdisc|]. split; [exact Hval|].
    intros d Hd. apply declared_pinDiscriminator_inv in Hd. destruct Hd as [d0 [Hd0 ->]].
    exists d0. split; [exact Hd0|].
    rewrite enum_pinProperty. unfold expectedEnum.
    rewrite (sourceEnum_SameEnums defs0 defs d0 Hsame). reflexivity.
  - destruct (Hdone defc Hdefc) as [def0 [Hdef0 [Hd0 [Hv0 Henum]]]].
    exists def0. split; [exact Hdef0|].
    split; [congruence|]. split; [congruence|].
    intros d Hd. apply declared_pinDiscriminator_inv in Hd. destruct Hd as [dc [Hdc ->]].
    destruct (Henum dc Hdc) as [d0 [Hdecl0 He]].
    exists d0. split; [exact Hdecl0|].
    rewrite enum_pinProperty, (sourceEnum_present defs dc _ He).
    assert (wireName name defc = wireName name def0) as -> by (unfold wireName; rewrite Hv0; reflexivity).
    rewrite Hd0. unfold expectedEnum.
    destruct (truthy_str (discriminator def0)); [|reflexivity].
    rewrite mergedEnum_idem. reflexivity.
Qed.

Lemma pin_Done_kept (m : string) :
  Done disc defs0 defs m ->
  Done disc defs0 (obj_alter (pinDiscriminator defs name disc) name defs) m.
Proof.
  intros Hm. destruct (String.eqb_spec m name) as [->|Hne]; [apply pin_Done_self|].
  intros def. rewrite obj_get_alter.
  apply String.eqb_neq in Hne. rewrite Hne. apply Hm.
Qed.

Lemma pin_Progress :
  Progress disc defs0 (obj_alter (pinDiscriminator defs name disc) name defs).
Proof.
  split; [apply pin_SameEnums|].
  intros n. destruct (String.eqb_spec n name) as [->|Hne]; [right; apply pin_Done_self|].
  destruct Hprogress as [_ Hall]. destruct (Hall n) as [Hu|Hd].
  - left. rewrite obj_get_alter. apply String.eqb_neq in Hne. rewrite Hne. exact Hu.
  - right. apply pin_Done_kept. exact Hd.
Qed.
End PinExact.

Lemma Progress_refl (disc : string) (defs0 : list (string * SchemaObject)) :
  Progress disc defs0 defs0.
Proof. split; [intros k; reflexivity | intros n; left; reflexivity]. Qed.

(** *** The enum constraints after the construction of a tree *)

Lemma treeNames_addChild (c root : PolymorphicTree) (m : string) :
  In m (treeNames (addChildByObject c root)) -> In m (treeNames root) \/ In m (treeNames c).
Proof.
  unfold addChildByObject. destruct (existsb _ _); [auto|].
  destruct root as [rn rc]. cbn [treeNames t_name children].
  rewrite flat_map_app. cbn [flat_map]. rewrite app_nil_r.
  intros [H|H]; [left; left; exact H|].
  apply in_app_or in H. destruct H as [H|H]; [left; right; exact H | right; exact H].
Qed.

Lemma children_done (disc : string) (defs0 : list (string * SchemaObject)) (fuel : nat)
    (IH : PinsExactly disc defs0 fuel) (l : list string)
    (root root' : PolymorphicTree) (st st' : TreeState) :
  forEach
    (fun childName '(rootNode, st) =>
       '(childObj, st) ← createPolymorphicTree fuel childName disc st;
       Ok (addChildByObject childObj rootNode, st))
    l (root, st) = Ok (root', st') ->
  Progress disc defs0 (defsOf st) ->
  Progress disc defs0 (defsOf st')
  /\ (forall m, Done disc defs0 (defsOf st) m -> Done disc defs0 (defsOf st') m)
  /\ ((forall m, In m (treeNames root) -> Done disc defs0 (defsOf st) m) ->
      forall m, In m (treeNames root') -> Done disc defs0 (defsOf st') m).
Proof.
  revert root st. induction l as [|c l IHl]; intros root st; cbn [forEach].
  - intros [= <- <-] Hp. auto.
  - destruct (createPolymorphicTree fuel c disc st) as [[childObj st1]| | |] eqn:Hc;
      cbn [mbind outcome_bind]; try discriminate.
    intros Hrest Hp. destruct (IH _ _ _ _ Hc Hp) as [K1 [P1 T1]].
    destruct (IHl _ _ Hrest K1) as [K2 [P2 T2]].
    split; [exact K2|]. split; [auto|].
    intros Hroot. apply T2. intros m Hm.
    apply treeNames_addChild in Hm. destruct Hm as [Hm|Hm]; auto.
Qed.

Lemma createPolymorphicTree_pins_exactly (disc : string) (defs0 : list (string * SchemaObject))
    (fuel : nat) : PinsExactly disc defs0 fuel.
Proof.
  induction fuel as [|fuel IH]; intros name st t st'; cbn [createPolymorphicTree];
    [discriminate|].
  destruct (blank name); [discriminate|]. destruct (blank disc); [discriminate|].
  match goal with |- context [forEach ?f ?l ?acc] =>
    destruct (forEach f l acc) as [[root1 st1]| | |] eqn:Hloop end;
    cbn [mbind outcome_bind]; try discriminate.
  intros [= <- <-] Hp.
  apply (children_done disc defs0 fuel IH) in Hloop;
    [|unfold defsOf; cbn [t_spec definitions set_definitions]; apply pin_Progress; exact Hp].
  destruct Hloop as [K [P T]].
  unfold defsOf in *. cbn [t_spec definitions set_definitions] in *.
  split; [exact K|]. split.
  - intros m Hm. apply P. apply pin_Done_kept; assumption.
  - apply T. intros m [<-|[]]. apply pin_Done_self. exact Hp.
Qed.



(** *** Termination of the construction of a tree *)

Lemma compositionLinks_alter (f : SchemaObject -> SchemaObject) (n : string)
    (defs : list (string * SchemaObject)) :
  (forall d, allOf (f d) = allOf d) ->
  compositionLinks (obj_alter f n defs) = compositionLinks defs.
Proof.
  intros Hf. unfold compositionLinks. induction defs as [|[k d] defs IH]; cbn; [reflexivity|].
  destruct (String.eqb n k); cbn; [rewrite Hf|rewrite IH]; reflexivity.
Qed.

Lemma composers_links (P : list SchemaObject -> bool)
    (defs1 defs2 : list (string * SchemaObject)) :
  compositionLinks defs1 = compositionLinks defs2 ->
  map fst (List.filter
             (fun kv => match allOf (snd kv) with Some l => P l | None => false end) defs1)
  = map fst (List.filter
               (fun kv => match allOf (snd kv) with Some l => P l | None => false end) defs2).
Proof.
  revert defs2. induction defs1 as [|[k1 d1] defs1 IH]; intros [|[k2 d2] defs2] H;
    cbn in H; try discriminate; [reflexivity|].
  injection H as -> Hall Hrest. cbn. rewrite Hall.
  destruct (match allOf d2 with Some l => P l | None => false end); cbn;
    [f_equal|]; apply IH; exact Hrest.
Qed.

Lemma findChildren_links (defs1 defs2 : list (string * SchemaObject)) (n : string) :
  compositionLinks defs1 = compositionLinks defs2 ->
  findChildren defs1 n = findChildren defs2 n.
Proof.
  intros H. unfold findChildren.
  rewrite (composers_links (existsb (refersTo ("#/definitions/" +:+ n))) defs1 defs2 H).
  reflexivity.
Qed.

Lemma findChildren_keys (defs : list (string * SchemaObject)) (n c : string) :
  In c (findChildren defs n) -> In c (obj_keys defs).
Proof.
  unfold findChildren, obj_keys. rewrite In_dedup_str. intros [H _].
  apply in_map_iff in H. destruct H as [kv [<- Hkv]]. apply filter_In in Hkv.
  apply in_map. tauto.
Qed.

Lemma t_name_addChild (c root : PolymorphicTree) :
  t_name (addChildByObject c root) = t_name root.
Proof. unfold addChildByObject. destruct (existsb _ _); reflexivity. Qed.

Section Terminates.
Variables (disc : string) (defs0 : list (string * SchemaObject)) (rank : string -> nat).
Hypothesis Hdisc : blank disc = false.
Hypothesis Hnames : forall n, In n (obj_keys defs0) -> blank n = false.
Hypothesis Hrank :
  forall n c, In n (obj_keys defs0) -> In c (findChildren defs0 n) -> rank c < rank n.

Lemma children_return (fuel : nat) (IH : Returns disc defs0 rank fuel) (l : list string)
    (root : PolymorphicTree) (st : TreeState) :
  compositionLinks (defsOf st) = compositionLinks defs0 ->
  (forall c, In c l -> In c (obj_keys defs0) /\ rank c < fuel) ->
  exists root' st' mid,
    forEach
      (fun childName '(rootNode, st) =>
         '(childObj, st) ← createPolymorphicTree fuel childName disc st;
         Ok (addChildByObject childObj rootNode, st))
      l (root, st) = Ok (root', st')
    /\ compositionLinks (defsOf st') = compositionLinks defs0
    /\ t_name root' = t_name root
    /\ t_trace st' = t_trace st ++ mid
    /\ forall c, In c l -> In (Constructed c) mid.
Proof.
  revert root st. induction l as [|c l IHl]; intros root st Hlinks Hl; cbn [forEach].
  - exists root, st, []. rewrite app_nil_r. repeat split; auto.
  - destruct (Hl c (or_introl eq_refl)) as [Hkey Hr].
    destruct (IH c st Hlinks (Hnames c Hkey) Hr (fun c' => Hrank c c' Hkey))
      as [t [st1 [mid1 [Hc [Hlinks1 [_ [_ [Htr1 _]]]]]]]].
    rewrite Hc. cbn [mbind outcome_bind].
    destruct (IHl (addChildByObject t root) st1 Hlinks1)
      as [root' [st' [mid2 [Hrest [Hlinks2 [Hn [Htr2 Hin2]]]]]]].
    { intros c' Hc'. apply Hl. right. exact Hc'. }
    exists root', st', ((Constructed c :: mid1 ++ [Memoized c]) ++ mid2).
    split; [exact Hrest|]. split; [exact Hlinks2|].
    split; [rewrite Hn; apply t_name_addChild|].
    split; [rewrite Htr2, Htr1, <- app_assoc; reflexivity|].
    intros c' [<-|Hc']; [left; reflexivity|].
    apply in_or_app. right. apply Hin2. exact Hc'.
Qed.

Lemma createPolymorphicTree_returns (fuel : nat) : Returns disc defs0 rank fuel.
Proof.
  induction fuel as [|fuel IH]; intros name st Hlinks Hb Hr Hroot; [lia|].
  cbn [createPolymorphicTree]. rewrite Hb, Hdisc.
  set (defs1 := obj_alter (pinDiscriminator (definitions (t_spec st)) name disc) name
                  (definitions (t_spec st))).
  assert (compositionLinks defs1 = compositionLinks defs0) as Hlinks1.
  { subst defs1. rewrite compositionLinks_alter; [exact Hlinks|].
    intros d. apply pinDiscriminator_kept. }
  assert (findChildren defs1 name = findChildren defs0 name) as Hch
    by (apply findChildren_links; exact Hlinks1).
  rewrite Hch.
  match goal with |- context [forEach ?f ?l (?r, ?s)] =>
    destruct (children_return fuel IH l r s)
      as [root' [st' [mid [Hloop [Hlinks2 [Hn [Htr Hin]]]]]]] end.
  { exact Hlinks1. }
  { intros c Hc. split.
    - eapply findChildren_keys. exact Hc.
    - specialize (Hroot c Hc). lia. }
  rewrite Hloop. cbn [mbind outcome_bind].
  cbn [t_name] in Hn. cbn [t_trace] in Htr.
  eexists _, _, mid. split; [reflexivity|].
  cbn [defsOf t_spec t_subTreeMap t_trace]. rewrite Hn.
  split; [exact Hlinks2|]. split; [reflexivity|].
  split; [rewrite obj_get_set, String.eqb_refl; reflexivity|].
  split; [rewrite Htr, <- !app_assoc; reflexivity|].
  exact Hin.
Qed.

End Terminates.

(** C6, as the code has it. When the composition links are acyclic (a rank
    decreases from every definition to the definitions that compose it)
    and no name is blank, the construction of the tree of [name] returns,
    with any fuel above the rank of [name]. The tree is stored in the memo
    map under [name] by the last step of the call: the trees of all the
    children are constructed before, and the recursion does not look into
    the map. *)
Theorem tree_construction_returns :
  forall (disc name : string) (rank : string -> nat) (st : TreeState) (fuel : nat),
    blank disc = false ->
    blank name = false ->
    (forall n, In n (obj_keys (defsOf st)) -> blank n = false) ->
    (forall n c, n = name \/ In n (obj_keys (defsOf st)) ->
                 In c (findChildren (defsOf st) n) -> rank c < rank n) ->
    rank name < fuel ->
    exists (t : PolymorphicTree) (st' : TreeState) (mid : list event),
      createPolymorphicTree fuel name disc st = Ok (t, st')
      /\ t_name t = name
      /\ obj_get name (t_subTreeMap st') = Some t
      /\ t_trace st' = t_trace st ++ Constructed name :: mid ++ [Memoized name]
      /\ forall c, In c (findChildren (defsOf st) name) -> In (Constructed c) mid.
Proof.
  intros disc name rank st fuel Hdisc Hname Hnames Hrank Hfuel.
  destruct (createPolymorphicTree_returns disc (defsOf st) rank Hdisc Hnames
              (fun n c Hn => Hrank n c (or_intror Hn)) fuel name st eq_refl Hname Hfuel
              (fun c => Hrank name c (or_introl eq_refl)))
    as [t [st' [mid [Hrun [_ [Ht [Hmap [Htrace Hmid]]]]]]]].
  exists t, st', mid. auto.
Qed.

Lemma tree_construction_returns_witness :
  exists (t : PolymorphicTree) (st' : TreeState) (mid : list event),
    createPolymorphicTree 3 "Animal" "kind" (initialTreeState specDiamond) = Ok (t, st')
    /\ t_name t = "Animal"
    /\ obj_get "Animal" (t_subTreeMap st') = Some t
    /\ t_trace st' =
       t_trace (initialTreeState specDiamond) ++ Constructed "Animal" :: mid ++ [Memoized "Animal"]
    /\ forall c, In c (findChildren (defsOf (initialTreeState specDiamond)) "Animal") ->
                 In (Constructed c) mid.
Proof.
  apply (tree_construction_returns "kind" "Animal" rankDiamond (initialTreeState specDiamond) 3).
  - reflexivity.
  - reflexivity.
  - intros n [<-|[<-|[<-|[<-|[]]]]]; reflexivity.
  - intros n c [->|[<-|[<-|[<-|[<-|[]]]]]];
      vm_compute; intros H; repeat (destruct H as [<-|H]); try contradiction;
      repeat constructor.
  - vm_compute. repeat constructor.
Defined.


(** On a composition cycle the construction does not return, whatever the
    fuel: the memo map plays no part in the recursion. *)
Lemma cyclic_composition_does_not_return (fuel : nat) :
  forall st : TreeState,
    compositionLinks (defsOf st) = compositionLinks (definitions specCycle) ->
    createPolymorphicTree fuel "A" "kind" st = OutOfFuel
    /\ createPolymorphicTree fuel "B" "kind" st = OutOfFuel.
Proof.
  induction fuel as [|fuel IH]; intros st Hlinks; [split; reflexivity|].
  split.
  - cbn [createPolymorphicTree].
    change (blank "A") with false. change (blank "kind") with false. cbv iota.
    set (defs1 := obj_alter (pinDiscriminator (definitions (t_spec st)) "A" "kind") "A"
                    (definitions (t_spec st))).
    assert (compositionLinks defs1 = compositionLinks (definitions specCycle)) as Hlinks1.
    { subst defs1. rewrite compositionLinks_alter; [exact Hlinks|].
      intros d. apply pinDiscriminator_kept. }
    rewrite (findChildren_links defs1 (definitions specCycle) "A" Hlinks1).
    change (findChildren (definitions specCycle) "A") with ["B"].
    cbn [forEach].
    match goal with |- context [createPolymorphicTree fuel "B" "kind" ?s] =>
      destruct (IH s Hlinks1) as [_ ->] end.
    reflexivity.
  - cbn [createPolymorphicTree].
    change (blank "B") with false. change (blank "kind") with false. cbv iota.
    set (defs1 := obj_alter (pinDiscriminator (definitions (t_spec st)) "B" "kind") "B"
                    (definitions (t_spec st))).
    assert (compositionLinks defs1 = compositionLinks (definitions specCycle)) as Hlinks1.
    { subst defs1. rewrite compositionLinks_alter; [exact Hlinks|].
      intros d. apply pinDiscriminator_kept. }
    rewrite (findChildren_links defs1 (definitions specCycle) "B" Hlinks1).
    change (findChildren (definitions specCycle) "B") with ["A"].
    cbn [forEach].
    match goal with |- context [createPolymorphicTree fuel "A" "kind" ?s] =>
      destruct (IH s Hlinks1) as [-> _] end.
    reflexivity.
Qed.

End ExpansionFacts.

(** ** Trees and alternative sets *)

Module TreeFacts.
Import Resolver Examples Vocabulary JsFacts.

Lemma NoDup_dedup_str (l seen : list string) : List.NoDup (dedup_str seen l).
Proof.
  revert seen. induction l as [|y l IH]; intros seen; simpl.
  - constructor.
  - destruct (arr_includes y seen) eqn:Hy; [apply IH|].
    constructor; [|apply IH].
    rewrite In_dedup_str. intros [_ Hn]. apply Hn. left. reflexivity.
Qed.

Lemma refersTo_spec (name : string) (item : SchemaObject) :
  refersTo ("#/definitions/" +:+ name) item = true
  <-> ref item = Some ("#/definitions/" +:+ name).
Proof.
  unfold refersTo. split.
  - intros H. apply andb_prop in H. destruct H as [_ H].
    apply bool_decide_eq_true in H. exact H.
  - intros H. rewrite H. cbn. apply bool_decide_eq_true. reflexivity.
Qed.

(** X1. [findChildren(name)] for a name that is not blank: the result
    lists no definition twice, and a definition is listed exactly when
    its [allOf] has an item whose [$ref] is the reference of [name]. An
    item written inline is never counted. *)
Theorem findChildren_lists_composers :
  forall (defs : list (string * SchemaObject)) (name : string),
    blank name = false ->
    List.NoDup (findChildren defs name)
    /\ forall c : string,
        In c (findChildren defs name) <->
        exists (def : SchemaObject) (items : list SchemaObject) (item : SchemaObject),
          In (c, def) defs /\ allOf def = Some items /\ In item items
          /\ ref item = Some ("#/definitions/" +:+ name).
Proof.
  intros defs name _. unfold findChildren. split; [apply NoDup_dedup_str|].
  intros c. rewrite In_dedup_str, in_map_iff. split.
  - intros [[[k def] [Hk Hin]] _]. cbn in Hk. subst k.
    apply filter_In in Hin. destruct Hin as [Hin Hf]. cbn in Hf.
    destruct (allOf def) as [items|] eqn:Hall; [|discriminate].
    apply existsb_exists in Hf. destruct Hf as [item [Hitem Href]].
    apply refersTo_spec in Href. exists def, items, item. auto.
  - intros [def [items [item [Hin [Hall [Hitem Href]]]]]]. split; [|intros []].
    exists (c, def). split; [reflexivity|]. apply filter_In. split; [exact Hin|].
    cbn. rewrite Hall. apply existsb_exists. exists item. split; [exact Hitem|].
    apply refersTo_spec. exact Href.
Qed.

Lemma findChildren_lists_composers_witness :
  List.NoDup (findChildren (definitions specAnimals) "Animal")
  /\ forall c : string,
      In c (findChildren (definitions specAnimals) "Animal") <->
      exists (def : SchemaObject) (items : list SchemaObject) (item : SchemaObject),
        In (c, def) (definitions specAnimals) /\ allOf def = Some items /\ In item items
        /\ ref item = Some ("#/definitions/" +:+ "Animal").
Proof. apply (findChildren_lists_composers (definitions specAnimals) "Animal"). reflexivity. Defined.

(** X2. [buildOneOfReferences(rootNode)] gives one reference object for
    every node of the tree: the root first, then the subtrees in the
    order of the children. A definition that sits at several nodes is
    listed once for each of them. *)
Theorem buildOneOfReferences_lists_every_node :
  forall t : PolymorphicTree,
    buildOneOfReferences t
    = map (fun n => refSchema ("#/definitions/" +:+ n)) (treeNames t).
Proof.
  fix IH 1. intros [name children]. cbn [buildOneOfReferences treeNames map]. f_equal.
  induction children as [|c children IHc]; cbn [flat_map]; [reflexivity|].
  rewrite map_app, <- IHc, <- IH. reflexivity.
Qed.

End TreeFacts.

(** ** The passes over the definitions *)

Module PassFacts.
Import Resolver Passes Examples Vocabulary JsFacts.

Lemma forEach_preserves {A S : Type} (P : S -> Prop) (body : A -> S -> outcome S)
    (l : list A) (st st' : S) :
  (forall x s s', In x l -> P s -> body x s = Ok s' -> P s') ->
  P st -> forEach body l st = Ok st' -> P st'.
Proof.
  revert st. induction l as [|x l IH]; intros st Hbody HP; cbn [forEach].
  - intros [= <-]. exact HP.
  - destruct (body x st) as [s1| | |] eqn:Hx; cbn [mbind outcome_bind]; try discriminate.
    apply IH.
    + intros y s s' Hy. apply Hbody. right. exact Hy.
    + eapply Hbody; [left; reflexivity | exact HP | exact Hx].
Qed.

Lemma obj_keys_alter {A : Type} (f : A -> A) (k : string) (o : list (string * A)) :
  obj_keys (obj_alter f k o) = obj_keys o.
Proof.
  unfold obj_keys. induction o as [|[k' v] o IH]; cbn; [reflexivity|].
  destruct (String.eqb k k'); cbn; [reflexivity | rewrite IH; reflexivity].
Qed.

Lemma obj_get_In {A : Type} (k : string) (o : list (string * A)) (v : A) :
  obj_get k o = Some v -> In (k, v) o.
Proof.
  induction o as [|[k' v'] o IH]; cbn; [discriminate|].
  destruct (String.eqb_spec k k') as [->|Hne].
  - intros [= ->]. left. reflexivity.
  - intros H. right. apply IH. exact H.
Qed.

Lemma obj_get_keys {A : Type} (k : string) (o : list (string * A)) :
  In k (obj_keys o) -> exists v, obj_get k o = Some v.
Proof.
  unfold obj_keys. induction o as [|[k' v'] o IH]; cbn; [intros []|].
  destruct (String.eqb_spec k k') as [->|Hne].
  - intros _. exists v'. reflexivity.
  - intros [H|H]; [congruence | apply IH; exact H].
Qed.

Lemma names_updObject (spec : SwaggerObject) (p : list string)
    (f : SchemaObject -> SchemaObject) :
  documentNames (updObject spec p f) = documentNames spec.
Proof.
  unfold updObject, documentNames. destruct p as [|root [|k p']]; try reflexivity.
  destruct (String.eqb root "definitions"); cbn [definitions parameters paths].
  { rewrite obj_keys_alter. reflexivity. }
  destruct (String.eqb root "parameters"); cbn [definitions parameters paths].
  { rewrite obj_keys_alter. reflexivity. }
  destruct (String.eqb root "paths"); [|reflexivity].
  destruct p' as [|verb [|sect [|i p'']]]; try reflexivity.
  cbn [definitions parameters paths]. rewrite obj_keys_alter. reflexivity.
Qed.

Lemma resolveAllOfInModel_names (fuel : nat) :
  forall (loc : list string) (modelRef : option string) (st st' : AllOfState),
    resolveAllOfInModel fuel loc modelRef st = Ok st' ->
    documentNames (a_spec st') = documentNames (a_spec st).
Proof.
  induction fuel as [|fuel IH]; intros loc modelRef st st'; cbn [resolveAllOfInModel];
    [discriminate|].
  destruct (getObject (a_spec st) loc) as [model|]; [|discriminate].
  destruct modelRef as [r|]; [|discriminate].
  destruct (String.eqb r EmptyString); [discriminate|].
  case_bool_decide; [intros [= <-]; reflexivity|].
  destruct (allOf model) as [allOfItems|]; [|intros [= <-]; reflexivity].
  apply (forEach_preserves (fun s => documentNames (a_spec s) = documentNames (a_spec st))); [|reflexivity].
  intros i s s' _ Hs.
  destruct (getObject (a_spec s) (loc ++ ["allOf"; string_of_nat i])) as [item|];
    [|intros [= <-]; exact Hs].
  match goal with |- context [match ?rl ≫= getObject (a_spec s) with _ => _ end] =>
    destruct (rl ≫= getObject (a_spec s)) as [referencedModel|]; [|discriminate];
    destruct rl as [refLoc|]; [|discriminate] end.
  match goal with |- context [if ?c then resolveAllOfInModel fuel ?a ?b ?d else _] =>
    destruct c;
    [destruct (resolveAllOfInModel fuel a b d) as [s1| | |] eqn:Hrec; try discriminate;
     apply IH in Hrec|] end;
    cbn [mbind outcome_bind];
    match goal with |- context [getObject ?sp refLoc] =>
      destruct (getObject sp refLoc) as [parent|]; [|discriminate] end;
    intros [= <-]; cbn [a_spec]; rewrite !names_updObject; congruence.
Qed.

Lemma resolveAllOfInDefinitions_names (fuel : nat) (st st' : AllOfState) :
  resolveAllOfInDefinitions fuel st = Ok st' -> documentNames (a_spec st') = documentNames (a_spec st).
Proof.
  unfold resolveAllOfInDefinitions.
  apply (forEach_preserves (fun s => documentNames (a_spec s) = documentNames (a_spec st))); [|reflexivity].
  intros modelName s s' _ Hs Hrun. apply resolveAllOfInModel_names in Hrun. congruence.
Qed.

Lemma names_set_definitions (defs : list (string * SchemaObject)) (spec : SwaggerObject) :
  obj_keys defs = obj_keys (definitions spec) -> documentNames (set_definitions defs spec) = documentNames spec.
Proof.
  intros H. unfold documentNames, set_definitions. cbn [definitions parameters paths].
  rewrite H. reflexivity.
Qed.

Lemma createPolymorphicTree_names (disc : string) (fuel : nat) :
  forall (name : string) (st st' : TreeState) (t : PolymorphicTree),
    createPolymorphicTree fuel name disc st = Ok (t, st') ->
    documentNames (t_spec st') = documentNames (t_spec st).
Proof.
  induction fuel as [|fuel IH]; intros name st st' t; cbn [createPolymorphicTree];
    [discriminate|].
  destruct (blank name); [discriminate|]. destruct (blank disc); [discriminate|].
  match goal with |- context [forEach ?f ?l ?acc] =>
    destruct (forEach f l acc) as [[root1 st1]| | |] eqn:Hloop end;
    cbn [mbind outcome_bind]; try discriminate.
  intros [= <- <-]. cbn [t_spec].
  apply (forEach_preserves (fun acc => documentNames (t_spec (snd acc)) = documentNames (t_spec st))) in Hloop.
  - exact Hloop.
  - intros c [r s] [r' s'] _ Hs. cbn [snd] in *.
    destruct (createPolymorphicTree fuel c disc s) as [[childObj s1]| | |] eqn:Hc;
      cbn [mbind outcome_bind]; try discriminate.
    intros [= <- <-]. apply IH in Hc. congruence.
  - cbn [snd t_spec]. apply names_set_definitions. apply obj_keys_alter.
Qed.

Lemma names_fold_updObject (f : SchemaObject -> SchemaObject) (refs : list RefEntry)
    (spec : SwaggerObject) :
  documentNames (fold_left (fun spec r => updObject spec (location r) f) refs spec) = documentNames spec.
Proof.
  revert spec. induction refs as [|r refs IH]; intros spec; cbn [fold_left]; [reflexivity|].
  rewrite IH. apply names_updObject.
Qed.

Lemma updateReferencesWithOneOf_names (subTreeMap : list (string * PolymorphicTree))
    (references : list RefEntry) (spec : SwaggerObject) :
  documentNames (updateReferencesWithOneOf subTreeMap references spec) = documentNames spec.
Proof.
  unfold updateReferencesWithOneOf. generalize (map snd subTreeMap) as nodes.
  intros nodes. revert spec. induction nodes as [|node nodes IH]; intros spec; cbn [fold_left];
    [reflexivity|].
  rewrite IH. destruct (children node); [reflexivity|]. apply names_fold_updObject.
Qed.

Lemma resolveDiscriminator_names (fuel : nat) (spec : SwaggerObject) (st : TreeState) :
  resolveDiscriminator fuel spec = Ok st -> documentNames (t_spec st) = documentNames spec.
Proof.
  unfold resolveDiscriminator.
  apply (forEach_preserves (fun s => documentNames (t_spec s) = documentNames spec)); [|reflexivity].
  intros [modelName model] s s' _ Hs. cbn [fst snd].
  destruct (discriminator model) as [discriminator0|]; [|intros [= <-]; exact Hs].
  destruct (String.eqb discriminator0 EmptyString); [intros [= <-]; exact Hs|].
  destruct (obj_get modelName (t_subTreeMap s)) as [node|]; cbn [mbind outcome_bind].
  - intros [= <-]. cbn [t_spec]. rewrite updateReferencesWithOneOf_names. exact Hs.
  - destruct (createPolymorphicTree fuel modelName discriminator0 s) as [[t s1]| | |] eqn:Hc;
      cbn [mbind outcome_bind]; try discriminate.
    intros [= <-]. cbn [t_spec snd]. rewrite updateReferencesWithOneOf_names.
    apply createPolymorphicTree_names in Hc. congruence.
Qed.

Lemma obj_keys_map_snd {A : Type} (f : A -> A) (o : list (string * A)) :
  obj_keys (map (fun kv => (fst kv, f (snd kv))) o) = obj_keys o.
Proof. unfold obj_keys. rewrite map_map. reflexivity. Qed.

Lemma names_deleteReferencesToAllOf (spec : SwaggerObject) :
  documentNames (deleteReferencesToAllOf spec) = documentNames spec.
Proof. apply names_set_definitions. apply obj_keys_map_snd. Qed.

Lemma names_setAdditionalPropertiesFalse (spec : SwaggerObject) :
  documentNames (setAdditionalPropertiesFalse spec) = documentNames spec.
Proof. apply names_set_definitions. apply obj_keys_map_snd. Qed.

(** X3. The passes of [resolve()] over the definitions, with any
    options: when they return, the document has the same definitions,
    parameters and paths by name, in the same order. No pass adds,
    removes or renames an entry. *)
Theorem resolvePasses_keeps_names :
  forall (options : Options) (fuel : nat) (spec spec' : SwaggerObject),
    resolvePasses options fuel spec = Ok spec' ->
    documentNames spec' = documentNames spec.
Proof.
  intros options fuel spec spec'. unfold resolvePasses.
  assert (forall (b : bool) (s s' : SwaggerObject),
            (if b then st ← resolveAllOfInDefinitions fuel (mkAllOfState s ∅); Ok (a_spec st)
             else Ok s) = Ok s' -> documentNames s' = documentNames s) as H1.
  { intros [|] s s'; [|intros [= <-]; reflexivity].
    destruct (resolveAllOfInDefinitions fuel (mkAllOfState s ∅)) as [st| | |] eqn:Hrun;
      cbn [mbind outcome_bind]; try discriminate.
    intros [= <-]. apply resolveAllOfInDefinitions_names in Hrun. exact Hrun. }
  assert (forall (b : bool) (s s' : SwaggerObject),
            (if b then st ← resolveDiscriminator fuel s; Ok (t_spec st) else Ok s) = Ok s' ->
            documentNames s' = documentNames s) as H2.
  { intros [|] s s'; [|intros [= <-]; reflexivity].
    destruct (resolveDiscriminator fuel s) as [st| | |] eqn:Hrun;
      cbn [mbind outcome_bind]; try discriminate.
    intros [= <-]. apply resolveDiscriminator_names in Hrun. exact Hrun. }
  match goal with |- (?m ≫= _) = _ -> _ => destruct m as [s1| | |] eqn:E1 end;
    cbn [mbind outcome_bind]; try discriminate.
  match goal with |- (?m ≫= _) = _ -> _ => destruct m as [s2| | |] eqn:E2 end;
    cbn [mbind outcome_bind]; try discriminate.
  intros [= <-]. apply H1 in E1. apply H2 in E2.
  destruct (shouldSetAdditionalPropertiesFalse options), (shouldResolveAllOf options);
    rewrite ?names_setAdditionalPropertiesFalse, ?names_deleteReferencesToAllOf; congruence.
Qed.

Lemma resolvePasses_keeps_names_witness :
  resolvePasses (mkOptions true true true) 3 specAnimals = Ok animalsResolved
  /\ documentNames animalsResolved = documentNames specAnimals.
Proof.
  assert (resolvePasses (mkOptions true true true) 3 specAnimals = Ok animalsResolved) as H
    by (vm_compute; reflexivity).
  split; [exact H|].
  apply (resolvePasses_keeps_names (mkOptions true true true) 3 specAnimals animalsResolved H).
Defined.

Lemma In_map_snd {A : Type} (f : A -> A) (k : string) (v : A) (o : list (string * A)) :
  In (k, v) (map (fun kv => (fst kv, f (snd kv))) o) -> exists v0, In (k, v0) o /\ v = f v0.
Proof.
  intros H. apply in_map_iff in H. destruct H as [[k0 v0] [Heq Hin]].
  cbn in Heq. injection Heq as -> <-. exists v0. auto.
Qed.

Lemma allOf_closeModel (model : SchemaObject) : allOf (closeModel model) = allOf model.
Proof. unfold closeModel. destruct (_ && _); [destruct model|]; reflexivity. Qed.

(** X4. With [shouldResolveAllOf] set, no definition of the document
    that the passes return has an [allOf] member. *)
Theorem resolvePasses_drops_composition_lists :
  forall (options : Options) (fuel : nat) (spec spec' : SwaggerObject)
         (k : string) (def : SchemaObject),
    shouldResolveAllOf options = true ->
    resolvePasses options fuel spec = Ok spec' ->
    In (k, def) (definitions spec') ->
    allOf def = None.
Proof.
  intros options fuel spec spec' k def Hopt. unfold resolvePasses. rewrite Hopt.
  match goal with |- (?m ≫= _) = _ -> _ => destruct m as [s1| | |] end;
    cbn [mbind outcome_bind]; try discriminate.
  match goal with |- (?m ≫= _) = _ -> _ => destruct m as [s2| | |] end;
    cbn [mbind outcome_bind]; try discriminate.
  intros [= <-] Hin.
  assert (forall d, In (k, d) (definitions (deleteReferencesToAllOf s2)) -> allOf d = None) as Hdel.
  { intros d Hd. unfold deleteReferencesToAllOf, set_definitions in Hd.
    cbn [definitions] in Hd. apply In_map_snd in Hd. destruct Hd as [d0 [_ ->]].
    destruct d0; reflexivity. }
  destruct (shouldSetAdditionalPropertiesFalse options); [|apply Hdel; exact Hin].
  unfold setAdditionalPropertiesFalse, set_definitions in Hin. cbn [definitions] in Hin.
  apply In_map_snd in Hin. destruct Hin as [d0 [Hd0 ->]].
  rewrite allOf_closeModel. apply Hdel. exact Hd0.
Qed.

Lemma resolvePasses_drops_composition_lists_witness :
  In ("Cat", default emptySchema (obj_get "Cat" (definitions animalsResolved)))
    (definitions animalsResolved)
  /\ allOf (default emptySchema (obj_get "Cat" (definitions animalsResolved))) = None.
Proof.
  assert (In ("Cat", default emptySchema (obj_get "Cat" (definitions animalsResolved)))
            (definitions animalsResolved)) as H by (vm_compute; tauto).
  split; [exact H|].
  apply (resolvePasses_drops_composition_lists (mkOptions true true true) 3 specAnimals
           animalsResolved "Cat" _ eq_refl); [vm_compute; reflexivity | exact H].
Defined.

Lemma closeModel_idem (model : SchemaObject) : closeModel (closeModel model) = closeModel model.
Proof.
  unfold closeModel, additionalPropertiesFalsy, noProperties.
  destruct model as [? ? [props|] ? ? ? ? ? ? ? ? ? [[[|]|s]|]]; cbn; try reflexivity;
    destruct (length (obj_keys props) =? 0)%nat eqn:Hlen; cbn; rewrite ?Hlen; reflexivity.
Qed.

(** X5. [setAdditionalPropertiesFalse()] run twice gives the same
    document as run once. *)
Theorem setAdditionalPropertiesFalse_idempotent :
  forall spec : SwaggerObject,
    setAdditionalPropertiesFalse (setAdditionalPropertiesFalse spec)
    = setAdditionalPropertiesFalse spec.
Proof.
  intros spec. unfold setAdditionalPropertiesFalse, set_definitions.
  cbn [definitions parameters paths]. f_equal. rewrite map_map. apply map_ext.
  intros [k model]. cbn [fst snd]. rewrite closeModel_idem. reflexivity.
Qed.

(** X6. With [shouldSetAdditionalPropertiesFalse] set, every definition
    of the returned document that has at least one property has an
    [additionalProperties] member. *)
Theorem resolvePasses_settles_additional_properties :
  forall (options : Options) (fuel : nat) (spec spec' : SwaggerObject)
         (k : string) (def : SchemaObject),
    shouldSetAdditionalPropertiesFalse options = true ->
    resolvePasses options fuel spec = Ok spec' ->
    In (k, def) (definitions spec') ->
    noProperties def = false ->
    additionalProperties def <> None.
Proof.
  intros options fuel spec spec' k def Hopt. unfold resolvePasses. rewrite Hopt.
  match goal with |- (?m ≫= _) = _ -> _ => destruct m as [s1| | |] end;
    cbn [mbind outcome_bind]; try discriminate.
  match goal with |- (?m ≫= _) = _ -> _ => destruct m as [s2| | |] end;
    cbn [mbind outcome_bind]; try discriminate.
  intros [= <-] Hin. unfold setAdditionalPropertiesFalse, set_definitions in Hin.
  cbn [definitions] in Hin. apply In_map_snd in Hin. destruct Hin as [d0 [_ ->]].
  unfold closeModel, additionalPropertiesFalsy, noProperties.
  destruct d0 as [? ? [props|] ? ? ? ? ? ? ? ? ? [[[|]|s]|]]; cbn; try discriminate;
    destruct (length (obj_keys props) =? 0)%nat eqn:Hlen; cbn; rewrite ?Hlen; discriminate.
Qed.

Lemma resolvePasses_settles_additional_properties_witness :
  noProperties (default emptySchema (obj_get "Cat" (definitions animalsResolved))) = false
  /\ additionalProperties (default emptySchema (obj_get "Cat" (definitions animalsResolved)))
     <> None.
Proof.
  split; [reflexivity|].
  apply (resolvePasses_settles_additional_properties (mkOptions true true true) 3 specAnimals
           animalsResolved "Cat" _ eq_refl);
    [vm_compute; reflexivity | vm_compute; tauto | reflexivity].
Defined.

Lemma discriminator_free_pass (fuel : nat) (references : list RefEntry)
    (l : list (string * SchemaObject)) (st : TreeState) :
  (forall kv, In kv l -> truthy_str (discriminator (snd kv)) = false) ->
  forEach
    (fun modelEntry st =>
       let modelName := fst modelEntry in
       match discriminator (snd modelEntry) with
       | Some discriminator0 =>
           if String.eqb discriminator0 EmptyString then Ok st
           else
             st ← match obj_get modelName (t_subTreeMap st) with
                  | Some _ => Ok st
                  | None => r ← createPolymorphicTree fuel modelName discriminator0 st; Ok (snd r)
                  end;
             Ok (mkTreeState
                   (updateReferencesWithOneOf (t_subTreeMap st) references (t_spec st))
                   (t_subTreeMap st) (t_trace st))
       | None => Ok st
       end)
    l st = Ok st.
Proof.
  induction l as [|[k d] l IH]; intros Hall; cbn [forEach]; [reflexivity|].
  assert (truthy_str (discriminator d) = false) as Hd by (apply (Hall (k, d)); left; reflexivity).
  cbn [fst snd]. destruct (discriminator d) as [d0|]; cbn in Hd.
  - apply negb_false_iff in Hd. rewrite Hd. cbn [mbind outcome_bind].
    apply IH. intros kv Hkv. apply Hall. right. exact Hkv.
  - cbn [mbind outcome_bind]. apply IH. intros kv Hkv. apply Hall. right. exact Hkv.
Qed.

(** X7. [resolveDiscriminator()] on a document in which no definition
    has a truthy [discriminator] returns with the document as it was: no
    tree is built and no reference is rewritten, whatever the fuel. *)
Theorem resolveDiscriminator_without_discriminators :
  forall (fuel : nat) (spec : SwaggerObject),
    (forall kv, In kv (definitions spec) -> truthy_str (discriminator (snd kv)) = false) ->
    resolveDiscriminator fuel spec = Ok (mkTreeState spec [] []).
Proof.
  intros fuel spec Hall. unfold resolveDiscriminator. apply discriminator_free_pass. exact Hall.
Qed.

Lemma resolveDiscriminator_without_discriminators_witness :
  (forall kv, In kv (definitions specPC) -> truthy_str (discriminator (snd kv)) = false)
  /\ resolveDiscriminator 0 specPC = Ok (mkTreeState specPC [] []).
Proof.
  assert (forall kv, In kv (definitions specPC) -> truthy_str (discriminator (snd kv)) = false)
    as H by (intros kv [<-|[<-|[]]]; reflexivity).
  split; [exact H|]. apply (resolveDiscriminator_without_discriminators 0 specPC H).
Defined.

Lemma flatten_plain (fuel : nat) (spec : SwaggerObject) (l : list string) :
  (forall kv, In kv (definitions spec) -> allOf (snd kv) = None) ->
  (forall k, In k l -> In k (obj_keys (definitions spec))) ->
  forall resolved : gset string,
    exists resolved' : gset string,
      forEach
        (fun modelName st =>
           resolveAllOfInModel (S fuel) ["definitions"; modelName]
             (Some ("/definitions/" +:+ modelName)) st)
        l (mkAllOfState spec resolved) = Ok (mkAllOfState spec resolved').
Proof.
  intros Hplain. induction l as [|k l IH]; intros Hl resolved; cbn [forEach].
  - exists resolved. reflexivity.
  - destruct (obj_get_keys k (definitions spec)) as [d Hd]; [apply Hl; left; reflexivity|].
    assert (allOf d = None) as Hall by (apply (Hplain (k, d)), obj_get_In; exact Hd).
    assert (getObject spec ["definitions"; k] = Some d) as Hget.
    { cbn. rewrite Hd. reflexivity. }
    assert (exists resolved1,
              resolveAllOfInModel (S fuel) ["definitions"; k] (Some ("/definitions/" +:+ k))
                (mkAllOfState spec resolved) = Ok (mkAllOfState spec resolved1)) as [resolved1 Hstep].
    { cbn [resolveAllOfInModel a_spec a_resolved]. rewrite Hget.
      change (("/definitions/" +:+ k) =? EmptyString) with false.
      change (starts_with_hash ("/definitions/" +:+ k)) with false. cbv iota.
      case_bool_decide; [exists resolved; reflexivity|].
      rewrite Hall. eexists. reflexivity. }
    rewrite Hstep. cbn [mbind outcome_bind]. apply IH.
    intros k' Hk'. apply Hl. right. exact Hk'.
Qed.

(** X8. [resolveAllOfInDefinitions()] on a document in which no
    definition has an [allOf] member returns, and leaves the document as
    it was. *)
Theorem flattening_without_composition :
  forall (fuel : nat) (spec : SwaggerObject),
    (forall kv, In kv (definitions spec) -> allOf (snd kv) = None) ->
    exists st : AllOfState,
      resolveAllOfInDefinitions (S fuel) (mkAllOfState spec ∅) = Ok st /\ a_spec st = spec.
Proof.
  intros fuel spec Hplain. unfold resolveAllOfInDefinitions. cbn [a_spec].
  destruct (flatten_plain fuel spec (obj_keys (definitions spec)) Hplain (fun k H => H) ∅)
    as [resolved' Hrun].
  exists (mkAllOfState spec resolved'). split; [exact Hrun | reflexivity].
Qed.

Lemma flattening_without_composition_witness :
  (forall kv, In kv (definitions (mkSwagger [("P", parentP)] [] [])) -> allOf (snd kv) = None)
  /\ exists st : AllOfState,
      resolveAllOfInDefinitions 1 (mkAllOfState (mkSwagger [("P", parentP)] [] []) ∅) = Ok st
      /\ a_spec st = mkSwagger [("P", parentP)] [] [].
Proof.
  assert (forall kv, In kv (definitions (mkSwagger [("P", parentP)] [] [])) ->
                     allOf (snd kv) = None) as H by (intros kv [<-|[]]; reflexivity).
  split; [exact H|]. apply (flattening_without_composition 0 _ H).
Defined.

Lemma deleteReferencesToAllOf_plain (spec : SwaggerObject) :
  (forall kv, In kv (definitions spec) -> allOf (snd kv) = None) ->
  deleteReferencesToAllOf spec = spec.
Proof.
  intros Hplain. unfold deleteReferencesToAllOf, set_definitions. destruct spec as [defs ps pa].
  cbn [definitions parameters paths] in *. f_equal.
  induction defs as [|[k d] defs IH]; cbn [map]; [reflexivity|].
  rewrite IH by (intros kv Hkv; apply Hplain; right; exact Hkv).
  assert (allOf d = None) as Hd by (apply (Hplain (k, d)); left; reflexivity).
  cbn [fst snd]. destruct d; cbn in Hd; subst; reflexivity.
Qed.

(** X9. On a document whose definitions have neither an [allOf] member
    nor a truthy [discriminator], the passes return, and do one thing at
    most: [setAdditionalPropertiesFalse()] when its option is set. *)
Theorem resolvePasses_on_plain_document :
  forall (options : Options) (fuel : nat) (spec : SwaggerObject),
    (forall kv, In kv (definitions spec) -> plainDefinition (snd kv) = true) ->
    resolvePasses options (S fuel) spec =
    Ok (if shouldSetAdditionalPropertiesFalse options
        then setAdditionalPropertiesFalse spec else spec).
Proof.
  intros options fuel spec Hplain.
  assert (forall kv, In kv (definitions spec) -> allOf (snd kv) = None) as Hall.
  { intros kv Hkv. specialize (Hplain kv Hkv). unfold plainDefinition in Hplain.
    apply andb_prop in Hplain. destruct Hplain as [H _].
    destruct (allOf (snd kv)); [discriminate | reflexivity]. }
  assert (forall kv, In kv (definitions spec) -> truthy_str (discriminator (snd kv)) = false)
    as Hdisc.
  { intros kv Hkv. specialize (Hplain kv Hkv). unfold plainDefinition in Hplain.
    apply andb_prop in Hplain. destruct Hplain as [_ H]. apply negb_true_iff in H. exact H. }
  unfold resolvePasses.
  assert ((if shouldResolveAllOf options
           then st ← resolveAllOfInDefinitions (S fuel) (mkAllOfState spec ∅); Ok (a_spec st)
           else Ok spec) = Ok spec) as ->.
  { destruct (shouldResolveAllOf options); [|reflexivity].
    unfold resolveAllOfInDefinitions. cbn [a_spec].
    destruct (flatten_plain fuel spec (obj_keys (definitions spec)) Hall (fun k H => H) ∅)
      as [resolved' ->].
    reflexivity. }
  cbn [mbind outcome_bind].
  assert ((if shouldResolveDiscriminator options
           then st ← resolveDiscriminator (S fuel) spec; Ok (t_spec st)
           else Ok spec) = Ok spec) as ->.
  { destruct (shouldResolveDiscriminator options); [|reflexivity].
    unfold resolveDiscriminator. rewrite discriminator_free_pass by exact Hdisc. reflexivity. }
  cbn [mbind outcome_bind]. rewrite (deleteReferencesToAllOf_plain spec Hall).
  destruct (shouldResolveAllOf options); reflexivity.
Qed.

Lemma resolvePasses_on_plain_document_witness :
  (forall kv, In kv (definitions (mkSwagger [("P", parentP)] [] [])) -> plainDefinition (snd kv) = true)
  /\ resolvePasses (mkOptions true true true) 1 (mkSwagger [("P", parentP)] [] [])
     = Ok (setAdditionalPropertiesFalse (mkSwagger [("P", parentP)] [] [])).
Proof.
  assert (forall kv, In kv (definitions (mkSwagger [("P", parentP)] [] [])) ->
                     plainDefinition (snd kv) = true) as H by (intros kv [<-|[]]; reflexivity).
  split; [exact H|].
  apply (resolvePasses_on_plain_document (mkOptions true true true) 0 _ H).
Defined.

Lemma forEach_app {A S : Type} (body : A -> S -> outcome S) (l1 l2 : list A) (st : S) :
  forEach body (l1 ++ l2) st = st' ← forEach body l1 st; forEach body l2 st'.
Proof.
  revert st. induction l1 as [|x l1 IH]; intros st; cbn [forEach app]; [reflexivity|].
  destruct (body x st) as [s1| | |]; cbn [mbind outcome_bind]; [apply IH | | |]; reflexivity.
Qed.

(** X10. [resolveDiscriminator()] throws at the first definition with a
    truthy [discriminator] when the name of the definition or the
    discriminator is blank (empty once trimmed). The message is the one
    of the check of [createPolymorphicTree] that fails first: the name
    is checked before the discriminator. *)
Theorem blank_discriminator_fails :
  forall (fuel : nat) (spec : SwaggerObject) (pre rest : list (string * SchemaObject))
         (n disc : string) (d : SchemaObject),
    definitions spec = pre ++ (n, d) :: rest ->
    (forall kv, In kv pre -> truthy_str (discriminator (snd kv)) = false) ->
    discriminator d = Some disc ->
    disc <> EmptyString ->
    blank n || blank disc = true ->
    resolveDiscriminator (S fuel) spec =
    Throw (if blank n
           then "name is a required property of type string and it cannot be an empty string."
           else "discriminator is a required property of type string and it cannot be an empty string.").
Proof.
  intros fuel spec pre rest n disc d Hdefs Hpre Hd Hne Hblank.
  unfold resolveDiscriminator. rewrite Hdefs, forEach_app.
  rewrite discriminator_free_pass by exact Hpre.
  cbn [mbind outcome_bind forEach fst snd t_subTreeMap obj_get]. rewrite Hd.
  apply String.eqb_neq in Hne. rewrite Hne.
  cbn [createPolymorphicTree].
  destruct (blank n); [reflexivity|]. cbn in Hblank. rewrite Hblank. reflexivity.
Qed.

Lemma blank_discriminator_fails_witness :
  resolveDiscriminator 1 (mkSwagger [("P", parentP); ("Q", set_discriminator (Some " ") parentP)] [] [])
  = Throw "discriminator is a required property of type string and it cannot be an empty string.".
Proof.
  apply (blank_discriminator_fails 0
           (mkSwagger [("P", parentP); ("Q", set_discriminator (Some " ") parentP)] [] [])
           [("P", parentP)] [] "Q" " " (set_discriminator (Some " ") parentP)).
  - reflexivity.
  - intros kv [<-|[]]. reflexivity.
  - reflexivity.
  - discriminate.
  - reflexivity.
Defined.

End PassFacts.

(** ** The constraint on the discriminator property *)

Module PinFacts.
Import Resolver Examples Vocabulary JsFacts ExpansionFacts.

Lemma obj_has_alter {A : Type} (f : A -> A) (k k' : string) (o : list (string * A)) :
  obj_has k (obj_alter f k' o) = obj_has k o.
Proof.
  unfold obj_has. rewrite obj_get_alter.
  destruct (String.eqb k k'); [destruct (obj_get k o)|]; reflexivity.
Qed.

Lemma pin_shapes (defs : list (string * SchemaObject)) (n disc : string)
    (def : SchemaObject) (props : list (string * SchemaObject)) :
  properties (pinDiscriminator defs n disc def) = Some props ->
  type (pinDiscriminator defs n disc def) = Some "object"
  /\ (obj_has disc props = true -> In disc (requiredOrEmpty (pinDiscriminator defs n disc def))).
Proof.
  unfold pinDiscriminator.
  destruct (properties def) as [props0|] eqn:Hprops; [|intros H; congruence].
  destruct (obj_get disc props0) as [d|] eqn:Hd.
  - intros _. split.
    + unfold requireDiscriminator. destruct def as [? ? ? ? ? [req|]]; cbn;
        [destruct (arr_includes disc req)|]; reflexivity.
    + intros _. unfold requireDiscriminator, requiredOrEmpty.
      destruct def as [? ? ? ? ? [req|]]; cbn.
      * destruct (arr_includes disc req) eqn:Hinc; cbn.
        -- apply arr_includes_In. exact Hinc.
        -- apply in_or_app. right. left. reflexivity.
      * left. reflexivity.
  - intros Hp. split; [destruct def; reflexivity|].
    assert (props = props0) as -> by (destruct def; cbn in *; congruence).
    unfold obj_has. rewrite Hd. discriminate.
Qed.

Lemma pin_Shaped (disc : string) (defs0 defs : list (string * SchemaObject)) (n m : string) :
  Shaped disc defs m -> Shaped disc (obj_alter (pinDiscriminator defs0 n disc) n defs) m.
Proof.
  intros Hm def props. rewrite obj_get_alter.
  destruct (String.eqb_spec m n) as [->|Hne]; [|apply Hm].
  destruct (obj_get n defs) as [def0|]; cbn; [|discriminate].
  intros [= <-]. apply pin_shapes.
Qed.

Lemma pin_Shaped_self (disc : string) (defs0 defs : list (string * SchemaObject)) (n : string) :
  Shaped disc (obj_alter (pinDiscriminator defs0 n disc) n defs) n.
Proof.
  intros def props. rewrite obj_get_alter, String.eqb_refl.
  destruct (obj_get n defs) as [def0|]; cbn; [|discriminate].
  intros [= <-]. apply pin_shapes.
Qed.

Lemma createPolymorphicTree_shapes (disc : string) (fuel : nat) :
  forall (name : string) (st st' : TreeState) (t : PolymorphicTree),
    createPolymorphicTree fuel name disc st = Ok (t, st') ->
    (forall m, Shaped disc (defsOf st) m -> Shaped disc (defsOf st') m)
    /\ (forall m, In m (treeNames t) -> Shaped disc (defsOf st') m).
Proof.
  induction fuel as [|fuel IH]; intros name st st' t; cbn [createPolymorphicTree];
    [discriminate|].
  destruct (blank name); [discriminate|]. destruct (blank disc); [discriminate|].
  match goal with |- context [forEach ?f ?l (?r0, ?s0)] =>
    set (start := s0);
    assert (forall (l' : list string) (root root' : PolymorphicTree) (s s' : TreeState),
              forEach f l' (root, s) = Ok (root', s') ->
              (forall m, Shaped disc (defsOf s) m -> Shaped disc (defsOf s') m)
              /\ ((forall m, In m (treeNames root) -> Shaped disc (defsOf s) m) ->
                  forall m, In m (treeNames root') -> Shaped disc (defsOf s') m)) as Hloop
  end.
  { induction l' as [|c l' IHl]; intros root root' s s'; cbn [forEach].
    - intros [= <- <-]. auto.
    - destruct (createPolymorphicTree fuel c disc s) as [[childObj s1]| | |] eqn:Hc;
        cbn [mbind outcome_bind]; try discriminate.
      intros Hrest. destruct (IH _ _ _ _ Hc) as [P1 T1].
      destruct (IHl _ _ _ _ Hrest) as [P2 T2].
      split; [auto|]. intros Hroot. apply T2. intros m Hm.
      apply treeNames_addChild in Hm. destruct Hm as [Hm|Hm]; auto. }
  match goal with |- context [forEach ?f ?l ?acc] =>
    destruct (forEach f l acc) as [[root1 st1]| | |] eqn:Hrun end;
    cbn [mbind outcome_bind]; try discriminate.
  intros [= <- <-]. apply Hloop in Hrun. destruct Hrun as [P T].
  unfold defsOf in *. cbn [t_spec definitions set_definitions] in *.
  split.
  - intros m Hm. apply P. apply pin_Shaped. exact Hm.
  - apply T. intros m [<-|[]]. apply pin_Shaped_self.
Qed.

(** X11. After [createPolymorphicTree] has returned a tree, every
    definition named in the tree that has a [properties] member has the
    type object, and when its properties include the discriminator, its
    [required] list names the discriminator. *)
Theorem tree_definitions_are_objects :
  forall (fuel : nat) (name disc : string) (st st' : TreeState) (t : PolymorphicTree)
         (n : string) (def : SchemaObject) (props : list (string * SchemaObject)),
    createPolymorphicTree fuel name disc st = Ok (t, st') ->
    In n (treeNames t) ->
    obj_get n (defsOf st') = Some def ->
    properties def = Some props ->
    type def = Some "object"
    /\ (obj_has disc props = true -> In disc (requiredOrEmpty def)).
Proof.
  intros fuel name disc st st' t n def props Hrun Hn Hdef Hprops.
  destruct (createPolymorphicTree_shapes disc fuel name st st' t Hrun) as [_ T].
  exact (T n Hn def props Hdef Hprops).
Qed.

Lemma tree_definitions_are_objects_witness :
  type (definitionAfter "Cat") = Some "object"
  /\ (obj_has "kind" (propertiesOrEmpty (definitionAfter "Cat")) = true ->
      In "kind" (requiredOrEmpty (definitionAfter "Cat"))).
Proof.
  apply (tree_definitions_are_objects 2 "Animal" "kind" (initialTreeState specAnimals)
           animalsState animalsTree "Cat" (definitionAfter "Cat")).
  - reflexivity.
  - vm_compute. tauto.
  - reflexivity.
  - reflexivity.
Defined.

Lemma obj_alter_const_idem {A : Type} (v : A) (k : string) (o : list (string * A)) :
  obj_alter (fun _ => v) k (obj_alter (fun _ => v) k o) = obj_alter (fun _ => v) k o.
Proof.
  induction o as [|[k' v'] o IH]; cbn; [reflexivity|].
  destruct (String.eqb k k') eqn:Hk; cbn; rewrite Hk; [reflexivity|]. rewrite IH. reflexivity.
Qed.

Lemma arr_includes_app_r (x : string) (l : list string) : arr_includes x (l ++ [x]) = true.
Proof. apply arr_includes_In, in_or_app. right. left. reflexivity. Qed.

Lemma arr_includes_head (x : string) (l : list string) : arr_includes x (x :: l) = true.
Proof. apply arr_includes_In. left. reflexivity. Qed.

Lemma inlineReferencedEnum_clears (defs : list (string * SchemaObject)) (d : SchemaObject) :
  truthy_str (ref (inlineReferencedEnum defs d)) = false.
Proof.
  unfold inlineReferencedEnum. destruct (ref d) as [r|] eqn:Hr; [|rewrite Hr; reflexivity].
  destruct (String.eqb r EmptyString) eqn:Hempty.
  - rewrite Hr. cbn. rewrite Hempty. reflexivity.
  - match goal with |- truthy_str (ref (set_ref None ?x)) = false => destruct x; reflexivity end.
Qed.

Lemma inlineReferencedEnum_cleared (defs : list (string * SchemaObject)) (d : SchemaObject) :
  truthy_str (ref d) = false -> inlineReferencedEnum defs d = d.
Proof.
  unfold inlineReferencedEnum. destruct (ref d) as [r|]; [|reflexivity].
  cbn. destruct (String.eqb r EmptyString); [reflexivity | discriminate].
Qed.

Lemma ref_disableModelAsString (d : SchemaObject) : ref (disableModelAsString d) = ref d.
Proof. unfold disableModelAsString. destruct (x_ms_enum d); [destruct d|]; reflexivity. Qed.

Lemma ref_defaultStringType (d : SchemaObject) : ref (defaultStringType d) = ref d.
Proof. unfold defaultStringType. destruct (truthy_str (type d)); [|destruct d]; reflexivity. Qed.

Lemma ref_constrainEnum (val : string) (isBase : bool) (d : SchemaObject) :
  ref (constrainEnum val isBase d) = ref d.
Proof.
  unfold constrainEnum. destruct (enum d) as [e|]; [destruct isBase; [destruct (arr_includes val e)|]|];
    destruct d; reflexivity.
Qed.

Lemma disableModelAsString_idem (d : SchemaObject) :
  disableModelAsString (disableModelAsString d) = disableModelAsString d.
Proof. destruct d as [? ? ? ? ? ? ? ? ? ? [[xn xm]|]]; reflexivity. Qed.

Lemma defaultStringType_idem (d : SchemaObject) :
  defaultStringType (defaultStringType d) = defaultStringType d.
Proof.
  unfold defaultStringType. destruct (truthy_str (type d)) eqn:Hty; [rewrite Hty; reflexivity|].
  destruct d; reflexivity.
Qed.

Lemma constrainEnum_idem (val : string) (isBase : bool) (d : SchemaObject) :
  constrainEnum val isBase (constrainEnum val isBase d) = constrainEnum val isBase d.
Proof.
  unfold constrainEnum. destruct d as [? ? ? ? ? ? ? ? ? [e|]]; cbn -[arr_includes].
  - destruct isBase; [destruct (arr_includes val e) eqn:Hinc|]; cbn -[arr_includes];
      rewrite ?Hinc, ?arr_includes_head; reflexivity.
  - destruct isBase; cbn -[arr_includes]; rewrite ?arr_includes_head; reflexivity.
Qed.

Lemma disableModelAsString_defaultStringType (d : SchemaObject) :
  disableModelAsString (defaultStringType d) = defaultStringType (disableModelAsString d).
Proof.
  unfold defaultStringType, disableModelAsString.
  destruct d as [? ty ? ? ? ? ? ? ? ? [[xn xm]|]]; cbn; destruct (truthy_str ty); reflexivity.
Qed.

Lemma disableModelAsString_constrainEnum (val : string) (isBase : bool) (d : SchemaObject) :
  disableModelAsString (constrainEnum val isBase d)
  = constrainEnum val isBase (disableModelAsString d).
Proof.
  unfold constrainEnum, disableModelAsString.
  destruct d as [? ? ? ? ? ? ? ? ? [e|] [[xn xm]|]]; cbn;
    destruct isBase; try destruct (arr_includes val e); reflexivity.
Qed.

Lemma defaultStringType_constrainEnum (val : string) (isBase : bool) (d : SchemaObject) :
  defaultStringType (constrainEnum val isBase d)
  = constrainEnum val isBase (defaultStringType d).
Proof.
  unfold constrainEnum, defaultStringType.
  destruct d as [? ty ? ? ? ? ? ? ? [e|]]; cbn -[truthy_str arr_includes];
    destruct (truthy_str ty) eqn:Hty; cbn -[truthy_str arr_includes];
    destruct isBase; try destruct (arr_includes val e);
    cbn -[truthy_str arr_includes]; rewrite ?Hty; reflexivity.
Qed.

Lemma pinProperty_idem (defs1 defs2 : list (string * SchemaObject)) (val : string)
    (isBase : bool) (d : SchemaObject) :
  pinProperty defs2 val isBase (pinProperty defs1 val isBase d) = pinProperty defs1 val isBase d.
Proof.
  unfold pinProperty.
  rewrite (inlineReferencedEnum_cleared defs2)
    by (rewrite ref_constrainEnum, ref_defaultStringType, ref_disableModelAsString;
        apply inlineReferencedEnum_clears).
  rewrite disableModelAsString_constrainEnum, disableModelAsString_defaultStringType,
    disableModelAsString_idem.
  rewrite defaultStringType_constrainEnum, defaultStringType_idem.
  apply constrainEnum_idem.
Qed.

(** X12. The constraint that [createPolymorphicTree] puts on a
    definition (type, [required], and the one-value enum of the
    discriminator property): applying it again to a definition that
    already went through it changes nothing, whatever became of the
    other definitions in between. *)
Theorem pinDiscriminator_idempotent :
  forall (defs1 defs2 : list (string * SchemaObject)) (name disc : string)
         (definition : SchemaObject),
    pinDiscriminator defs2 name disc (pinDiscriminator defs1 name disc definition)
    = pinDiscriminator defs1 name disc definition.
Proof.
  intros defs1 defs2 name disc definition.
  destruct (properties definition) as [props|] eqn:Hprops.
  - destruct (obj_get disc props) as [d|] eqn:Hd.
    + set (val := wireName name (requireDiscriminator disc (set_type (Some "object") definition))).
      set (isBase := truthy_str
                       (discriminator (requireDiscriminator disc (set_type (Some "object") definition)))).
      set (d1 := pinProperty defs1 val isBase d).
      assert (pinDiscriminator defs1 name disc definition
              = set_properties (Some (obj_alter (fun _ => d1) disc props))
                  (requireDiscriminator disc (set_type (Some "object") definition))) as ->.
      { unfold pinDiscriminator. rewrite Hprops, Hd. reflexivity. }
      unfold pinDiscriminator.
      assert (forall o x, properties (set_properties o x) = o) as Hsp by (intros o []; reflexivity).
      rewrite Hsp. rewrite obj_get_alter, String.eqb_refl, Hd. cbn [fmap option_fmap option_map].
      assert (forall o x, set_type (Some "object") (set_properties o
                (requireDiscriminator disc (set_type (Some "object") x)))
              = set_properties o (requireDiscriminator disc (set_type (Some "object") x))) as Hty.
      { intros o x. unfold requireDiscriminator. destruct x as [? ? ? ? ? [req|]]; cbn;
          [destruct (arr_includes disc req)|]; reflexivity. }
      rewrite Hty.
      assert (forall o x, requireDiscriminator disc (set_properties o
                (requireDiscriminator disc (set_type (Some "object") x)))
              = set_properties o (requireDiscriminator disc (set_type (Some "object") x))) as Hreq.
      { intros o x. unfold requireDiscriminator. destruct x as [? ? ? ? ? [req|]]; cbn.
        - destruct (arr_includes disc req) eqn:Hinc; cbn; [rewrite Hinc; reflexivity|].
          rewrite arr_includes_app_r. reflexivity.
        - rewrite String.eqb_refl. reflexivity. }
      rewrite Hreq.
      assert (forall o x, wireName name (set_properties o x) = wireName name x) as Hw
        by (intros o []; reflexivity).
      assert (forall o x, discriminator (set_properties o x) = discriminator x) as Hdi
        by (intros o []; reflexivity).
      rewrite Hw, Hdi. fold val. fold isBase.
      unfold d1 at 1. rewrite pinProperty_idem. fold d1.
      rewrite obj_alter_const_idem.
      assert (forall o x, set_properties o (set_properties o x) = set_properties o x) as Hss
        by (intros o []; reflexivity).
      apply Hss.
    + assert (pinDiscriminator defs1 name disc definition = set_type (Some "object") definition)
        as ->.
      { unfold pinDiscriminator. rewrite Hprops, Hd. reflexivity. }
      unfold pinDiscriminator.
      assert (properties (set_type (Some "object") definition) = Some props) as ->
        by (destruct definition; exact Hprops).
      rewrite Hd. destruct definition; reflexivity.
  - assert (pinDiscriminator defs1 name disc definition = definition) as ->.
    { unfold pinDiscriminator. rewrite Hprops. reflexivity. }
    unfold pinDiscriminator. rewrite Hprops. reflexivity.
Qed.

End PinFacts.

(** ** The rewriting of the reference sites *)

Module LinkFacts.
Import Resolver Links Examples Vocabulary JsFacts PassFacts.

Lemma schema_get_cons (t : string) (p' : list string) (s : SchemaObject) :
  schema_get (t :: p') s =
  if String.eqb t "items" then c ← items s; schema_get p' c
  else if String.eqb t "schema" then c ← schema s; schema_get p' c
  else if String.eqb t "additionalProperties" then
    match additionalProperties s with
    | Some (inr c) => schema_get p' c
    | _ => None
    end
  else
    match p' with
    | [] => None
    | k :: p'' =>
        if String.eqb t "properties" then
          o ← properties s; c ← obj_get k o; schema_get p'' c
        else if String.eqb t "discriminatorMap" then
          o ← discriminatorMap s; c ← obj_get k o; schema_get p'' c
        else if String.eqb t "allOf" then
          l ← allOf s; i ← parse_index k; c ← nth_error l i; schema_get p'' c
        else if String.eqb t "oneOf" then
          l ← oneOf s; i ← parse_index k; c ← nth_error l i; schema_get p'' c
        else None
    end.
Proof. reflexivity. Qed.

Lemma links_cons (t : string) (p' : list string) :
  links (t :: p') =
  if String.eqb t "items" then cons LItems <$> links p'
  else if String.eqb t "schema" then cons LSchema <$> links p'
  else if String.eqb t "additionalProperties" then cons LAdditional <$> links p'
  else
    match p' with
    | [] => None
    | k :: p'' =>
        if String.eqb t "properties" then cons (LProperty k) <$> links p''
        else if String.eqb t "discriminatorMap" then cons (LMap k) <$> links p''
        else if String.eqb t "allOf" then i ← parse_index k; cons (LAllOf i) <$> links p''
        else if String.eqb t "oneOf" then i ← parse_index k; cons (LOneOf i) <$> links p''
        else None
    end.
Proof. reflexivity. Qed.

Lemma bind_cons_links (l : link) (o : option (list link)) (s : SchemaObject) :
  (ls ← (cons l <$> o); get_links ls s) = c ← get_link l s; ls ← o; get_links ls c.
Proof.
  destruct o as [ls|]; cbn; [reflexivity|]. destruct (get_link l s); reflexivity.
Qed.

Lemma schema_get_links_aux (p : list string) :
  (forall s, schema_get p s = ls ← links p; get_links ls s)
  /\ (forall t s, schema_get (t :: p) s = ls ← links (t :: p); get_links ls s).
Proof.
  induction p as [|k p [IHp IHkp]].
  - split; [reflexivity|]. intros t s. rewrite schema_get_cons, links_cons.
    destruct (String.eqb t "items"); [rewrite bind_cons_links; reflexivity|].
    destruct (String.eqb t "schema"); [rewrite bind_cons_links; reflexivity|].
    destruct (String.eqb t "additionalProperties");
      [rewrite bind_cons_links; cbn; destruct (additionalProperties s) as [[|]|]; reflexivity|].
    reflexivity.
  - split; [exact (IHkp k)|]. intros t s. rewrite schema_get_cons, (links_cons t).
    destruct (String.eqb t "items").
    { rewrite bind_cons_links. cbn [get_link].
      destruct (items s) as [c|]; cbn [mbind option_bind]; [apply IHkp | reflexivity]. }
    destruct (String.eqb t "schema").
    { rewrite bind_cons_links. cbn [get_link].
      destruct (schema s) as [c|]; cbn [mbind option_bind]; [apply IHkp | reflexivity]. }
    destruct (String.eqb t "additionalProperties").
    { rewrite bind_cons_links. cbn [get_link].
      destruct (additionalProperties s) as [[b|c]|]; cbn [mbind option_bind];
        [reflexivity | apply IHkp | reflexivity]. }
    destruct (String.eqb t "properties").
    { rewrite bind_cons_links. cbn [get_link].
      destruct (properties s) as [o|]; cbn [mbind option_bind]; [|reflexivity].
      destruct (obj_get k o) as [c|]; cbn [mbind option_bind]; [apply IHp | reflexivity]. }
    destruct (String.eqb t "discriminatorMap").
    { rewrite bind_cons_links. cbn [get_link].
      destruct (discriminatorMap s) as [o|]; cbn [mbind option_bind]; [|reflexivity].
      destruct (obj_get k o) as [c|]; cbn [mbind option_bind]; [apply IHp | reflexivity]. }
    destruct (String.eqb t "allOf").
    { destruct (parse_index k) as [i|]; cbn [mbind option_bind].
      - rewrite bind_cons_links. cbn [get_link].
        destruct (allOf s) as [l|]; cbn [mbind option_bind]; [|reflexivity].
        destruct (nth_error l i) as [c|]; cbn [mbind option_bind]; [apply IHp | reflexivity].
      - destruct (allOf s); reflexivity. }
    destruct (String.eqb t "oneOf").
    { destruct (parse_index k) as [i|]; cbn [mbind option_bind].
      - rewrite bind_cons_links. cbn [get_link].
        destruct (oneOf s) as [l|]; cbn [mbind option_bind]; [|reflexivity].
        destruct (nth_error l i) as [c|]; cbn [mbind option_bind]; [apply IHp | reflexivity].
      - destruct (oneOf s); reflexivity. }
    reflexivity.
Qed.

Lemma schema_get_links (p : list string) (s : SchemaObject) :
  schema_get p s = ls ← links p; get_links ls s.
Proof. apply schema_get_links_aux. Qed.

Lemma schema_upd_cons (t : string) (p' : list string) (f : SchemaObject -> SchemaObject)
    (s : SchemaObject) :
  schema_upd (t :: p') f s =
  if String.eqb t "items" then set_items (schema_upd p' f <$> items s) s
  else if String.eqb t "schema" then set_schema (schema_upd p' f <$> schema s) s
  else if String.eqb t "additionalProperties" then
    match additionalProperties s with
    | Some (inr c) => set_additionalProperties (Some (inr (schema_upd p' f c))) s
    | _ => s
    end
  else
    match p' with
    | [] => s
    | k :: p'' =>
        if String.eqb t "properties" then
          set_properties (obj_alter (schema_upd p'' f) k <$> properties s) s
        else if String.eqb t "discriminatorMap" then
          set_discriminatorMap (obj_alter (schema_upd p'' f) k <$> discriminatorMap s) s
        else if String.eqb t "allOf" then
          match parse_index k with
          | Some i => set_allOf (arr_alter (schema_upd p'' f) i <$> allOf s) s
          | None => s
          end
        else if String.eqb t "oneOf" then
          match parse_index k with
          | Some i => set_oneOf (arr_alter (schema_upd p'' f) i <$> oneOf s) s
          | None => s
          end
        else s
    end.
Proof. reflexivity. Qed.

Lemma option_fmap_ext {A B : Type} (g g' : A -> B) (o : option A) :
  (forall a, g a = g' a) -> g <$> o = g' <$> o.
Proof. intros H. destruct o; cbn; [rewrite H|]; reflexivity. Qed.

Lemma obj_alter_ext {A : Type} (g g' : A -> A) (k : string) (o : list (string * A)) :
  (forall a, g a = g' a) -> obj_alter g k o = obj_alter g' k o.
Proof.
  intros H. induction o as [|[k' v] o IH]; cbn; [reflexivity|].
  destruct (String.eqb k k'); [rewrite H | rewrite IH]; reflexivity.
Qed.

Lemma arr_alter_ext {A : Type} (g g' : A -> A) (i : nat) (l : list A) :
  (forall a, g a = g' a) -> arr_alter g i l = arr_alter g' i l.
Proof.
  intros H. revert i. induction l as [|x l IH]; intros [|i]; cbn; try reflexivity.
  - rewrite H. reflexivity.
  - rewrite IH. reflexivity.
Qed.

Lemma obj_alter_id {A : Type} (k : string) (o : list (string * A)) :
  obj_alter (fun a => a) k o = o.
Proof.
  induction o as [|[k' v] o IH]; cbn; [reflexivity|].
  destruct (String.eqb k k'); [|rewrite IH]; reflexivity.
Qed.

Lemma arr_alter_id {A : Type} (i : nat) (l : list A) : arr_alter (fun a => a) i l = l.
Proof.
  revert i. induction l as [|x l IH]; intros [|i]; cbn; try reflexivity.
  rewrite IH. reflexivity.
Qed.

Lemma upd_or_keep_cons (l : link) (o : option (list link)) (f : SchemaObject -> SchemaObject)
    (s : SchemaObject) :
  upd_link l (upd_or_keep o f) s = upd_or_keep (cons l <$> o) f s.
Proof.
  destruct o as [ls|]; [reflexivity|]. unfold upd_or_keep. cbn [fmap option_fmap option_map].
  destruct l; cbn [upd_link].
  - destruct s as [? ? ? ? ? ? ? ? ? ? ? [c|]]; reflexivity.
  - destruct s as [? ? ? ? ? ? ? ? ? ? ? ? ? ? ? [c|]]; reflexivity.
  - destruct s as [? ? ? ? ? ? ? ? ? ? ? ? [[b|c]|]]; reflexivity.
  - destruct s as [? ? [o|]]; cbn; [rewrite obj_alter_id|]; reflexivity.
  - destruct s as [? ? ? ? ? ? ? ? ? ? ? ? ? [o|]]; cbn; [rewrite obj_alter_id|]; reflexivity.
  - destruct s as [? ? ? [o|]]; cbn; [rewrite arr_alter_id|]; reflexivity.
  - destruct s as [? ? ? ? [o|]]; cbn; [rewrite arr_alter_id|]; reflexivity.
Qed.

Lemma schema_upd_links_aux (f : SchemaObject -> SchemaObject) (p : list string) :
  (forall s, schema_upd p f s = upd_or_keep (links p) f s)
  /\ (forall t s, schema_upd (t :: p) f s = upd_or_keep (links (t :: p)) f s).
Proof.
  induction p as [|k p [IHp IHkp]].
  - split; [reflexivity|]. intros t s. rewrite schema_upd_cons, links_cons.
    destruct (String.eqb t "items"); [reflexivity|].
    destruct (String.eqb t "schema"); [reflexivity|].
    destruct (String.eqb t "additionalProperties"); [reflexivity|].
    reflexivity.
  - split; [exact (IHkp k)|]. intros t s. rewrite schema_upd_cons, (links_cons t).
    destruct (String.eqb t "items").
    { rewrite (option_fmap_ext _ _ _ (IHkp k)). apply (upd_or_keep_cons LItems). }
    destruct (String.eqb t "schema").
    { rewrite (option_fmap_ext _ _ _ (IHkp k)). apply (upd_or_keep_cons LSchema). }
    destruct (String.eqb t "additionalProperties").
    { rewrite <- (upd_or_keep_cons LAdditional). cbn [upd_link].
      destruct (additionalProperties s) as [[b|c]|]; [reflexivity | rewrite IHkp | ]; reflexivity. }
    destruct (String.eqb t "properties").
    { rewrite <- (upd_or_keep_cons (LProperty k)). cbn [upd_link].
      rewrite (option_fmap_ext _ _ _ (fun o => obj_alter_ext _ _ k o IHp)). reflexivity. }
    destruct (String.eqb t "discriminatorMap").
    { rewrite <- (upd_or_keep_cons (LMap k)). cbn [upd_link].
      rewrite (option_fmap_ext _ _ _ (fun o => obj_alter_ext _ _ k o IHp)). reflexivity. }
    destruct (String.eqb t "allOf").
    { destruct (parse_index k) as [i|]; cbn [mbind option_bind]; [|reflexivity].
      rewrite <- (upd_or_keep_cons (LAllOf i)). cbn [upd_link].
      rewrite (option_fmap_ext _ _ _ (fun o => arr_alter_ext _ _ i o IHp)). reflexivity. }
    destruct (String.eqb t "oneOf").
    { destruct (parse_index k) as [i|]; cbn [mbind option_bind]; [|reflexivity].
      rewrite <- (upd_or_keep_cons (LOneOf i)). cbn [upd_link].
      rewrite (option_fmap_ext _ _ _ (fun o => arr_alter_ext _ _ i o IHp)). reflexivity. }
    reflexivity.
Qed.

Lemma schema_upd_links (f : SchemaObject -> SchemaObject) (p : list string) (s : SchemaObject) :
  schema_upd p f s = upd_or_keep (links p) f s.
Proof. apply schema_upd_links_aux. Qed.

Lemma nth_error_arr_alter {A : Type} (g : A -> A) (i j : nat) (l : list A) :
  nth_error (arr_alter g i l) j = if Nat.eqb j i then g <$> nth_error l j else nth_error l j.
Proof.
  revert i j. induction l as [|x l IH]; intros i j.
  - destruct i, j; cbn; try reflexivity; destruct (_ =? _)%nat; reflexivity.
  - destruct i as [|i], j as [|j]; cbn; try reflexivity. apply IH.
Qed.

Lemma get_upd_link (l l' : link) (g : SchemaObject -> SchemaObject) (s : SchemaObject) :
  get_link l (upd_link l' g s) =
  if decide (l = l') then g <$> get_link l s else get_link l s.
Proof.
  destruct l as [| | |k|k|i|i], l' as [| | |k'|k'|i'|i'];
    try (rewrite decide_False by discriminate; cbn [get_link upd_link]; destruct s as [r ty ps ao oo rq di dv az en xe it ap dm nm sc]; cbn;
         repeat case_match; reflexivity).
  - rewrite decide_True by reflexivity. destruct s as [r ty ps ao oo rq di dv az en xe it ap dm nm sc]; cbn. reflexivity.
  - rewrite decide_True by reflexivity. destruct s as [r ty ps ao oo rq di dv az en xe it ap dm nm sc]; cbn. reflexivity.
  - rewrite decide_True by reflexivity. destruct s as [r ty ps ao oo rq di dv az en xe it ap dm nm sc]; cbn. destruct ap as [[b|c]|]; reflexivity.
  - cbn [get_link upd_link].
    assert (properties (set_properties (obj_alter g k' <$> properties s) s)
            = obj_alter g k' <$> properties s) as -> by (destruct s; reflexivity).
    destruct (properties s) as [o|]; cbn; [|case_decide; reflexivity].
    rewrite obj_get_alter. destruct (String.eqb_spec k k') as [->|Hne].
    + rewrite decide_True by reflexivity. reflexivity.
    + rewrite decide_False by congruence. reflexivity.
  - cbn [get_link upd_link].
    assert (discriminatorMap (set_discriminatorMap (obj_alter g k' <$> discriminatorMap s) s)
            = obj_alter g k' <$> discriminatorMap s) as -> by (destruct s; reflexivity).
    destruct (discriminatorMap s) as [o|]; cbn; [|case_decide; reflexivity].
    rewrite obj_get_alter. destruct (String.eqb_spec k k') as [->|Hne].
    + rewrite decide_True by reflexivity. reflexivity.
    + rewrite decide_False by congruence. reflexivity.
  - cbn [get_link upd_link].
    assert (allOf (set_allOf (arr_alter g i' <$> allOf s) s)
            = arr_alter g i' <$> allOf s) as -> by (destruct s; reflexivity).
    destruct (allOf s) as [o|]; cbn; [|case_decide; reflexivity].
    rewrite nth_error_arr_alter. destruct (Nat.eqb_spec i i') as [->|Hne].
    + rewrite decide_True by reflexivity. reflexivity.
    + rewrite decide_False by congruence. reflexivity.
  - cbn [get_link upd_link].
    assert (oneOf (set_oneOf (arr_alter g i' <$> oneOf s) s)
            = arr_alter g i' <$> oneOf s) as -> by (destruct s; reflexivity).
    destruct (oneOf s) as [o|]; cbn; [|case_decide; reflexivity].
    rewrite nth_error_arr_alter. destruct (Nat.eqb_spec i i') as [->|Hne].
    + rewrite decide_True by reflexivity. reflexivity.
    + rewrite decide_False by congruence. reflexivity.
Qed.

Lemma siteFields_upd_link (l : link) (g : SchemaObject -> SchemaObject) (s : SchemaObject) :
  is_oneOf l = false -> siteFields (upd_link l g s) = siteFields s.
Proof.
  destruct l; cbn [is_oneOf]; try discriminate; intros _; unfold siteFields; destruct s as [r ty ps ao oo rq di dv az en xe it ap dm nm sc]; cbn;
    repeat case_match; reflexivity.
Qed.

Lemma get_links_same (f : SchemaObject -> SchemaObject) (ls : list link) (s : SchemaObject) :
  get_links ls (upd_links ls f s) = f <$> get_links ls s.
Proof.
  revert s. induction ls as [|l ls IH]; intros s; cbn [get_links upd_links]; [reflexivity|].
  rewrite get_upd_link, decide_True by reflexivity.
  destruct (get_link l s) as [c|]; cbn; [apply IH | reflexivity].
Qed.

Lemma get_links_frame (f : SchemaObject -> SchemaObject) (ls ls' : list link)
    (s : SchemaObject) :
  keeps_links f ->
  forallb (fun l => negb (is_oneOf l)) ls = true ->
  forallb (fun l => negb (is_oneOf l)) ls' = true ->
  ls <> ls' ->
  siteFields <$> get_links ls (upd_links ls' f s) = siteFields <$> get_links ls s.
Proof.
  intros Hf. revert ls' s. induction ls as [|l ls IH]; intros ls' s Hls Hls' Hne.
  - destruct ls' as [|l' ls']; [congruence|]. cbn [get_links upd_links fmap option_fmap option_map].
    cbn [forallb] in Hls'. apply andb_prop in Hls'. destruct Hls' as [Hl' _].
    apply negb_true_iff in Hl'. rewrite siteFields_upd_link by exact Hl'. reflexivity.
  - cbn [forallb] in Hls. apply andb_prop in Hls. destruct Hls as [Hl Hls].
    apply negb_true_iff in Hl. destruct ls' as [|l' ls']; cbn [get_links upd_links].
    + rewrite Hf by exact Hl. reflexivity.
    + cbn [forallb] in Hls'. apply andb_prop in Hls'. destruct Hls' as [_ Hls'].
      rewrite get_upd_link. case_decide as Heq; [|reflexivity]. subst l'.
      destruct (get_link l s) as [c|]; cbn [fmap option_fmap option_map mbind option_bind];
        [|reflexivity].
      apply IH; [exact Hls | exact Hls' | congruence].
Qed.

Lemma bind_site (r : root) (o : option (list link)) (spec : SwaggerObject) :
  (x ← (pair r <$> o); get_site x spec) = d ← get_root r spec; ls ← o; get_links ls d.
Proof.
  unfold get_site. destruct o as [ls|]; cbn; [reflexivity|].
  destruct (get_root r spec); reflexivity.
Qed.

Lemma option_bind_ext {A B : Type} (g g' : A -> option B) (o : option A) :
  (forall a, g a = g' a) -> o ≫= g = o ≫= g'.
Proof. intros H. destruct o; cbn; [apply H | reflexivity]. Qed.

Lemma getObject_site (spec : SwaggerObject) (p : list string) :
  getObject spec p = x ← site_of_location p; get_site x spec.
Proof.
  unfold getObject, site_of_location, roots.
  destruct p as [|root [|k p']]; try reflexivity.
  destruct (String.eqb root "definitions").
  { rewrite bind_site. cbn [get_root]. apply option_bind_ext. intros d. apply schema_get_links. }
  destruct (String.eqb root "parameters").
  { rewrite bind_site. cbn [get_root]. apply option_bind_ext. intros d. apply schema_get_links. }
  destruct (String.eqb root "paths"); [|reflexivity].
  destruct p' as [|verb [|sect [|i p'']]]; try reflexivity.
  destruct (String.eqb sect "parameters").
  { destruct (parse_index i) as [n|]; cbn [mbind option_bind].
    - rewrite bind_site. cbn [get_root].
      destruct (obj_get k (paths spec)) as [ops|]; cbn [mbind option_bind]; [|reflexivity].
      destruct (obj_get verb ops) as [op|]; cbn [mbind option_bind]; [|reflexivity].
      apply option_bind_ext. intros d. apply schema_get_links.
    - destruct (obj_get k (paths spec)) as [ops|]; cbn [mbind option_bind]; [|reflexivity].
      destruct (obj_get verb ops) as [op|]; reflexivity. }
  destruct (String.eqb sect "responses").
  { rewrite bind_site. cbn [get_root].
    destruct (obj_get k (paths spec)) as [ops|]; cbn [mbind option_bind]; [|reflexivity].
    destruct (obj_get verb ops) as [op|]; cbn [mbind option_bind]; [|reflexivity].
    apply option_bind_ext. intros d. apply schema_get_links. }
  destruct (obj_get k (paths spec)) as [ops|]; cbn [mbind option_bind]; [|reflexivity].
  destruct (obj_get verb ops) as [op|]; reflexivity.
Qed.

Lemma upd_root_id (r : root) (spec : SwaggerObject) : upd_root r (fun s => s) spec = spec.
Proof.
  destruct spec as [defs ps pa]. destruct r; cbn [upd_root definitions parameters paths];
    f_equal; try apply obj_alter_id.
  - rewrite <- (obj_alter_id path pa) at 2. apply obj_alter_ext. intros ops.
    rewrite <- (obj_alter_id verb ops) at 2. apply obj_alter_ext. intros [opp opr].
    cbn. rewrite arr_alter_id. reflexivity.
  - rewrite <- (obj_alter_id path pa) at 2. apply obj_alter_ext. intros ops.
    rewrite <- (obj_alter_id verb ops) at 2. apply obj_alter_ext. intros [opp opr].
    cbn. rewrite obj_alter_id. reflexivity.
Qed.

Lemma upd_root_ext (r : root) (g g' : SchemaObject -> SchemaObject) (spec : SwaggerObject) :
  (forall s, g s = g' s) -> upd_root r g spec = upd_root r g' spec.
Proof.
  intros H. destruct r; cbn [upd_root]; f_equal.
  - apply obj_alter_ext, H.
  - apply obj_alter_ext, H.
  - apply obj_alter_ext. intros ops. apply obj_alter_ext. intros op. f_equal.
    apply arr_alter_ext, H.
  - apply obj_alter_ext. intros ops. apply obj_alter_ext. intros op. f_equal.
    apply obj_alter_ext, H.
Qed.

(** The update of the document that a location spells, or none. *)
Lemma updObject_site (spec : SwaggerObject) (p : list string)
    (f : SchemaObject -> SchemaObject) :
  updObject spec p f =
  match site_of_location p with
  | Some x => upd_site x f spec
  | None => spec
  end.
Proof.
  assert (forall r rest,
            upd_root r (schema_upd rest f) spec =
            match pair r <$> links rest with
            | Some x => upd_site x f spec
            | None => spec
            end) as Hroot.
  { intros r rest. rewrite (upd_root_ext r _ _ spec (schema_upd_links f rest)).
    destruct (links rest) as [ls|]; cbn [fmap option_fmap option_map upd_or_keep];
      [reflexivity|].
    apply upd_root_id. }
  unfold updObject, site_of_location, roots.
  destruct p as [|root [|k p']]; try reflexivity.
  destruct (String.eqb root "definitions"); [apply (Hroot (RDefinition k))|].
  destruct (String.eqb root "parameters"); [apply (Hroot (RParameter k))|].
  destruct (String.eqb root "paths"); [|reflexivity].
  destruct p' as [|verb [|sect [|i p'']]]; try reflexivity.
  unfold op_upd.
  destruct (String.eqb sect "parameters").
  { destruct (parse_index i) as [n|]; cbn [mbind option_bind].
    - apply (Hroot (ROpParameter k verb n)).
    - rewrite (obj_alter_ext _ (fun a => a) k (paths spec) (fun ops => obj_alter_id verb ops)).
      rewrite obj_alter_id. destruct spec; reflexivity. }
  destruct (String.eqb sect "responses"); [apply (Hroot (ROpResponse k verb i))|].
  rewrite (obj_alter_ext _ (fun a => a) k (paths spec) (fun ops => obj_alter_id verb ops)).
  rewrite obj_alter_id. destruct spec; reflexivity.
Qed.

Lemma get_op_alter (H : Operation -> Operation) (pa v pa' v' : string)
    (pt : list (string * list (string * Operation))) :
  (ops ← obj_get pa (obj_alter (obj_alter H v') pa' pt); obj_get v ops) =
  if String.eqb pa pa' && String.eqb v v'
  then H <$> (ops ← obj_get pa pt; obj_get v ops)
  else ops ← obj_get pa pt; obj_get v ops.
Proof.
  rewrite obj_get_alter. destruct (String.eqb pa pa'); cbn [andb]; [|reflexivity].
  destruct (obj_get pa pt) as [ops|]; cbn; [|destruct (String.eqb v v'); reflexivity].
  rewrite obj_get_alter. reflexivity.
Qed.

Lemma get_root_op (r : root) (spec : SwaggerObject) :
  get_root r spec =
  match r with
  | RDefinition k => obj_get k (definitions spec)
  | RParameter k => obj_get k (parameters spec)
  | ROpParameter path verb i =>
      op ← (ops ← obj_get path (paths spec); obj_get verb ops); nth_error (op_parameters op) i
  | ROpResponse path verb code =>
      op ← (ops ← obj_get path (paths spec); obj_get verb ops); obj_get code (op_responses op)
  end.
Proof.
  destruct r; cbn [get_root]; try reflexivity;
    destruct (obj_get path (paths spec)); reflexivity.
Qed.

Lemma get_upd_root (r r' : root) (g : SchemaObject -> SchemaObject) (spec : SwaggerObject) :
  get_root r (upd_root r' g spec) =
  if decide (r = r') then g <$> get_root r spec else get_root r spec.
Proof.
  rewrite !get_root_op.
  destruct r as [k|k|pa v i|pa v c], r' as [k'|k'|pa' v' i'|pa' v' c'];
    cbn [upd_root definitions parameters paths];
    try (rewrite decide_False by discriminate; reflexivity).
  - rewrite obj_get_alter. destruct (String.eqb_spec k k') as [->|Hne].
    + rewrite decide_True by reflexivity. reflexivity.
    + rewrite decide_False by congruence. reflexivity.
  - rewrite obj_get_alter. destruct (String.eqb_spec k k') as [->|Hne].
    + rewrite decide_True by reflexivity. reflexivity.
    + rewrite decide_False by congruence. reflexivity.
  - rewrite get_op_alter.
    destruct (String.eqb_spec pa pa') as [->|Hpa]; cbn [andb];
      [|rewrite decide_False by congruence; reflexivity].
    destruct (String.eqb_spec v v') as [->|Hv];
      [|rewrite decide_False by congruence; reflexivity].
    destruct (ops ← obj_get pa' (paths spec); obj_get v' ops) as [op|];
      cbn [fmap option_fmap option_map mbind option_bind op_parameters];
      [|case_decide; reflexivity].
    rewrite nth_error_arr_alter. destruct (Nat.eqb_spec i i') as [->|Hi].
    + rewrite decide_True by reflexivity. reflexivity.
    + rewrite decide_False by congruence. reflexivity.
  - rewrite get_op_alter, decide_False by discriminate.
    destruct (String.eqb pa pa' && String.eqb v v'); [|reflexivity].
    destruct (ops ← obj_get pa (paths spec); obj_get v ops) as [op|]; reflexivity.
  - rewrite get_op_alter, decide_False by discriminate.
    destruct (String.eqb pa pa' && String.eqb v v'); [|reflexivity].
    destruct (ops ← obj_get pa (paths spec); obj_get v ops) as [op|]; reflexivity.
  - rewrite get_op_alter.
    destruct (String.eqb_spec pa pa') as [->|Hpa]; cbn [andb];
      [|rewrite decide_False by congruence; reflexivity].
    destruct (String.eqb_spec v v') as [->|Hv];
      [|rewrite decide_False by congruence; reflexivity].
    destruct (ops ← obj_get pa' (paths spec); obj_get v' ops) as [op|];
      cbn [fmap option_fmap option_map mbind option_bind op_responses];
      [|case_decide; reflexivity].
    rewrite obj_get_alter. destruct (String.eqb_spec c c') as [->|Hc].
    + rewrite decide_True by reflexivity. reflexivity.
    + rewrite decide_False by congruence. reflexivity.
Qed.

(** Reading a site after the update of a site: the updated object at the
    same site; elsewhere, an object with the same [$ref] and [oneOf]. *)
Lemma get_site_same (x : root * list link) (f : SchemaObject -> SchemaObject)
    (spec : SwaggerObject) :
  get_site x (upd_site x f spec) = f <$> get_site x spec.
Proof.
  unfold get_site, upd_site. rewrite get_upd_root, decide_True by reflexivity.
  destruct (get_root (fst x) spec) as [d|]; cbn; [apply get_links_same | reflexivity].
Qed.

Lemma get_site_frame (x x' : root * list link) (f : SchemaObject -> SchemaObject)
    (spec : SwaggerObject) :
  keeps_links f ->
  forallb (fun l => negb (is_oneOf l)) (snd x) = true ->
  forallb (fun l => negb (is_oneOf l)) (snd x') = true ->
  x <> x' ->
  siteFields <$> get_site x (upd_site x' f spec) = siteFields <$> get_site x spec.
Proof.
  intros Hf Hx Hx' Hne. unfold get_site, upd_site. rewrite get_upd_root.
  case_decide as Hr; [|reflexivity].
  destruct (get_root (fst x) spec) as [d|]; cbn [fmap option_fmap option_map mbind option_bind];
    [|reflexivity].
  apply get_links_frame; try assumption.
  intros Hls. apply Hne. destruct x, x'; cbn in *; congruence.
Qed.

Lemma parse_index_numeral (k : string) (i : nat) : parse_index k = Some i -> k = string_of_nat i.
Proof.
  unfold parse_index. destruct (NilEmpty.uint_of_string k) as [u|]; [|discriminate].
  destruct (String.eqb_spec (string_of_nat (Nat.of_uint u)) k) as [Heq|]; [|discriminate].
  intros [= <-]. symmetry. exact Heq.
Qed.

Lemma links_unlinks_aux (p : list string) :
  (forall ls, links p = Some ls -> p = unlinks ls)
  /\ (forall t ls, links (t :: p) = Some ls -> t :: p = unlinks ls).
Proof.
  assert (forall (l : link) (o : option (list link)) (ls : list link) (q : list string),
            cons l <$> o = Some ls -> (forall ls', o = Some ls' -> q = unlinks ls') ->
            unlink l ++ q = unlinks ls) as Hcons.
  { intros l o ls q H Hq. destruct o as [ls'|]; [|discriminate]. injection H as <-.
    cbn [unlinks flat_map]. rewrite (Hq ls' eq_refl). reflexivity. }
  induction p as [|k p [IHp IHkp]].
  - split; [intros ls [= <-]; reflexivity|]. intros t ls. rewrite links_cons.
    destruct (String.eqb_spec t "items") as [->|_];
      [intros H; apply (Hcons LItems _ _ [] H); intros ls' [= <-]; reflexivity|].
    destruct (String.eqb_spec t "schema") as [->|_];
      [intros H; apply (Hcons LSchema _ _ [] H); intros ls' [= <-]; reflexivity|].
    destruct (String.eqb_spec t "additionalProperties") as [->|_];
      [intros H; apply (Hcons LAdditional _ _ [] H); intros ls' [= <-]; reflexivity|].
    discriminate.
  - split; [exact (IHkp k)|]. intros t ls. rewrite (links_cons t).
    destruct (String.eqb_spec t "items") as [->|_];
      [intros H; apply (Hcons LItems _ _ (k :: p) H), IHkp|].
    destruct (String.eqb_spec t "schema") as [->|_];
      [intros H; apply (Hcons LSchema _ _ (k :: p) H), IHkp|].
    destruct (String.eqb_spec t "additionalProperties") as [->|_];
      [intros H; apply (Hcons LAdditional _ _ (k :: p) H), IHkp|].
    destruct (String.eqb_spec t "properties") as [->|_];
      [intros H; apply (Hcons (LProperty k) _ _ p H), IHp|].
    destruct (String.eqb_spec t "discriminatorMap") as [->|_];
      [intros H; apply (Hcons (LMap k) _ _ p H), IHp|].
    destruct (String.eqb_spec t "allOf") as [->|_].
    { destruct (parse_index k) as [i|] eqn:Hi; cbn [mbind option_bind]; [|discriminate].
      apply parse_index_numeral in Hi. subst k.
      intros H. apply (Hcons (LAllOf i) _ _ p H), IHp. }
    destruct (String.eqb_spec t "oneOf") as [->|_].
    { destruct (parse_index k) as [i|] eqn:Hi; cbn [mbind option_bind]; [|discriminate].
      apply parse_index_numeral in Hi. subst k.
      intros H. apply (Hcons (LOneOf i) _ _ p H), IHp. }
    discriminate.
Qed.

Lemma site_of_location_tokens (p : list string) (x : root * list link) :
  site_of_location p = Some x -> p = unroot (fst x) ++ unlinks (snd x).
Proof.
  unfold site_of_location, roots.
  assert (forall (r : root) (rest : list string),
            pair r <$> links rest = Some x -> unroot r ++ rest = unroot (fst x) ++ unlinks (snd x))
    as Hrest.
  { intros r rest H. destruct (links rest) as [ls|] eqn:Hls; [|discriminate].
    injection H as <-. cbn [fst snd]. f_equal. apply links_unlinks_aux. exact Hls. }
  destruct p as [|root [|k p']]; try discriminate.
  destruct (String.eqb_spec root "definitions") as [->|_]; [apply (Hrest (RDefinition k))|].
  destruct (String.eqb_spec root "parameters") as [->|_]; [apply (Hrest (RParameter k))|].
  destruct (String.eqb_spec root "paths") as [->|_]; [|discriminate].
  destruct p' as [|verb [|sect [|i p'']]]; try discriminate.
  destruct (String.eqb_spec sect "parameters") as [->|_].
  { destruct (parse_index i) as [n|] eqn:Hi; cbn [mbind option_bind]; [|discriminate].
    apply parse_index_numeral in Hi. subst i. apply (Hrest (ROpParameter k verb n)). }
  destruct (String.eqb_spec sect "responses") as [->|_]; [|discriminate].
  apply (Hrest (ROpResponse k verb i)).
Qed.

Lemma site_of_location_inj (p q : list string) (x : root * list link) :
  site_of_location p = Some x -> site_of_location q = Some x -> p = q.
Proof.
  intros Hp Hq. apply site_of_location_tokens in Hp, Hq. congruence.
Qed.

Lemma substring_skip (a s : string) (n : nat) :
  substring (String.length a) n (a +:+ s) = substring 0 n s.
Proof. induction a as [|c a IH]; cbn; [reflexivity | exact IH]. Qed.

Lemma substring_prefix (sub b : string) :
  substring 0 (String.length sub) (sub +:+ b) = sub.
Proof.
  induction sub as [|c sub IH]; [destruct b; reflexivity|].
  change (String c sub +:+ b) with (String c (sub +:+ b)).
  cbn [String.length substring]. f_equal. exact IH.
Qed.

Lemma includes_app (sub a b : string) :
  sub <> EmptyString -> includes sub (a +:+ sub +:+ b) = true.
Proof.
  intros Hsub. unfold includes.
  destruct (index 0 sub (a +:+ sub +:+ b)) eqn:Hidx; [reflexivity|]. exfalso.
  apply (index_correct3 0 (String.length a) sub (a +:+ sub +:+ b) Hidx Hsub); [lia|].
  rewrite substring_skip. apply substring_prefix.
Qed.

Lemma string_app_assoc (a b c : string) : (a +:+ b) +:+ c = a +:+ b +:+ c.
Proof.
  induction a as [|x a IH]; [reflexivity|].
  change (String x (a +:+ b) +:+ c = String x (a +:+ b +:+ c)).
  change (String x ((a +:+ b) +:+ c) = String x (a +:+ b +:+ c)). f_equal. exact IH.
Qed.

Lemma string_app_empty_r (a : string) : a +:+ EmptyString = a.
Proof.
  induction a as [|x a IH]; [reflexivity|].
  change (String x (a +:+ EmptyString) = String x a). f_equal. exact IH.
Qed.

Lemma concat_cons (e : string) (l : list string) :
  String.concat EmptyString (e :: l) = e +:+ String.concat EmptyString l.
Proof. destruct l; cbn [String.concat]; [rewrite string_app_empty_r|]; reflexivity. Qed.

Lemma concat_member (e : string) (l : list string) :
  In e l -> exists a b, String.concat EmptyString l = a +:+ e +:+ b.
Proof.
  induction l as [|e' l IH]; [intros []|]. rewrite concat_cons. intros [->|Hin].
  - exists EmptyString, (String.concat EmptyString l). reflexivity.
  - destruct (IH Hin) as [a [b ->]]. exists (e' +:+ a), b. rewrite string_app_assoc.
    reflexivity.
Qed.

Lemma pointer_string_token (t : string) (p : list string) :
  In t p -> exists a b, pointer_string p = a +:+ escape_token t +:+ b.
Proof.
  unfold pointer_string. intros Hin.
  destruct (concat_member ("/" +:+ escape_token t) (map (fun t => "/" +:+ escape_token t) p))
    as [a [b Hab]].
  { apply in_map_iff. exists t. auto. }
  rewrite Hab. exists ("#" +:+ a +:+ "/"), b. rewrite !string_app_assoc. reflexivity.
Qed.

Lemma no_oneOf_links (p : list string) (x : root * list link) :
  site_of_location p = Some x ->
  includes "oneOf" (pointer_string p) = false ->
  forallb (fun l => negb (is_oneOf l)) (snd x) = true.
Proof.
  intros Hx Hinc. apply site_of_location_tokens in Hx.
  apply forallb_forall. intros l Hl. destruct (is_oneOf l) eqn:Hone; [|reflexivity].
  exfalso. destruct l; try discriminate.
  assert (In "oneOf" p) as Hin.
  { rewrite Hx. apply in_or_app. right. unfold unlinks. apply in_flat_map.
    exists (LOneOf i). split; [exact Hl | left; reflexivity]. }
  destruct (pointer_string_token "oneOf" p Hin) as [a [b Hab]].
  rewrite Hab in Hinc. change (escape_token "oneOf") with "oneOf" in Hinc.
  rewrite includes_app in Hinc by discriminate. discriminate.
Qed.

Lemma keeps_links_rewriteSite (node : PolymorphicTree) : keeps_links (rewriteSite node).
Proof.
  intros l s Hl. unfold rewriteSite.
  destruct l; try discriminate; destruct s as [r ty ps ao oo rq di dv az en xe it ap dm nm sc]; cbn; destruct (truthy_str r); reflexivity.
Qed.

Lemma siteFields_rewriteSite (node : PolymorphicTree) (obj : SchemaObject) :
  ref obj = None \/ truthy_str (ref obj) = true ->
  siteFields (rewriteSite node obj) = (None, Some (buildOneOfReferences node)).
Proof.
  unfold rewriteSite, siteFields. intros [H|H]; rewrite ?H.
  - destruct obj; cbn in *. subst. reflexivity.
  - destruct obj; reflexivity.
Qed.

Lemma siteOf_step_same (spec : SwaggerObject) (p : list string)
    (f : SchemaObject -> SchemaObject) :
  getObject (updObject spec p f) p = f <$> getObject spec p.
Proof.
  rewrite updObject_site, !getObject_site.
  destruct (site_of_location p) as [x|]; cbn [mbind option_bind]; [|reflexivity].
  apply get_site_same.
Qed.

Lemma siteOf_step_other (spec : SwaggerObject) (p q : list string)
    (f : SchemaObject -> SchemaObject) :
  keeps_links f ->
  includes "oneOf" (pointer_string p) = false ->
  includes "oneOf" (pointer_string q) = false ->
  q <> p ->
  siteOf p (updObject spec q f) = siteOf p spec.
Proof.
  intros Hf Hp Hq Hne. unfold siteOf. rewrite updObject_site, !getObject_site.
  destruct (site_of_location q) as [x'|] eqn:Hx'; [|reflexivity].
  destruct (site_of_location p) as [x|] eqn:Hx; cbn [mbind option_bind]; [|reflexivity].
  apply (get_site_frame x x' f spec Hf).
  - eapply no_oneOf_links; eassumption.
  - eapply no_oneOf_links; eassumption.
  - intros ->. apply Hne. eapply site_of_location_inj; eassumption.
Qed.

Lemma fold_left_keeps {A S : Type} (step : S -> A -> S) (P : S -> Prop) (l : list A) :
  (forall s a, In a l -> P s -> P (step s a)) ->
  forall s, P s -> P (fold_left step l s).
Proof.
  induction l as [|a l IH]; intros HP s Hs; [exact Hs|]. cbn [fold_left]. apply IH.
  - intros s0 a0 Ha0. apply HP. right. exact Ha0.
  - apply HP; [left; reflexivity | exact Hs].
Qed.

Lemma fold_left_reaches {A S : Type} (step : S -> A -> S) (St Done : S -> Prop)
    (l : list A) (x : A) :
  (forall s a, In a l -> St s -> St (step s a)) ->
  (forall s a, In a l -> Done s -> Done (step s a)) ->
  (forall s, St s -> Done (step s x)) ->
  In x l ->
  forall s, St s -> Done (fold_left step l s).
Proof.
  intros HSt HDone Hx. induction l as [|a l IH]; intros Hin s Hs; [destruct Hin|].
  cbn [fold_left]. destruct Hin as [->|Hin].
  - apply fold_left_keeps.
    + intros s0 a0 Ha0. apply HDone. right. exact Ha0.
    + apply Hx. exact Hs.
  - apply IH.
    + intros s0 a0 Ha0. apply HSt. right. exact Ha0.
    + intros s0 a0 Ha0. apply HDone. right. exact Ha0.
    + exact Hin.
    + apply HSt; [left; reflexivity | exact Hs].
Qed.

Lemma definition_reference_inj (n m : string) :
  "#/definitions/" +:+ n = "#/definitions/" +:+ m -> n = m.
Proof.
  generalize "#/definitions/" as a. intros a. induction a as [|c a IH]; intros H; [exact H|].
  apply IH. change (String c (a +:+ n) = String c (a +:+ m)) in H. congruence.
Qed.

(** X13. [updateReferencesWithOneOf()] at a recorded reference to a
    definition that has children in the tree map, at a location whose
    pointer contains neither allOf nor oneOf: after the rewriting the
    object at the location has no [$ref], and its [oneOf] is
    [buildOneOfReferences] of the tree of the definition. The names of
    the tree map are taken to be distinct, and a location to be recorded
    with one uri. *)
Theorem referring_site_becomes_alternative_set :
  forall (subTreeMap : list (string * PolymorphicTree)) (references : list RefEntry)
         (spec : SwaggerObject) (node : PolymorphicTree) (r : RefEntry) (obj : SchemaObject),
    In node (map snd subTreeMap) ->
    children node <> [] ->
    (forall node', In node' (map snd subTreeMap) -> t_name node' = t_name node -> node' = node) ->
    In r references ->
    (forall r', In r' references -> location r' = location r -> uri r' = uri r) ->
    uri r = "#/definitions/" +:+ t_name node ->
    includes "allOf" (key r) = false ->
    includes "oneOf" (key r) = false ->
    getObject spec (location r) = Some obj ->
    ref obj = Some (uri r) ->
    siteOf (location r) (updateReferencesWithOneOf subTreeMap references spec)
    = Some (None, Some (buildOneOfReferences node)).
Proof.
  intros subTreeMap references spec node r obj Hnode Hchildren Hnames Hr Hlocs Huri
    HallOf HoneOf Hobj Href.
  set (p := location r).
  set (X := buildOneOfReferences node).
  set (Done := fun s : SwaggerObject => siteOf p s = Some (None, Some X)).
  set (St := fun s : SwaggerObject =>
               (exists o, siteOf p s = Some (Some (uri r), o)) \/ Done s).
  assert (truthy_str (Some (uri r)) = true) as Htruthy by (rewrite Huri; reflexivity).
  assert (forall (node' : PolymorphicTree) (r' : RefEntry) (s : SwaggerObject),
            In node' (map snd subTreeMap) -> In r' references ->
            toBeUpdated ("#/definitions/" +:+ t_name node') r' = true ->
            (St s -> St (updObject s (location r') (rewriteSite node')))
            /\ (Done s -> Done (updObject s (location r') (rewriteSite node')))
            /\ (location r' = p -> St s -> Done (updObject s (location r') (rewriteSite node'))))
    as Hstep.
  { intros node' r' s Hnode' Hr' Hupd. unfold toBeUpdated in Hupd.
    apply andb_prop in Hupd. destruct Hupd as [Hupd Hone'].
    apply andb_prop in Hupd. destruct Hupd as [Huri' _].
    apply String.eqb_eq in Huri'. apply negb_true_iff in Hone'.
    destruct (decide (location r' = p)) as [Hsame|Hother].
    - assert (node' = node) as ->.
      { apply Hnames; [exact Hnode'|]. apply definition_reference_inj.
        rewrite <- Huri', <- Huri. apply Hlocs; assumption. }
      assert (St s -> Done (updObject s (location r') (rewriteSite node))) as Hdone.
      { intros Hs. unfold Done, siteOf. rewrite Hsame, siteOf_step_same.
        destruct Hs as [[o Hs]|Hs]; unfold Done, siteOf in Hs;
          destruct (getObject s p) as [obj'|]; cbn in Hs; try discriminate;
          injection Hs as Hs1 Hs2; cbn [fmap option_fmap option_map]; f_equal;
          apply (siteFields_rewriteSite node obj').
        - right. rewrite Hs1. exact Htruthy.
        - left. exact Hs1. }
      split; [intros Hs; right; apply Hdone; exact Hs|].
      split; [intros Hs; apply Hdone; right; exact Hs|].
      intros _. exact Hdone.
    - assert (siteOf p (updObject s (location r') (rewriteSite node')) = siteOf p s) as Heq.
      { apply siteOf_step_other;
          [apply keeps_links_rewriteSite | exact HoneOf | exact Hone' | exact Hother]. }
      unfold St, Done. rewrite Heq. split; [auto|]. split; [auto|]. intros Hp. contradiction. }
  assert (St spec) as Hstart.
  { left. exists (oneOf obj). unfold siteOf. fold p in Hobj. rewrite Hobj. cbn. rewrite Href.
    reflexivity. }
  unfold updateReferencesWithOneOf.
  assert (forall (node' : PolymorphicTree) (l : list RefEntry),
            In node' (map snd subTreeMap) ->
            (forall r', In r' l ->
                        In r' references
                        /\ toBeUpdated ("#/definitions/" +:+ t_name node') r' = true) ->
            forall s,
              (St s ->
               St (fold_left (fun spec r => updObject spec (location r) (rewriteSite node')) l s))
              /\ (Done s ->
                  Done (fold_left (fun spec r => updObject spec (location r) (rewriteSite node'))
                          l s))) as Hinner.
  { intros node' l Hnode' Hl s. split; intros Hs.
    - apply (fold_left_keeps _ St); [|exact Hs].
      intros s0 r' Hr'. destruct (Hl r' Hr') as [H1 H2]. apply (Hstep node' r' s0 Hnode' H1 H2).
    - apply (fold_left_keeps _ Done); [|exact Hs].
      intros s0 r' Hr'. destruct (Hl r' Hr') as [H1 H2]. apply (Hstep node' r' s0 Hnode' H1 H2). }
  assert (forall node' (l := List.filter (toBeUpdated ("#/definitions/" +:+ t_name node'))
                                references) r',
            In r' l ->
            In r' references /\ toBeUpdated ("#/definitions/" +:+ t_name node') r' = true)
    as Hfilter.
  { intros node' l r' Hr'. apply filter_In in Hr'. exact Hr'. }
  apply (fold_left_reaches _ St Done (map snd subTreeMap) node); try assumption.
  - intros s node' Hnode' Hs. destruct (children node'); [exact Hs|].
    apply (Hinner node' _ Hnode' (Hfilter node')). exact Hs.
  - intros s node' Hnode' Hs. destruct (children node'); [exact Hs|].
    apply (Hinner node' _ Hnode' (Hfilter node')). exact Hs.
  - intros s Hs. destruct (children node) as [|c cs] eqn:Hc; [contradiction|].
    apply (fold_left_reaches _ St Done _ r); try assumption.
    + intros s0 r' Hr'. destruct (Hfilter node r' Hr') as [H1 H2].
      apply (Hstep node r' s0 Hnode H1 H2).
    + intros s0 r' Hr'. destruct (Hfilter node r' Hr') as [H1 H2].
      apply (Hstep node r' s0 Hnode H1 H2).
    + intros s0 Hs0. apply (Hstep node r s0 Hnode Hr); [|reflexivity | exact Hs0].
      unfold toBeUpdated. rewrite Huri, String.eqb_refl. unfold key in HallOf, HoneOf.
      unfold key. rewrite HallOf, HoneOf. reflexivity.
    + apply filter_In. split; [exact Hr|].
      unfold toBeUpdated. rewrite Huri, String.eqb_refl. unfold key in HallOf, HoneOf.
      unfold key. rewrite HallOf, HoneOf. reflexivity.
Qed.

Lemma referring_site_becomes_alternative_set_witness :
  siteOf ["definitions"; "Owner"; "properties"; "pet"]
    (updateReferencesWithOneOf (t_subTreeMap animalsState) (findRefs specAnimals)
       (t_spec animalsState))
  = Some (None, Some (buildOneOfReferences animalsTree)).
Proof.
  apply (referring_site_becomes_alternative_set (t_subTreeMap animalsState)
           (findRefs specAnimals) (t_spec animalsState) animalsTree
           (mkRefEntry ["definitions"; "Owner"; "properties"; "pet"] "#/definitions/Animal")
           (refSchema "#/definitions/Animal")).
  - vm_compute. tauto.
  - discriminate.
  - intros node' Hin Hname. vm_compute in Hin.
    destruct Hin as [<-|[<-|[<-|[]]]]; first [reflexivity | discriminate Hname].
  - vm_compute. tauto.
  - intros r' Hin Hloc. vm_compute in Hin.
    repeat (destruct Hin as [<-|Hin]; [first [reflexivity | discriminate Hloc]|]).
    destruct Hin.
  - reflexivity.
  - reflexivity.
  - reflexivity.
  - reflexivity.
  - reflexivity.
Defined.

End LinkFacts.

(** ** Seeds *)

Module SeedFacts.
Import Mocker Examples Vocabulary JsFacts GeneratorFacts.

Lemma orElse_falsy (v w : value) : truthy v = false -> orElse v w = w.
Proof. intros H. unfold orElse. rewrite H. reflexivity. Qed.

Lemma orElse_falsy_left (v w : value) : truthy v = false -> orElse v w = w.
Proof. intros H. unfold orElse. rewrite H. reflexivity. Qed.

Lemma firstElement_falsy (v : value) : truthy v = false -> firstElement (orElse v (VArr [])) = VUndefined.
Proof. intros H. rewrite orElse_falsy by exact H. reflexivity. Qed.

(** X14. [mockCachedObj] treats a falsy example (undefined, null, false,
    0, NaN or the empty string) as no example at all: the call gives
    what it gives for undefined. *)
Theorem falsy_seed_is_no_seed :
  forall (self : SwaggerMocker) (fuel : nat) (objName : string) (schema0 : option SchemaObject)
         (seed : value) (visited : gset string) (isRequest : bool) (dv : option string)
         (st : GenState),
    truthy seed = false ->
    mockCachedObj self fuel objName schema0 seed visited isRequest dv st
    = mockCachedObj self fuel objName schema0 VUndefined visited isRequest dv st.
Proof.
  intros self fuel objName schema0 seed visited isRequest dv st Hseed.
  destruct fuel as [|fuel]; [reflexivity|].
  cbn [mockCachedObj]. rewrite Hseed. rewrite !(orElse_falsy seed) by exact Hseed.
  reflexivity.
Qed.

Lemma falsy_seed_is_no_seed_witness :
  mockCachedObj (mockerOf nodeDefs) 3 "count" (Some stringSchema) (VNum 0) ∅ true None freshState
  = mockCachedObj (mockerOf nodeDefs) 3 "count" (Some stringSchema) VUndefined ∅ true None
      freshState.
Proof.
  apply (falsy_seed_is_no_seed (mockerOf nodeDefs) 3 "count" (Some stringSchema) (VNum 0)).
  reflexivity.
Defined.

Lemma primitive_keeps_truthy_seed :
  forall (self : SwaggerMocker) (fuel : nat) (objName : string)
         (schema0 definitionSpec : SchemaObject) (seed : value) (visited : gset string)
         (isRequest : bool) (dv : option string) (st : GenState),
    (forall r, ref schema0 = Some r -> r ∉ visited) ->
    truthy (getCache self schema0 st) = false ->
    resolveRefObj self schema0 = Some definitionSpec ->
    isObject self definitionSpec = false ->
    type definitionSpec <> Some "array" ->
    allOf definitionSpec = None ->
    plainSeed seed = true ->
    truthy seed = true ->
    mockCachedObj self (S (S fuel)) objName (Some schema0) seed visited isRequest dv st
    = Ok (seedItem seed definitionSpec,
          removeFromSet schema0 (snd (getDefSpec self schema0 visited)),
          checkAndCache schema0 (seedItem seed definitionSpec) st).
Proof.
  intros self fuel objName schema0 definitionSpec seed visited isRequest dv st
    Hvisited Hcache Hres Hobj Harr HallOf Hplain Htruthy.
  remember (S fuel) as f1 eqn:Hf1. cbn [mockCachedObj]. subst f1.
  assert (match ref schema0 with Some r => bool_decide (r ∈ visited) | None => false end = false)
    as ->.
  { destruct (ref schema0) as [r|] eqn:Hr; [|reflexivity].
    apply bool_decide_eq_false_2. apply Hvisited. reflexivity. }
  rewrite Hcache. unfold getDefSpec at 1. rewrite Hres, Hobj.
  rewrite bool_decide_eq_false_2 by exact Harr. rewrite Htruthy.
  cbn [mbind outcome_bind].
  rewrite getRequiredProperties_flat by exact HallOf.
  assert (exists w, wrapItem seed definitionSpec = Ok w
                    /\ markMocked (requiredOrEmpty definitionSpec) w
                       = seedItem seed definitionSpec) as [w [-> Hw]].
  { unfold wrapItem, markMocked, createLeafItem, createTrunkItem, seedItem.
    destruct seed; try discriminate; eexists; (split; [reflexivity|]);
      cbn [itemRequired optionsFrom]; destruct (requiredOrEmpty definitionSpec); reflexivity. }
  cbn [mbind outcome_bind]. rewrite Hw.
  unfold getDefSpec. cbn [snd]. reflexivity.
Qed.

(** X15. [mockCachedObj] on a schema that is neither an object nor an
    array and has no [allOf], given a truthy example that is a scalar,
    an array or an object: the example is kept as the value, nothing is
    synthesized, and the item made of the example is both what the call
    returns and what it offers to the mock cache. The schema is taken
    not to be in the cache and its reference not to be under visit. *)
Theorem truthy_seed_of_primitive_is_kept :
  forall (self : SwaggerMocker) (fuel : nat) (objName : string)
         (schema0 definitionSpec : SchemaObject) (seed : value) (visited : gset string)
         (isRequest : bool) (dv : option string) (st : GenState),
    (forall r, ref schema0 = Some r -> r ∉ visited) ->
    truthy (getCache self schema0 st) = false ->
    resolveRefObj self schema0 = Some definitionSpec ->
    isObject self definitionSpec = false ->
    type definitionSpec <> Some "array" ->
    allOf definitionSpec = None ->
    plainSeed seed = true ->
    truthy seed = true ->
    mockCachedObj self (S (S fuel)) objName (Some schema0) seed visited isRequest dv st
    = Ok (seedItem seed definitionSpec,
          removeFromSet schema0 (snd (getDefSpec self schema0 visited)),
          checkAndCache schema0 (seedItem seed definitionSpec) st).
Proof. apply primitive_keeps_truthy_seed. Qed.

Lemma truthy_seed_of_primitive_is_kept_witness :
  mockCachedObj (mockerOf nodeDefs) 2 "count" (Some stringSchema) (VStr "seven") ∅ true None
    freshState
  = Ok (seedItem (VStr "seven") stringSchema,
        removeFromSet stringSchema (snd (getDefSpec (mockerOf nodeDefs) stringSchema ∅)),
        checkAndCache stringSchema (seedItem (VStr "seven") stringSchema) freshState).
Proof.
  apply (truthy_seed_of_primitive_is_kept (mockerOf nodeDefs) 0 "count" stringSchema
           stringSchema (VStr "seven") ∅ true None freshState);
    first [reflexivity | discriminate | (intros r; discriminate)].
Defined.

(** X16. [mockCachedObj] on an array schema reads the first element of
    the supplied array only: the elements after it never reach the
    result. *)
Theorem array_seed_tail_is_discarded :
  forall (self : SwaggerMocker) (fuel : nat) (objName : string)
         (schema0 : SchemaObject) (first : value) (others : list value)
         (visited : gset string) (isRequest : bool) (dv : option string) (st : GenState),
    (forall definitionSpec,
        resolveRefObj self schema0 = Some definitionSpec ->
        isObject self definitionSpec = false /\ type definitionSpec = Some "array") ->
    mockCachedObj self fuel objName (Some schema0) (VArr (first :: others)) visited isRequest
      dv st
    = mockCachedObj self fuel objName (Some schema0) (VArr [first]) visited isRequest dv st.
Proof.
  intros self fuel objName schema0 first others visited isRequest dv st Harray.
  destruct fuel as [|fuel]; [reflexivity|].
  cbn [mockCachedObj].
  destruct (match ref schema0 with Some r => bool_decide (r ∈ visited) | None => false end);
    [reflexivity|].
  destruct (truthy (getCache self schema0 st)); [reflexivity|].
  unfold getDefSpec.
  destruct (resolveRefObj self schema0) as [definitionSpec|] eqn:Hres; [|reflexivity].
  destruct (Harray definitionSpec eq_refl) as [Hobj Hty]. rewrite Hobj.
  rewrite bool_decide_eq_true_2 by exact Hty. reflexivity.
Qed.

Lemma array_seed_tail_is_discarded_witness :
  mockCachedObj (mockerOf nodeDefs) 3 "tags"
    (Some (set_items (Some stringSchema) (set_type (Some "array") emptySchema)))
    (VArr [VStr "a"; VStr "b"; VStr "c"]) ∅ true None freshState
  = mockCachedObj (mockerOf nodeDefs) 3 "tags"
      (Some (set_items (Some stringSchema) (set_type (Some "array") emptySchema)))
      (VArr [VStr "a"]) ∅ true None freshState.
Proof.
  apply (array_seed_tail_is_discarded (mockerOf nodeDefs) 3 "tags"
           (set_items (Some stringSchema) (set_type (Some "array") emptySchema))
           (VStr "a") [VStr "b"; VStr "c"]).
  intros definitionSpec [= <-]. split; reflexivity.
Defined.

End SeedFacts.

(** ** The walk along the composition list *)

Module CompositionWalkFacts.
Import Mocker Examples Vocabulary JsFacts GeneratorFacts.

Lemma removeFromSet_after_getDefSpec (self : SwaggerMocker) (item : SchemaObject)
    (visited visited' : gset string) :
  visited' ⊆ snd (getDefSpec self item visited) ->
  removeFromSet item visited' ⊆ visited.
Proof.
  unfold getDefSpec, removeFromSet. cbn [snd].
  destruct (ref item) as [r|]; [|auto].
  intros Hsub. case_bool_decide; set_solver.
Qed.

Lemma getProperties_visited (self : SwaggerMocker) (fuel : nat) :
  forall (d : SchemaObject) (visited visited' : gset string)
         (props : list (string * SchemaObject)),
    getProperties self fuel d visited = Ok (props, visited') -> visited' ⊆ visited.
Proof.
  induction fuel as [|fuel IH]; intros d visited visited' props; cbn [getProperties];
    [discriminate|].
  match goal with |- context [forEach ?f ?l ?acc] =>
    assert (forall (l' : list SchemaObject) (p p' : list (string * SchemaObject))
                   (v v' : gset string),
              forEach f l' (p, v) = Ok (p', v') -> v' ⊆ v) as Hloop
  end.
  { induction l' as [|item l' IHl]; intros p p' v v'; cbn [forEach].
    - intros [= <- <-]. reflexivity.
    - destruct (getDefSpec self item v) as [content v1] eqn:Hdef.
      destruct content as [content|]; [|discriminate].
      destruct (getProperties self fuel content v1) as [[inherited v2]| | |] eqn:Hrec;
        cbn [mbind outcome_bind]; try discriminate.
      intros Hrest. apply IHl in Hrest. apply IH in Hrec.
      etrans; [exact Hrest|]. apply (removeFromSet_after_getDefSpec self).
      rewrite Hdef. exact Hrec. }
  match goal with |- context [forEach ?f ?l ?acc] =>
    destruct (forEach f l acc) as [[p1 v1]| | |] eqn:Hrun end;
    cbn [mbind outcome_bind]; try discriminate.
  intros [= <- <-]. eapply Hloop. exact Hrun.
Qed.

Lemma getDiscriminator_visited (self : SwaggerMocker) (fuel : nat) :
  forall (d : SchemaObject) (visited visited' : gset string) (found : option string),
    getDiscriminator self fuel d visited = Ok (found, visited') -> visited' ⊆ visited.
Proof.
  induction fuel as [|fuel IH]; intros d visited visited' found; cbn [getDiscriminator];
    [discriminate|].
  destruct (truthy_str (discriminator d)); [intros [= <- <-]; reflexivity|].
  generalize (allOfOrEmpty d) as l. intros l. revert visited.
  induction l as [|item l IHl]; intros visited.
  - intros [= <- <-]. reflexivity.
  - destruct (getDefSpec self item visited) as [content v1] eqn:Hdef.
    destruct content as [content|]; [|discriminate].
    destruct (getDiscriminator self fuel content v1) as [[f2 v2]| | |] eqn:Hrec;
      cbn [mbind outcome_bind]; try discriminate.
    apply IH in Hrec.
    assert (removeFromSet item v2 ⊆ visited) as Hback.
    { apply (removeFromSet_after_getDefSpec self). rewrite Hdef. exact Hrec. }
    destruct f2 as [name|].
    + intros [= <- <-]. exact Hback.
    + intros Hrest. apply IHl in Hrest. etrans; [exact Hrest | exact Hback].
Qed.

(** X17. [getProperties] and [getDiscriminator] leave the visited set no
    larger than they found it: every reference marked on the way down
    the [allOf] list is removed on the way back. *)
Theorem composition_walk_unmarks :
  forall (self : SwaggerMocker) (fuel : nat) (definitionSpec : SchemaObject)
         (visited : gset string),
    (forall props visited',
        getProperties self fuel definitionSpec visited = Ok (props, visited') ->
        visited' ⊆ visited)
    /\ (forall found visited',
        getDiscriminator self fuel definitionSpec visited = Ok (found, visited') ->
        visited' ⊆ visited).
Proof.
  intros self fuel definitionSpec visited. split.
  - intros props visited'. apply getProperties_visited.
  - intros found visited'. apply getDiscriminator_visited.
Qed.

Lemma composition_walk_unmarks_witness :
  snd tabbyProperties ⊆ ({[ "#/definitions/Owner" ]} : gset string).
Proof.
  apply (proj1 (composition_walk_unmarks (mockerOf petDefs) 2 tabby {[ "#/definitions/Owner" ]})
           (fst tabbyProperties)).
  vm_compute. reflexivity.
Defined.

Lemma NoDup_keys_tail {A : Type} (k : string) (v : A) (o : list (string * A)) :
  List.NoDup (obj_keys ((k, v) :: o)) -> obj_get k o = None /\ List.NoDup (obj_keys o).
Proof.
  unfold obj_keys. cbn [map fst]. intros H. inversion H as [|? ? Hnot Hrest]; subst.
  split; [|exact Hrest].
  destruct (obj_get k o) as [w|] eqn:Hw; [|reflexivity].
  exfalso. apply Hnot. apply in_map_iff. exists (k, w). split; [reflexivity|].
  clear -Hw. induction o as [|[k' v'] o IH]; cbn in Hw; [discriminate|].
  destruct (String.eqb_spec k k') as [->|Hne].
  - injection Hw as ->. left. reflexivity.
  - right. apply IH. exact Hw.
Qed.

Lemma obj_get_spread {A : Type} (k : string) (a b : list (string * A)) :
  List.NoDup (obj_keys b) ->
  obj_get k (obj_spread a b) =
  match obj_get k b with Some v => Some v | None => obj_get k a end.
Proof.
  unfold obj_spread. revert a. induction b as [|[k' v'] b IH]; intros a Hnd; cbn [fold_left].
  - reflexivity.
  - apply NoDup_keys_tail in Hnd. destruct Hnd as [Hfresh Hnd].
    rewrite IH by exact Hnd. cbn [fst snd obj_get].
    destruct (String.eqb_spec k k') as [->|Hne].
    + rewrite Hfresh, obj_get_set, String.eqb_refl. reflexivity.
    + rewrite obj_get_set. apply String.eqb_neq in Hne. rewrite Hne. reflexivity.
Qed.

(** X18. In the property map that [getProperties] returns, a property
    that the definition declares itself has the schema the definition
    gives it, also when a definition of its [allOf] list declares a
    property of the same name. *)
Theorem own_properties_win :
  forall (self : SwaggerMocker) (fuel : nat) (definitionSpec : SchemaObject)
         (visited visited' : gset string) (props : list (string * SchemaObject))
         (k : string) (s : SchemaObject),
    List.NoDup (obj_keys (propertiesOrEmpty definitionSpec)) ->
    getProperties self fuel definitionSpec visited = Ok (props, visited') ->
    obj_get k (propertiesOrEmpty definitionSpec) = Some s ->
    obj_get k props = Some s.
Proof.
  intros self fuel definitionSpec visited visited' props k s Hnd.
  destruct fuel as [|fuel]; cbn [getProperties]; [discriminate|].
  match goal with |- context [forEach ?f ?l ?acc] =>
    destruct (forEach f l acc) as [[p1 v1]| | |] end;
    cbn [mbind outcome_bind]; try discriminate.
  intros [= <- <-] Hown. rewrite obj_get_spread by exact Hnd. rewrite Hown. reflexivity.
Qed.

Lemma own_properties_win_witness :
  obj_get "kind" (fst tabbyProperties) = Some (set_enum (Some ["tabby"]) stringSchema).
Proof.
  apply (own_properties_win (mockerOf petDefs) 2 tabby {[ "#/definitions/Owner" ]}
           (snd tabbyProperties)).
  - repeat constructor. intros [].
  - vm_compute. reflexivity.
  - reflexivity.
Defined.

(** X19. The list that [getRequiredProperties] returns starts with the
    [required] list of the definition itself; what the [allOf] list
    contributes comes after it. *)
Theorem own_required_come_first :
  forall (self : SwaggerMocker) (fuel : nat) (definitionSpec : SchemaObject)
         (requiredProperties : list string),
    getRequiredProperties self fuel definitionSpec = Ok requiredProperties ->
    exists inherited : list string,
      requiredProperties = requiredOrEmpty definitionSpec ++ inherited.
Proof.
  intros self fuel definitionSpec requiredProperties.
  destruct fuel as [|fuel]; cbn [getRequiredProperties]; [discriminate|].
  generalize (allOfOrEmpty definitionSpec) as l.
  assert (forall (l : list SchemaObject) (acc : list string),
            forEach
              (fun item requiredProperties =>
                 match fst (getDefSpec self item ∅) with
                 | None => undefinedSpec
                 | Some content =>
                     inherited ← getRequiredProperties self fuel content;
                     Ok (requiredProperties ++ inherited)
                 end) l acc = Ok requiredProperties ->
            exists inherited, requiredProperties = acc ++ inherited) as Hloop.
  { induction l as [|item l IHl]; intros acc; cbn [forEach].
    - intros [= <-]. exists []. rewrite app_nil_r. reflexivity.
    - destruct (fst (getDefSpec self item ∅)) as [content|]; [|discriminate].
      destruct (getRequiredProperties self fuel content) as [inh| | |];
        cbn [mbind outcome_bind]; try discriminate.
      intros Hrest. apply IHl in Hrest. destruct Hrest as [more ->].
      exists (inh ++ more). rewrite app_assoc. reflexivity. }
  intros l. apply Hloop.
Qed.

Lemma own_required_come_first_witness :
  exists inherited : list string,
    ["name"; "id"] = requiredOrEmpty childC ++ inherited.
Proof.
  apply (own_required_come_first (mockerOf [("#/definitions/P", parentP)]) 2 childC).
  reflexivity.
Defined.

End CompositionWalkFacts.

(** ** The parameters of a request *)

Module RequestFacts.
Import Mocker Examples Vocabulary JsFacts GeneratorFacts.

Lemma obj_has_set {A : Type} (k k' : string) (v : A) (o : list (string * A)) :
  obj_has k (obj_set k' v o) = String.eqb k k' || obj_has k o.
Proof. unfold obj_has. rewrite obj_get_set. destruct (String.eqb k k'); reflexivity. Qed.

Lemma mockParameter_special (self : SwaggerMocker) (fuel : nat) (rp special : string)
    (fixed : value) (element : SchemaObject) (paramExample result : list (string * value))
    (st st' : GenState) :
  (special = "resourceGroupName" /\ fixed = VStr ("rg" +:+ rp)
   \/ special = "api-version" /\ fixed = infoVersion self) ->
  mockParameter self fuel rp element (paramExample, st) = Ok (result, st') ->
  exists paramEle,
    resolveRefObj self element = Some paramEle
    /\ obj_get special result =
       if bool_decide (name paramEle = Some special) then Some fixed
       else obj_get special paramExample.
Proof.
  intros Hspecial. unfold mockParameter, getDefSpec.
  destruct (resolveRefObj self element) as [paramEle|] eqn:Hres; [|discriminate].
  intros Hrun. exists paramEle. split; [reflexivity|]. revert Hrun.
  assert (forall (k : string) (v : value),
            default "undefined" (name paramEle) = k ->
            name paramEle <> Some special ->
            obj_get special (obj_set k v paramExample) = obj_get special paramExample) as Hother.
  { intros k v Hk Hn. rewrite obj_get_set.
    destruct (String.eqb_spec special k) as [->|Hne]; [|reflexivity].
    exfalso. destruct (name paramEle) as [n|] eqn:Hname; cbn in Hk.
    - apply Hn. rewrite Hk. reflexivity.
    - destruct Hspecial as [[Hs _]|[Hs _]]; rewrite <- Hk in Hs; discriminate. }
  case_bool_decide as Hrg.
  { intros [= <- <-]. rewrite obj_get_set.
    destruct Hspecial as [[-> ->]|[-> ->]].
    - rewrite String.eqb_refl, bool_decide_eq_true_2 by exact Hrg. reflexivity.
    - rewrite bool_decide_eq_false_2 by (rewrite Hrg; discriminate). reflexivity. }
  case_bool_decide as Hver.
  { intros [= <- <-]. rewrite obj_get_set.
    destruct Hspecial as [[-> ->]|[-> ->]].
    - rewrite bool_decide_eq_false_2 by (rewrite Hver; discriminate). reflexivity.
    - rewrite String.eqb_refl, bool_decide_eq_true_2 by exact Hver. reflexivity. }
  assert (name paramEle <> Some special) as Hn
    by (destruct Hspecial as [[-> _]|[-> _]]; assumption).
  rewrite bool_decide_eq_false_2 by exact Hn.
  destruct (schema paramEle) as [bodySchema|].
  - destruct (allowed (onParameter self) paramEle); [|intros [= <- <-]; reflexivity].
    destruct (mockObj _ _ _ _ _ _ _ _) as [[v st1]| | |]; try discriminate.
    cbn [mbind outcome_bind]. intros [= <- <-]. apply Hother; [reflexivity | exact Hn].
  - destruct (obj_has (default "undefined" (name paramEle)) paramExample);
      [intros [= <- <-]; reflexivity|].
    destruct (allowed (onParameter self) paramEle); [|intros [= <- <-]; reflexivity].
    destruct (mockObj _ _ _ _ _ _ _ _) as [[v st1]| | |]; try discriminate.
    cbn [mbind outcome_bind]. intros [= <- <-]. apply Hother; [reflexivity | exact Hn].
Qed.

Lemma mockRequest_special (self : SwaggerMocker) (fuel : nat) (rp special : string)
    (fixed : value) (paramSpec : list (string * SchemaObject)) :
  (special = "resourceGroupName" /\ fixed = VStr ("rg" +:+ rp)
   \/ special = "api-version" /\ fixed = infoVersion self) ->
  forall (paramExample result : list (string * value)) (st st' : GenState),
    mockRequest self fuel paramExample paramSpec rp st = Ok (result, st') ->
    (obj_get special paramExample = Some fixed
     \/ exists entry paramEle,
         In entry paramSpec /\ resolveRefObj self (snd entry) = Some paramEle
         /\ name paramEle = Some special) ->
    obj_get special result = Some fixed.
Proof.
  intros Hspecial. unfold mockRequest.
  induction paramSpec as [|entry paramSpec IH]; intros paramExample result st st';
    cbn [forEach].
  - intros [= <- <-] [H|[entry [pe [[] _]]]]. exact H.
  - destruct (mockParameter self fuel rp (snd entry) (paramExample, st)) as [[mid st1]| | |]
      eqn:Hstep; cbn [mbind outcome_bind]; try discriminate.
    intros Hrest Hsome. apply (IH _ _ _ _ Hrest).
    destruct (mockParameter_special self fuel rp special fixed _ _ _ _ _ Hspecial Hstep)
      as [pe [Hres Hget]].
    case_bool_decide as Hname; [left; exact Hget|].
    destruct Hsome as [H|[entry' [pe' [[<-|Hin] [Hres' Hname']]]]].
    + left. rewrite Hget. exact H.
    + congruence.
    + right. exists entry', pe'. auto.
Qed.

(** X20. [mockRequest] gives the two parameters with special names their
    fixed values: when the operation has a parameter named
    resourceGroupName, the produced example holds the string rg followed
    by the provider name under that name, and when it has one named
    api-version, it holds the version of the document. What the supplied
    example had there and what the rule says make no difference. *)
Theorem special_parameters_get_fixed_values :
  forall (self : SwaggerMocker) (fuel : nat) (rp : string)
         (paramSpec : list (string * SchemaObject))
         (paramExample result : list (string * value)) (st st' : GenState)
         (entry : string * SchemaObject) (paramEle : SchemaObject),
    mockRequest self fuel paramExample paramSpec rp st = Ok (result, st') ->
    In entry paramSpec ->
    resolveRefObj self (snd entry) = Some paramEle ->
    (name paramEle = Some "resourceGroupName" ->
     obj_get "resourceGroupName" result = Some (VStr ("rg" +:+ rp)))
    /\ (name paramEle = Some "api-version" ->
        obj_get "api-version" result = Some (infoVersion self)).
Proof.
  intros self fuel rp paramSpec paramExample result st st' entry paramEle Hrun Hin Hres.
  split; intros Hname.
  - eapply (mockRequest_special self fuel rp "resourceGroupName"); [left; auto | exact Hrun |].
    right. exists entry, paramEle. auto.
  - eapply (mockRequest_special self fuel rp "api-version"); [right; auto | exact Hrun |].
    right. exists entry, paramEle. auto.
Qed.

Lemma special_parameters_get_fixed_values_witness :
  (name apiVersionParameter = Some "resourceGroupName" ->
   obj_get "resourceGroupName" [("api-version", VStr "2020-01-01")]
   = Some (VStr ("rg" +:+ "foo")))
  /\ (name apiVersionParameter = Some "api-version" ->
      obj_get "api-version" [("api-version", VStr "2020-01-01")]
      = Some (infoVersion (mockerOf []))).
Proof.
  apply (special_parameters_get_fixed_values (mockerOf []) 0 "foo"
           [("0", apiVersionParameter)] [("api-version", VStr "mine")]
           [("api-version", VStr "2020-01-01")] freshState freshState
           ("0", apiVersionParameter) apiVersionParameter).
  - reflexivity.
  - left. reflexivity.
  - reflexivity.
Defined.

Lemma mockParameter_keeps_members (self : SwaggerMocker) (fuel : nat) (rp k : string)
    (element : SchemaObject) (paramExample result : list (string * value))
    (st st' : GenState) :
  mockParameter self fuel rp element (paramExample, st) = Ok (result, st') ->
  obj_has k paramExample = true -> obj_has k result = true.
Proof.
  unfold mockParameter, getDefSpec.
  destruct (resolveRefObj self element) as [paramEle|]; [|discriminate].
  assert (forall k' v, obj_has k paramExample = true ->
                       obj_has k (obj_set k' v paramExample) = true) as Hset.
  { intros k' v H. rewrite obj_has_set, H. apply orb_true_r. }
  case_bool_decide; [intros [= <- <-]; apply Hset|].
  case_bool_decide; [intros [= <- <-]; apply Hset|].
  destruct (schema paramEle) as [bodySchema|].
  - destruct (allowed (onParameter self) paramEle); [|intros [= <- <-]; auto].
    destruct (mockObj _ _ _ _ _ _ _ _) as [[v st1]| | |]; try discriminate.
    cbn [mbind outcome_bind]. intros [= <- <-]. apply Hset.
  - destruct (obj_has (default "undefined" (name paramEle)) paramExample);
      [intros [= <- <-]; auto|].
    destruct (allowed (onParameter self) paramEle); [|intros [= <- <-]; auto].
    destruct (mockObj _ _ _ _ _ _ _ _) as [[v st1]| | |]; try discriminate.
    cbn [mbind outcome_bind]. intros [= <- <-]. apply Hset.
Qed.

(** X21. [mockRequest] never removes a member of the supplied parameter
    example: every name it had is a name of the result. *)
Theorem supplied_parameters_stay :
  forall (self : SwaggerMocker) (fuel : nat) (rp k : string)
         (paramSpec : list (string * SchemaObject))
         (paramExample result : list (string * value)) (st st' : GenState),
    mockRequest self fuel paramExample paramSpec rp st = Ok (result, st') ->
    obj_has k paramExample = true ->
    obj_has k result = true.
Proof.
  intros self fuel rp k paramSpec. unfold mockRequest.
  induction paramSpec as [|entry paramSpec IH]; intros paramExample result st st';
    cbn [forEach].
  - intros [= <- <-] H. exact H.
  - destruct (mockParameter self fuel rp (snd entry) (paramExample, st)) as [[mid st1]| | |]
      eqn:Hstep; cbn [mbind outcome_bind]; try discriminate.
    intros Hrest Hhas. apply (IH _ _ _ _ Hrest).
    eapply mockParameter_keeps_members; eassumption.
Qed.

Lemma supplied_parameters_stay_witness :
  obj_has "extra" [("extra", VNum 1); ("api-version", VStr "2020-01-01")] = true.
Proof.
  apply (supplied_parameters_stay (mockerOf []) 0 "foo" "extra"
           [("0", apiVersionParameter)] [("extra", VNum 1)]
           [("extra", VNum 1); ("api-version", VStr "2020-01-01")] freshState freshState).
  - reflexivity.
  - reflexivity.
Defined.

End RequestFacts.

(** ** Generated objects and branch selection *)

Module ObjectFacts.
Import Mocker Examples Vocabulary JsFacts GeneratorFacts SeedFacts RequestFacts.

Lemma properties_loop_members (self : SwaggerMocker) (fuel : nat) (objName : string)
    (isRequest : bool) (dv : option string) (props : list (string * SchemaObject)) :
  forall (members : list (string * value)) (visited visited' : gset string)
         (st st' : GenState) (example' : value),
    forEach
      (fun kv '(example, visited, st) =>
         let k := fst kv in
         if String.eqb k objName && truthy_str dv then
           example ← writeMember example k
             (createLeafItem (VStr (default EmptyString dv)) (snd kv));
           Ok (example, visited, st)
         else
           seed ← readMember example k;
           '(item, visited, st) ←
             mockCachedObj self fuel k (Some (snd kv)) seed visited isRequest dv st;
           example ← writeMember example k item;
           Ok (example, visited, st))
      props (VObj members, visited, st) = Ok (example', visited', st') ->
    exists members',
      example' = VObj members'
      /\ (forall k, obj_has k members = true -> obj_has k members' = true)
      /\ (forall k, obj_has k props = true -> obj_has k members' = true).
Proof.
  induction props as [|[k s] props IH]; intros members visited visited' st st' example';
    cbn [forEach].
  - intros [= <- <- <-]. exists members. split; [reflexivity|]. split; [auto|].
    intros k. discriminate.
  - cbn [fst snd].
    assert (forall v rest,
              (forEach
                 (fun kv '(example, visited, st) =>
                    let k := fst kv in
                    if String.eqb k objName && truthy_str dv then
                      example ← writeMember example k
                        (createLeafItem (VStr (default EmptyString dv)) (snd kv));
                      Ok (example, visited, st)
                    else
                      seed ← readMember example k;
                      '(item, visited, st) ←
                        mockCachedObj self fuel k (Some (snd kv)) seed visited isRequest dv st;
                      example ← writeMember example k item;
                      Ok (example, visited, st))
                 props (VObj (obj_set k v members), rest.1, rest.2)
               = Ok (example', visited', st')) ->
              exists members',
                example' = VObj members'
                /\ (forall k0, obj_has k0 members = true -> obj_has k0 members' = true)
                /\ (forall k0, obj_has k0 ((k, s) :: props) = true -> obj_has k0 members' = true))
      as Hnext.
    { intros v rest Hrest. apply IH in Hrest. destruct Hrest as [members' [-> [Hkeep Hall]]].
      exists members'. split; [reflexivity|]. split.
      - intros k0 Hk0. apply Hkeep. rewrite obj_has_set, Hk0. apply orb_true_r.
      - intros k0. unfold obj_has at 1. cbn [obj_get].
        destruct (String.eqb_spec k0 k) as [->|Hne].
        + intros _. apply Hkeep. rewrite obj_has_set, String.eqb_refl. reflexivity.
        + intros Hk0. apply Hall. exact Hk0. }
    destruct (String.eqb k objName && truthy_str dv).
    + cbn [writeMember mbind outcome_bind]. intros Hrest.
      eapply (Hnext _ (visited, st)). exact Hrest.
    + cbn [readMember mbind outcome_bind].
      match goal with |- context [mockCachedObj ?a ?b ?c ?d ?e ?f ?g ?h ?i] =>
        destruct (mockCachedObj a b c d e f g h i) as [[[item v1] s1]| | |] end;
        cbn [mbind outcome_bind writeMember]; try discriminate.
      intros Hrest. eapply (Hnext _ (v1, s1)). exact Hrest.
Qed.

(** X22. [mockCachedObj] on an object schema with an example that is an
    object, when generation goes through the properties (no
    discriminator found, or a discriminator value already chosen, or the
    discriminator is not a property): the item is a trunk whose object
    has a member for every property of the merged property map, and
    still has every member of the example. *)
Theorem generated_object_has_declared_members :
  forall (self : SwaggerMocker) (fuel : nat) (objName : string)
         (schema0 definitionSpec : SchemaObject) (seedMembers : list (string * value))
         (visited v1 v2 visited' : gset string) (isRequest : bool) (dv found : option string)
         (st st' : GenState) (props : list (string * SchemaObject)) (item : value),
    (forall r, ref schema0 = Some r -> r ∉ visited) ->
    truthy (getCache self schema0 st) = false ->
    resolveRefObj self schema0 = Some definitionSpec ->
    isObject self definitionSpec = true ->
    getProperties self fuel definitionSpec (snd (getDefSpec self schema0 visited))
    = Ok (props, v1) ->
    getDiscriminator self fuel definitionSpec v1 = Ok (found, v2) ->
    (found = None \/ truthy_str dv = true
     \/ arr_includes (default EmptyString found) (obj_keys props) = false) ->
    mockCachedObj self (S fuel) objName (Some schema0) (VObj seedMembers) visited isRequest dv st
    = Ok (item, visited', st') ->
    exists (members : list (string * value)) (meta : ItemMeta),
      item = VTrunk (VObj members) meta
      /\ (forall k, obj_has k seedMembers = true -> obj_has k members = true)
      /\ (forall k, obj_has k props = true -> obj_has k members = true).
Proof.
  intros self fuel objName schema0 definitionSpec seedMembers visited v1 v2 visited' isRequest
    dv found st st' props item Hvisited Hcache Hres Hobj Hprops Hdisc Hplain.
  cbn [mockCachedObj].
  assert (match ref schema0 with Some r => bool_decide (r ∈ visited) | None => false end = false)
    as ->.
  { destruct (ref schema0) as [r|] eqn:Hr; [|reflexivity].
    apply bool_decide_eq_false_2. apply Hvisited. reflexivity. }
  rewrite Hcache.
  destruct (getDefSpec self schema0 visited) as [content v0] eqn:Hdef.
  assert (content = Some definitionSpec) as ->
    by (unfold getDefSpec in Hdef; injection Hdef as <- _; exact Hres).
  cbn [snd] in Hprops. rewrite Hobj, Hprops. cbn [mbind outcome_bind]. rewrite Hdisc.
  cbn [mbind outcome_bind orElse truthy].
  match goal with |- context [forEach ?f ?l ?acc ≫= ?k] =>
    set (plainBranch := forEach f l acc ≫= k) end.
  match goal with |- (_ ≫= ?tail) = _ -> ?concl =>
    assert (plainBranch ≫= tail = Ok (item, visited', st') -> concl) as Hmain end.
  { subst plainBranch.
    match goal with |- context [forEach ?f ?l ?acc] =>
      destruct (forEach f l acc) as [[[example1 vis1] st1]| | |] eqn:Hloop end;
      cbn [mbind outcome_bind]; try discriminate.
    apply properties_loop_members in Hloop. destruct Hloop as [members1 [-> [Hkeep Hall]]].
    assert (forall (members2 : list (string * value)) (vis2 : gset string) (st2 : GenState),
              (forall k, obj_has k members1 = true -> obj_has k members2 = true) ->
              (cacheItem ← wrapItem (VObj members2) definitionSpec;
               requiredProperties ← getRequiredProperties self fuel definitionSpec;
               let cacheItem := markMocked requiredProperties cacheItem in
               Ok (cacheItem, removeFromSet schema0 vis2, checkAndCache schema0 cacheItem st2))
              = Ok (item, visited', st') ->
              exists (members : list (string * value)) (meta : ItemMeta),
                item = VTrunk (VObj members) meta
                /\ (forall k, obj_has k seedMembers = true -> obj_has k members = true)
                /\ (forall k, obj_has k props = true -> obj_has k members = true)) as Hend.
    { intros members2 vis2 st2 Hmore. cbn [wrapItem mbind outcome_bind createTrunkItem].
      destruct (getRequiredProperties self fuel definitionSpec) as [req| | |];
        cbn [mbind outcome_bind]; try discriminate.
      intros [= <- _ _]. cbn [markMocked]. eexists members2, _. split; [reflexivity|].
      split; intros k Hk; apply Hmore; auto. }
    destruct (additionalSchema definitionSpec) as [additional|].
    - destruct (obj_has (randomKey self (tick st1)) props).
      + cbn [mbind outcome_bind]. apply Hend. auto.
      + match goal with |- context [mockCachedObj ?a ?b ?c ?d ?e ?f ?g ?h ?i] =>
          destruct (mockCachedObj a b c d e f g h i) as [[[extra v3] s3]| | |] end;
          cbn [mbind outcome_bind writeMember]; try discriminate.
        apply Hend. intros k Hk. rewrite obj_has_set, Hk. apply orb_true_r.
    - cbn [mbind outcome_bind]. apply Hend. auto. }
  destruct found as [d0|]; destruct (truthy_str dv) eqn:Hdv;
    destruct (arr_includes _ (obj_keys props)) eqn:Hinc; try exact Hmain.
  exfalso. destruct Hplain as [H | [H | H]]; [discriminate | discriminate | congruence].
Qed.

Lemma generated_object_has_declared_members_witness :
  exists (members : list (string * value)) (meta : ItemMeta),
    fst (fst catGenerated) = VTrunk (VObj members) meta
    /\ (forall k, obj_has k [("extra", VNum 1)] = true -> obj_has k members = true)
    /\ (forall k, obj_has k (propertiesOrEmpty catDef) = true -> obj_has k members = true).
Proof.
  apply (generated_object_has_declared_members (mockerOf petDefs) 2 "body"
           (refSchema "#/definitions/Cat") catDef [("extra", VNum 1)] ∅
           {[ "#/definitions/Cat" ]} {[ "#/definitions/Cat" ]} (snd (fst catGenerated))
           false None None freshState (snd catGenerated)).
  - intros r _. apply not_elem_of_empty.
  - reflexivity.
  - reflexivity.
  - reflexivity.
  - vm_compute. reflexivity.
  - vm_compute. reflexivity.
  - left. reflexivity.
  - vm_compute. reflexivity.
Defined.



End ObjectFacts.

(** ** The responses of an example *)

Module ResponseFacts.
Import Mocker Responses Examples Vocabulary JsFacts BackfillFacts PassFacts SeedFacts RequestFacts.

Lemma slotMember_headers (members : list (string * value)) (h : value) (k : string) :
  k <> "headers" ->
  slotMember (VObj (obj_set "headers" h members)) k = slotMember (VObj members) k.
Proof.
  intros Hk. unfold slotMember, memberOrUndefined. rewrite obj_get_set.
  apply String.eqb_neq in Hk. rewrite Hk. reflexivity.
Qed.

(** X24. [mockEachResponse] does not read the member [headers] of a
    supplied response (the member it looks up is spelled hearders):
    setting [headers] to any value does not change what is generated. *)
Theorem supplied_headers_are_not_read :
  forall (self : SwaggerMocker) (rules : ResponseRules) (fuel : nat) (statusCode : string)
         (members : list (string * value)) (h : value) (specItem : SpecItem) (st : GenState),
    mockEachResponse self rules fuel statusCode (VObj (obj_set "headers" h members)) specItem st
    = mockEachResponse self rules fuel statusCode (VObj members) specItem st.
Proof.
  intros self rules fuel statusCode members h specItem st. unfold mockEachResponse.
  rewrite !slotMember_headers by discriminate. reflexivity.
Qed.



(** X26. [mockEachResponse] for a status code that the operation does
    not declare, with no rule on the body: the call throws the TypeError
    of the [in] operator applied to undefined. *)
Theorem undeclared_status_code_fails :
  forall (self : SwaggerMocker) (rules : ResponseRules) (fuel : nat) (statusCode : string)
         (members : list (string * value)) (specItem : SpecItem) (st : GenState),
    onResponseBody rules = None ->
    obj_get statusCode (content_responses specItem) = None ->
    mockEachResponse self rules fuel statusCode (VObj members) specItem st
    = Throw "TypeError: Cannot use 'in' operator to search for 'schema' in undefined".
Proof.
  intros self rules fuel statusCode members specItem st Hrule Hnone.
  unfold mockEachResponse. rewrite Hrule, Hnone. reflexivity.
Qed.

Lemma undeclared_status_code_fails_witness :
  mockEachResponse (mockerOf []) noRules 3 "201" (VObj []) getItem freshState
  = Throw "TypeError: Cannot use 'in' operator to search for 'schema' in undefined".
Proof.
  apply (undeclared_status_code_fails (mockerOf []) noRules 3 "201" [] getItem freshState);
    reflexivity.
Defined.

Lemma In_insert_index (k k0 : string) (i0 : N) (l : list (string * N)) :
  In k (map fst (insert_index k0 i0 l)) -> k = k0 \/ In k (map fst l).
Proof.
  induction l as [|[k' i'] l IH]; cbn [insert_index map fst In].
  - intros [<-|[]]. left. reflexivity.
  - destruct (i0 <? i')%N; cbn [map fst In].
    + intros [<-|H]; [left; reflexivity | right; exact H].
    + intros [<-|H]; [right; left; reflexivity|].
      destruct (IH H) as [->|H']; [left; reflexivity | right; right; exact H'].
Qed.

Lemma own_keys_In {A : Type} (k : string) (o : list (string * A)) :
  In k (own_keys o) -> In k (obj_keys o).
Proof.
  unfold own_keys. intros H. apply in_app_or in H. destruct H as [H|H].
  - induction (obj_keys o) as [|k0 l IH]; cbn [fold_right] in H; [destruct H|].
    destruct (array_index k0) as [i|].
    + apply In_insert_index in H. destruct H as [->|H]; [left; reflexivity | right; auto].
    + right. auto.
  - apply filter_In in H. tauto.
Qed.

Lemma obj_keys_set {A : Type} (k : string) (v : A) (o : list (string * A)) :
  In k (obj_keys o) -> obj_keys (obj_set k v o) = obj_keys o.
Proof.
  unfold obj_keys. induction o as [|[k' v'] o IH]; cbn [map fst In obj_set]; [intros []|].
  destruct (String.eqb_spec k k') as [->|Hne]; [reflexivity|].
  intros [H|H]; [congruence|]. cbn [map fst]. rewrite IH by exact H. reflexivity.
Qed.

Lemma mockResponse_keys (self : SwaggerMocker) (rules : ResponseRules) (fuel : nat)
    (responseExample result : list (string * value)) (specItem : SpecItem)
    (st st' : GenState) :
  mockResponse self rules fuel responseExample specItem st = Ok (result, st') ->
  obj_keys result = obj_keys responseExample.
Proof.
  unfold mockResponse. intros Hrun.
  apply (forEach_preserves
           (fun acc : list (string * value) * GenState =>
              obj_keys (fst acc) = obj_keys responseExample)) in Hrun; [exact Hrun | |reflexivity].
  intros statusCode [ex s] [ex' s'] Hin Hacc. cbn [fst] in *.
  destruct (mockEachResponse self rules fuel statusCode (memberOrUndefined ex statusCode)
              specItem s) as [[mockedResp s1]| | |]; cbn [mbind outcome_bind]; try discriminate.
  intros [= <- <-]. rewrite obj_keys_set; [exact Hacc|].
  rewrite Hacc. apply own_keys_In. exact Hin.
Qed.

(** X27. [mockResponse] replaces the content of every slot and keeps the
    slots: the result has the status codes of the example it was given,
    in the same order. *)
Theorem mockResponse_keeps_the_slots :
  forall (self : SwaggerMocker) (rules : ResponseRules) (fuel : nat)
         (responseExample result : list (string * value)) (specItem : SpecItem)
         (st st' : GenState),
    mockResponse self rules fuel responseExample specItem st = Ok (result, st') ->
    obj_keys result = obj_keys responseExample.
Proof. intros. eapply mockResponse_keys. eassumption. Qed.

Lemma mockResponse_keeps_the_slots_witness :
  obj_keys (fst slotsGenerated) = obj_keys [("404", VObj []); ("200", VObj [])].
Proof.
  apply (mockResponse_keeps_the_slots (mockerOf []) noRules 3
           [("404", VObj []); ("200", VObj [])] (fst slotsGenerated) getItem freshState
           (snd slotsGenerated)).
  vm_compute. reflexivity.
Defined.

Lemma obj_has_keys {A : Type} (k : string) (o : list (string * A)) :
  obj_has k o = true <-> In k (obj_keys o).
Proof.
  unfold obj_has, obj_keys. induction o as [|[k' v] o IH]; cbn [obj_get map fst In].
  - split; [discriminate | intros []].
  - destruct (String.eqb_spec k k') as [->|Hne].
    + split; auto.
    + rewrite IH. split; [auto|]. intros [H|H]; [congruence | exact H].
Qed.

(** X28. [mockForExample] for an example that comes without responses:
    the responses of the produced example have a slot for every status
    code that the operation declares, except default, and for no other. *)
Theorem mockForExample_fills_the_declared_codes :
  forall (self : SwaggerMocker) (rules : ResponseRules) (fuel : nat)
         (example example' : ExampleObject) (specItem : SpecItem) (rp : string)
         (st st' : GenState) (code : string),
    ex_responses example = [] ->
    mockForExample self rules fuel example specItem rp st = Ok (example', st') ->
    obj_has code (ex_responses example')
    = obj_has code (content_responses specItem) && negb (String.eqb code "default").
Proof.
  intros self rules fuel example example' specItem rp st st' code Hempty.
  unfold mockForExample.
  destruct (mockRequest self fuel (ex_parameters example) (content_parameters specItem) rp st)
    as [[ps s1]| | |]; cbn [mbind outcome_bind]; try discriminate.
  destruct (mockResponse self rules fuel _ specItem s1) as [[rs s2]| | |] eqn:Hresp;
    cbn [mbind outcome_bind]; try discriminate.
  intros [= <- <-]. cbn [ex_responses].
  apply mockResponse_keys in Hresp.
  assert (forall (o1 o2 : list (string * value)),
            obj_keys o1 = obj_keys o2 -> obj_has code o1 = obj_has code o2) as Hkeys.
  { intros o1 o2 H. destruct (obj_has code o2) eqn:H2.
    - apply obj_has_keys. rewrite H. apply obj_has_keys. exact H2.
    - destruct (obj_has code o1) eqn:H1; [|reflexivity].
      apply obj_has_keys in H1. rewrite H in H1. apply obj_has_keys in H1. congruence. }
  rewrite (Hkeys _ _ Hresp). rewrite Hempty. unfold obj_has at 1.
  unfold backfillResponses. cbn [obj_keys map].
  rewrite (obj_get_fill (fun c => negb (String.eqb c "default"))).
  rewrite existsb_keys.
  destruct (obj_has code (content_responses specItem) && negb (String.eqb code "default"));
    reflexivity.
Qed.

Lemma mockForExample_fills_the_declared_codes_witness :
  obj_has "404" (ex_responses (fst exampleGenerated))
  = obj_has "404" (content_responses getItem) && negb (String.eqb "404" "default").
Proof.
  apply (mockForExample_fills_the_declared_codes (mockerOf []) noRules 3 (mkExample [] [])
           (fst exampleGenerated) getItem "foo" freshState (snd exampleGenerated) "404").
  - reflexivity.
  - vm_compute. reflexivity.
Defined.

(** X29. [mockEachResponse] for a response whose schema is neither an
    object nor an array, in a slot that supplies no body: the example
    handed to [mockObj] is the empty object, which is truthy, so it is
    kept. The body is made of the empty object and nothing is
    synthesized. *)
Theorem body_of_primitive_response_is_the_empty_object :
  forall (self : SwaggerMocker) (rules : ResponseRules) (fuel : nat) (statusCode : string)
         (members : list (string * value)) (specItem : SpecItem) (st : GenState)
         (responseSpec bodySchema definitionSpec : SchemaObject),
    onResponseBody rules = None ->
    obj_get statusCode (content_responses specItem) = Some responseSpec ->
    schema responseSpec = Some bodySchema ->
    truthy (getCache self bodySchema st) = false ->
    resolveRefObj self bodySchema = Some definitionSpec ->
    isObject self definitionSpec = false ->
    type definitionSpec <> Some "array" ->
    allOf definitionSpec = None ->
    truthy (memberOrUndefined members "body") = false ->
    mockEachResponse self rules (S (S fuel)) statusCode (VObj members) specItem st
    = Ok (VObj
            [("headers",
              orElse (memberOrUndefined members "hearders")
                (mockHeaders rules statusCode specItem));
             ("body",
              orElse
                (reBuildExample self (seedItem (VObj []) definitionSpec) false (Some bodySchema))
                (VObj []))],
          checkAndCache bodySchema (seedItem (VObj []) definitionSpec) st).
Proof.
  intros self rules fuel statusCode members specItem st responseSpec bodySchema definitionSpec
    Hrule Hspec Hschema Hcache Hres Hobj Harr HallOf Hbody.
  unfold mockEachResponse. rewrite Hrule, Hspec, Hschema.
  cbn [slotMember mbind outcome_bind]. rewrite (orElse_falsy_left _ _ Hbody).
  unfold mockObj.
  rewrite (primitive_keeps_truthy_seed self fuel "response body" bodySchema
             definitionSpec (VObj []) ∅ false None st); try assumption; try reflexivity.
  intros r _. apply not_elem_of_empty.
Qed.

Lemma body_of_primitive_response_is_the_empty_object_witness :
  mockEachResponse (mockerOf []) noRules 2 "200" (VObj []) getItem freshState
  = Ok (VObj
          [("headers",
            orElse (memberOrUndefined [] "hearders") (mockHeaders noRules "200" getItem));
           ("body",
            orElse
              (reBuildExample (mockerOf []) (seedItem (VObj []) stringSchema) false
                 (Some stringSchema))
              (VObj []))],
        checkAndCache stringSchema (seedItem (VObj []) stringSchema) freshState).
Proof.
  apply (body_of_primitive_response_is_the_empty_object (mockerOf []) noRules 0 "200" []
           getItem freshState okResponse stringSchema stringSchema);
    first [reflexivity | discriminate].
Defined.

End ResponseFacts.
